(** * AI-society: the cognitive agent loop

    A shallow embedding of the per-agent memory store, perception, reaction,
    reflection and planning code of [backend/app/agents] together with the
    parts of [backend/app/core/locations.py] and [backend/app/agents/manager.py]
    that decision execution calls, followed by the properties that the
    design document states about them.

    Conventions of the embedding.
    - A Python [str] is held as the UTF-8 encoding of its code points in a
      [string]; comparing two such strings byte by byte gives the order of
      Python's code-point comparison, and [PyStr.chars] cuts a string into
      its characters where Python counts or classifies characters.
    - A Python [float] is held as the rational that it denotes, and
      comparisons are exact.  The power in the recency score and the
      arithmetic on money go through the [Host]: [float_pow], whose result
      can be out of range, and [float_add], [float_sub], [float_mul] and
      [float_div], of whose rounding nothing is assumed.  The weighted sum of
      a retrieval score, the keyword overlap and the sums of importances are
      taken exactly; their rounding is not modelled.
    - The parsed reply of the inference service is a dynamically typed
      Python value ([pyval]); fields that the code fills from it keep that
      type.
    - Effects are explicit.  The wall clock, the uuid generator and the
      inference service are oracles of the [Host]; a [Runtime] counts how
      often each has been consulted, and a computation [M A] threads the
      [Runtime] and either returns or raises a Python exception.
    - Logging is not modelled. *)

From Stdlib Require Import QArith Qround ZArith Lia Lqa.
From stdpp Require Import gmap strings list fin_maps pretty sorting.

Local Open Scope string_scope.

(** ** Python strings *)

Module PyStr.

Definition is_continuation (b : Ascii.ascii) : bool :=
  let n := Ascii.N_of_ascii b in ((128 <=? n) && (n <? 192))%N.

(** The characters of a string: every byte that is not a UTF-8 continuation
    byte starts a new character. *)
Fixpoint chars (s : string) : list string :=
  match s with
  | EmptyString => []
  | String b rest =>
      match chars rest with
      | String c tl :: cs =>
          if is_continuation c then String b (String c tl) :: cs
          else String b EmptyString :: String c tl :: cs
      | cs => String b EmptyString :: cs
      end
  end.

(** [len(s)] *)
Definition len (s : string) : nat := length (chars s).

(** The UTF-8 encoding of one code point. *)
Definition utf8 (cp : N) : string :=
  let a := Ascii.ascii_of_N in
  if (cp <? 128)%N then String (a cp) ""
  else if (cp <? 2048)%N then
    String (a (192 + cp / 64)%N) (String (a (128 + cp mod 64)%N) "")
  else if (cp <? 65536)%N then
    String (a (224 + cp / 4096)%N)
      (String (a (128 + (cp / 64) mod 64)%N) (String (a (128 + cp mod 64)%N) ""))
  else
    String (a (240 + cp / 262144)%N)
      (String (a (128 + (cp / 4096) mod 64)%N)
         (String (a (128 + (cp / 64) mod 64)%N) (String (a (128 + cp mod 64)%N) ""))).

(** The code points for which [str.isspace] holds; [str.split()] and
    [str.strip()] cut at exactly these. *)
Definition whitespace : list N :=
  [9; 10; 11; 12; 13; 28; 29; 30; 31; 32; 133; 160; 5760;
   8192; 8193; 8194; 8195; 8196; 8197; 8198; 8199; 8200; 8201; 8202;
   8232; 8233; 8239; 8287; 12288]%N.

Definition isspace (c : string) : bool :=
  existsb (fun cp => String.eqb c (utf8 cp)) whitespace.

Definition is_empty (s : string) : bool :=
  match s with EmptyString => true | _ => false end.

(** Truth value of a string: [bool(s)]. *)
Definition truthy (s : string) : bool := negb (is_empty s).

Fixpoint split_chars (cs : list string) (cur : string) : list string :=
  match cs with
  | [] => if is_empty cur then [] else [cur]
  | c :: rest =>
      if isspace c then
        if is_empty cur then split_chars rest "" else cur :: split_chars rest ""
      else split_chars rest (cur +:+ c)
  end.

(** [s.split()] *)
Definition split (s : string) : list string := split_chars (chars s) "".



Fixpoint replace_go (old new : string) (skip : nat) (s : string) : string :=
  match s with
  | EmptyString => ""
  | String b rest =>
      match skip with
      | S k => replace_go old new k rest
      | O =>
          if String.prefix old s
          then new +:+ replace_go old new (String.length old - 1) rest
          else String b (replace_go old new 0 rest)
      end
  end.

(** [s.replace(old, new)] for a non-empty [old]. *)
Definition replace (old new s : string) : string := replace_go old new 0 s.

Fixpoint lstrip_chars (cs : list string) : list string :=
  match cs with
  | c :: rest => if isspace c then lstrip_chars rest else cs
  | [] => []
  end.

(** [s.strip()] *)
Definition strip (s : string) : string :=
  String.concat "" (rev (lstrip_chars (rev (lstrip_chars (chars s))))).

(** [sub in s] *)
Fixpoint contains (sub s : string) : bool :=
  String.prefix sub s ||
  match s with
  | EmptyString => false
  | String _ rest => contains sub rest
  end.

(** [sep.join(parts)] *)
Definition join (sep : string) (parts : list string) : string :=
  String.concat sep parts.

(** How an f-string renders an [Optional[str]]. *)
Definition format_optional (o : option string) : string :=
  match o with Some s => s | None => "None" end.

(** Truth value of an [Optional[str]]. *)
Definition truthy_optional (o : option string) : bool :=
  match o with Some s => truthy s | None => false end.

Definition newline : string := String (Ascii.ascii_of_N 10) "".

End PyStr.

(** ** Python floats and a few list operations *)

Definition Qltb (a b : Q) : bool := negb (Qle_bool b a).

(** [max(a, b)] and [min(a, b)] on floats: the first argument wins a tie. *)
Definition py_max (a b : Q) : Q := if Qltb a b then b else a.
Definition py_min (a b : Q) : Q := if Qltb b a then b else a.

(** [l[:n]]: a negative bound counts from the end. *)
Definition slice_to {A} (n : Z) (l : list A) : list A :=
  if (0 <=? n)%Z then take (Z.to_nat n) l
  else take (length l - Z.to_nat (- n)) l.

Section StableSort.
Context {A K : Type} (ltb : K → K → bool) (key : A → K).

(** [sorted(l, key=key)]: stable and ascending. *)
Fixpoint insert_asc (x : A) (l : list A) : list A :=
  match l with
  | [] => [x]
  | y :: l' => if ltb (key y) (key x) then y :: insert_asc x l' else x :: l
  end.

Definition sorted_asc (l : list A) : list A := foldr insert_asc [] l.

(** [sorted(l, key=key, reverse=True)]: stable and descending. *)
Fixpoint insert_desc (x : A) (l : list A) : list A :=
  match l with
  | [] => [x]
  | y :: l' => if ltb (key x) (key y) then y :: insert_desc x l' else x :: l
  end.

Definition sorted_desc (l : list A) : list A := foldr insert_desc [] l.

(** No later element has a larger key. *)
Definition descending (l : list A) : Prop :=
  StronglySorted (λ x y, ltb (key x) (key y) = false) l.

(** No later element has a smaller key. *)
Definition ascending (l : list A) : Prop :=
  StronglySorted (λ x y, ltb (key y) (key x) = false) l.

End StableSort.

(** ** Dynamically typed values, as [json.loads] returns them *)

#[local] Set Warnings "-register-all".

Inductive pyval : Type :=
| PyNone
| PyBool (b : bool)
| PyInt (z : Z)
| PyFloat (q : Q)
| PyStr (s : string)
| PyList (l : list pyval)
| PyDict (d : list (string * pyval)).

Module Py.

(** [bool(v)] *)
Definition truthy (v : pyval) : bool :=
  match v with
  | PyNone => false
  | PyBool b => b
  | PyInt z => negb (z =? 0)%Z
  | PyFloat q => negb (Qeq_bool q 0)
  | PyStr s => PyStr.truthy s
  | PyList l => match l with [] => false | _ => true end
  | PyDict d => match d with [] => false | _ => true end
  end.

Fixpoint assoc (k : string) (d : list (string * pyval)) : option pyval :=
  match d with
  | [] => None
  | (k', v) :: d' => if String.eqb k k' then Some v else assoc k d'
  end.

Definition of_optional (o : option string) : pyval :=
  match o with Some s => PyStr s | None => PyNone end.

End Py.

(** ** Dates and times *)

Module datetime.

Record t := mk {
  toordinal : Z;      (* the day, as [date.toordinal()] numbers it *)
  hour : Z;
  minute : Z;
  second : Z;
  microsecond : Z
}.

Definition microseconds (d : t) : Z :=
  ((((toordinal d * 24 + hour d) * 60 + minute d) * 60 + second d) * 1000000
   + microsecond d)%Z.

(** [(a - b).total_seconds()] *)
Definition total_seconds_between (a b : t) : Q :=
  (inject_Z (microseconds a - microseconds b) / 1000000)%Q.

Definition digit (z : Z) : Ascii.ascii := Ascii.ascii_of_N (48 + Z.to_N z)%N.

Definition two_digits (z : Z) : string :=
  String (digit (z / 10)) (String (digit (z mod 10)) "").

(** [d.strftime("%H:%M")] *)
Definition strftime_HM (d : t) : string :=
  two_digits (hour d) +:+ ":" +:+ two_digits (minute d).

(** [a < b] *)
Definition ltb (a b : t) : bool := (microseconds a <? microseconds b)%Z.

End datetime.

(** ** The host: clock, uuid generator, inference service, library functions *)

(** The arguments of one [llm_router.generate] call. *)
Record LLMRequest := mkLLMRequest {
  prompt : string;
  model_name : string;
  temperature : Q;
  max_tokens : Z
}.

(** The values of [app.core.config.settings] that the modelled code reads. *)
Record Settings := mkSettings {
  daily_expense_base : Q;
  programmer_hourly_wage : Q
}.

Class Host := {
  (** the [n]-th reading of [datetime.now()] *)
  now_at : nat → datetime.t;
  (** the [n]-th value of [str(uuid4())[:8]] *)
  uuid_at : nat → string;
  (** the content of the reply to the [n]-th inference call, [None] when the
      call raises *)
  llm_at : nat → LLMRequest → option string;
  (** [x ** y] on floats, when the result is in range *)
  float_pow : Q → Q → Q;
  (** whether the result of [x ** y] on floats is out of range, in which
      case the operation raises [OverflowError] *)
  float_pow_overflows : Q → Q → bool;
  (** [x + y], [x - y], [x * y] and [x / y] on floats *)
  float_add : Q → Q → Q;
  float_sub : Q → Q → Q;
  float_mul : Q → Q → Q;
  float_div : Q → Q → Q;
  (** [json.loads], [None] when it raises [JSONDecodeError] *)
  json_loads : string → option pyval;
  (** [re.findall(pattern, text)] *)
  re_findall : string → string → list string;
  (** [PromptTemplates.render(name, **kwargs)] *)
  render : string → list (string * string) → string;
  (** [s.lower()] *)
  str_lower : string → string;
  (** [str(v)] of a value that is not a string *)
  str_of : pyval → string;
  (** [str(x)] of a float *)
  float_str : Q → string;
  settings : Settings
}.

Record Runtime := mkRuntime {
  clock_reads : nat;
  uuid_draws : nat;
  llm_calls : nat
}.

Inductive exn :=
  KeyError | ValueError | TypeError | AttributeError | OverflowError | ServiceError.

(** A computation: it reads and advances the [Runtime] and returns a value or
    raises. *)
Definition M (A : Type) : Type := Runtime → (exn + A) * Runtime.

Definition ret {A} (a : A) : M A := λ r, (inr a, r).

Definition raise {A} (e : exn) : M A := λ r, (inl e, r).

Definition bind {A B} (c : M A) (k : A → M B) : M B :=
  λ r, match c r with
       | (inr a, r') => k a r'
       | (inl e, r') => (inl e, r')
       end.

(** The outcome of a computation is an [OverflowError]. *)
Definition overflows {A} (outcome : (exn + A) * Runtime) : Prop :=
  ∃ r', outcome = (inl OverflowError, r').

(** [try: c except Exception: h] *)
Definition try_except {A} (c : M A) (h : M A) : M A :=
  λ r, match c r with
       | (inr a, r') => (inr a, r')
       | (inl _, r') => h r'
       end.

Declare Scope py_scope.
Delimit Scope py_scope with py.
Notation "x <- c ;; k" := (bind c (λ x, k))
  (at level 100, c at next level, right associativity) : py_scope.
Local Open Scope py_scope.

Fixpoint mapM {A B} (f : A → M B) (l : list A) : M (list B) :=
  match l with
  | [] => ret []
  | x :: l' => y <- f x ;; ys <- mapM f l' ;; ret (y :: ys)
  end.

Fixpoint foldM {A B} (f : B → A → M B) (b : B) (l : list A) : M B :=
  match l with
  | [] => ret b
  | x :: l' => b' <- f b x ;; foldM f b' l'
  end.

Definition of_option {A} (e : exn) (o : option A) : M A :=
  match o with Some a => ret a | None => raise e end.

Section HostOperations.
Context `{Host}.

(** [datetime.now()] *)
Definition datetime_now : M datetime.t :=
  λ r, (inr (now_at (clock_reads r)),
        mkRuntime (S (clock_reads r)) (uuid_draws r) (llm_calls r)).

(** [str(uuid4())[:8]] *)
Definition uuid4_8 : M string :=
  λ r, (inr (uuid_at (uuid_draws r)),
        mkRuntime (clock_reads r) (S (uuid_draws r)) (llm_calls r)).

(** [(await llm_router.generate(...)).content] *)
Definition llm_generate (req : LLMRequest) : M string :=
  λ r, let r' := mkRuntime (clock_reads r) (uuid_draws r) (S (llm_calls r)) in
       match llm_at (llm_calls r) req with
       | Some content => (inr content, r')
       | None => (inl ServiceError, r')
       end.

(** How an f-string renders a value. *)
Definition format_value (v : pyval) : string :=
  match v with
  | PyStr s => s
  | _ => str_of v
  end.

End HostOperations.

(** ** Insertion-ordered dictionaries with string keys *)

Module PyDict.
Section Dict.
Context {V : Type}.

(** [d.get(k)] *)
Fixpoint get (k : string) (d : list (string * V)) : option V :=
  match d with
  | [] => None
  | (k', v) :: d' => if String.eqb k k' then Some v else get k d'
  end.

(** [k in d] *)
Definition mem (k : string) (d : list (string * V)) : bool :=
  match get k d with Some _ => true | None => false end.

(** [d[k] = v]: an existing key keeps its place, a new key goes last. *)
Fixpoint set (k : string) (v : V) (d : list (string * V)) : list (string * V) :=
  match d with
  | [] => [(k, v)]
  | (k', v') :: d' =>
      if String.eqb k k' then (k, v) :: d' else (k', v') :: set k v d'
  end.

(** The dictionary after [del d[k]]. *)
Fixpoint del (k : string) (d : list (string * V)) : list (string * V) :=
  match d with
  | [] => []
  | (k', v') :: d' => if String.eqb k k' then d' else (k', v') :: del k d'
  end.

(** [d[k]] *)
Definition getitem (k : string) (d : list (string * V)) : M V :=
  of_option KeyError (get k d).

(** [del d[k]] *)
Definition delitem (k : string) (d : list (string * V)) : M (list (string * V)) :=
  if mem k d then ret (del k d) else raise KeyError.

(** [list(d.values())] *)
Definition values (d : list (string * V)) : list V := d.*2.

Definition keys (d : list (string * V)) : list string := d.*1.

End Dict.
End PyDict.

(** [l.remove(x)]: drops the first occurrence, [ValueError] when there is none. *)
Fixpoint list_remove (x : string) (l : list string) : option (list string) :=
  match l with
  | [] => None
  | y :: l' =>
      if String.eqb x y then Some l'
      else match list_remove x l' with
           | Some l'' => Some (y :: l'')
           | None => None
           end
  end.

(** [x in l] *)
Definition list_mem (x : string) (l : list string) : bool :=
  existsb (String.eqb x) l.

(** ** Memories ([agents/memory.py]) *)

Inductive MemoryType := EVENT | CONVERSATION | OBSERVATION | EMOTION | SOCIAL | REFLECTION.

#[export] Instance MemoryType_eq_dec : EqDecision MemoryType.
Proof. solve_decision. Defined.

Definition MemoryType_all : list MemoryType :=
  [EVENT; CONVERSATION; OBSERVATION; EMOTION; SOCIAL; REFLECTION].

Definition MemoryType_index (ty : MemoryType) : nat :=
  match ty with
  | EVENT => 0 | CONVERSATION => 1 | OBSERVATION => 2
  | EMOTION => 3 | SOCIAL => 4 | REFLECTION => 5
  end.

#[export] Instance MemoryType_countable : Countable MemoryType.
Proof.
  refine (inj_countable' MemoryType_index
            (λ n, nth n MemoryType_all EVENT) _).
  intros []; reflexivity.
Defined.

Module Memory.

Record t := mk {
  id : string;
  type : MemoryType;
  content : string;
  importance : Q;
  timestamp : option datetime.t;
  created_at : datetime.t;
  related_agents : list string;
  location : option string;
  emotion : option string;
  keywords : gset string;
  access_count : Z;
  last_accessed : option datetime.t
}.

(** The words of [text] that become keywords: [_extract_keywords] applies it
    to the content of a memory, [retrieve_relevant] to the query. *)
Definition extract_keywords (text : string) : gset string :=
  let words := PyStr.split (PyStr.replace "。" " " (PyStr.replace "，" " " text)) in
  list_to_set (List.filter (λ w, (2 <=? PyStr.len w)%nat) words).

Section WithHost.
Context `{Host}.

(** The dataclass constructor as [create_and_add] calls it, followed by
    [__post_init__]: the id and the creation time come from the default
    factories, a missing game time is replaced by the wall clock, and the
    keywords are extracted from the content. *)
Definition create (type : MemoryType) (content : string) (importance : Q)
    (related_agents : list string) (location emotion : option string)
    (timestamp : option datetime.t) : M t :=
  id <- uuid4_8 ;;
  created_at <- datetime_now ;;
  timestamp' <- match timestamp with
                | Some ts => ret (Some ts)
                | None => now <- datetime_now ;; ret (Some now)
                end ;;
  ret (mk id type content importance timestamp' created_at related_agents
         location emotion (extract_keywords content) 0 None).

(** The memory after an access at the time [now]. *)
Definition accessed_at (now : datetime.t) (self : t) : t :=
  mk (id self) (type self) (content self) (importance self)
     (timestamp self) (created_at self) (related_agents self)
     (location self) (emotion self) (keywords self)
     (access_count self + 1) (Some now).

(** [Memory.access] *)
Definition access (self : t) : M t :=
  now <- datetime_now ;;
  ret (accessed_at now self).

(** [-age_hours / 24] when the clock shows [now]: the days from [now] to the
    creation of the memory. *)
Definition decay_exponent (now : datetime.t) (self : t) : Q :=
  let age_hours := (datetime.total_seconds_between now (created_at self) / 3600)%Q in
  (- age_hours / 24)%Q.

(** Whether [2.71828 ** (-age_hours / 24)] raises [OverflowError] when the
    clock shows [now]. *)
Definition overflows_at (now : datetime.t) (self : t) : bool :=
  float_pow_overflows (271828 # 100000) (decay_exponent now self).

(** The value of [get_recency_score] when the clock shows [now] and the
    power is in range. *)
Definition recency_at (now : datetime.t) (self : t) : Q :=
  py_max (1 # 100) (py_min 1 (float_pow (271828 # 100000) (decay_exponent now self))).


(** [Memory.get_relevance_score] *)
Definition get_relevance_score (self : t) (query_keywords : gset string) : Q :=
  if (size query_keywords =? 0)%nat || (size (keywords self) =? 0)%nat then 0%Q
  else
    let intersection := size (keywords self ∩ query_keywords) in
    let union := size (keywords self ∪ query_keywords) in
    if (0 <? union)%nat
    then (inject_Z (Z.of_nat intersection) / inject_Z (Z.of_nat union))%Q
    else 0%Q.

(** The value of [get_retrieval_score] with the default weights when the
    clock shows [now] and the power is in range. *)
Definition retrieval_score_at (now : datetime.t) (self : t)
    (query_keywords : option (gset string)) : Q :=
  let importance_score := (importance self / 10)%Q in
  let recency_score := recency_at now self in
  let relevance_score :=
    match query_keywords with
    | Some qk =>
        if (size qk =? 0)%nat then (1 # 2)%Q else get_relevance_score self qk
    | None => (1 # 2)%Q
    end in
  (importance_score * (4 # 10) + recency_score * (3 # 10)
   + relevance_score * (3 # 10))%Q.

(** [Memory.get_retrieval_score], called with the default weights
    0.4, 0.3 and 0.3 (no caller passes others). *)
Definition get_retrieval_score (self : t) (query_keywords : option (gset string)) : M Q :=
  now <- datetime_now ;;
  if overflows_at now self then raise OverflowError
  else ret (retrieval_score_at now self query_keywords).

End WithHost.
End Memory.

Module MemoryManager.

Record t := mk {
  max_memories : Z;
  short_term_limit : Z;
  importance_threshold : Q;
  _memories : list (string * Memory.t);          (* id -> Memory, in insertion order *)
  _by_type : gmap MemoryType (list string);
  _by_agent : gmap string (list string);
  accumulated_importance : Q;
  last_reflection_time : option datetime.t
}.

(** [MemoryManager.__init__] *)
Definition init (max_memories short_term_limit : Z) (importance_threshold : Q) : t :=
  mk max_memories short_term_limit importance_threshold
     [] (list_to_map ((λ ty, (ty, [])) <$> MemoryType_all)) ∅ 0 None.

(** [MemoryManager()] *)
Definition default : t := init 200 20 3.

(** [MemoryManager.count] *)
Definition count (self : t) : Z := Z.of_nat (length (_memories self)).

Definition with_memories (self : t) (memories : list (string * Memory.t)) : t :=
  mk (max_memories self) (short_term_limit self) (importance_threshold self)
     memories (_by_type self) (_by_agent self)
     (accumulated_importance self) (last_reflection_time self).

Section WithHost.
Context `{Host}.

(** One turn of the loop over [memory.related_agents] in [remove]. *)
Definition unindex_agent (memory_id : string)
    (by_agent : gmap string (list string)) (agent_id : string)
    : M (gmap string (list string)) :=
  match by_agent !! agent_id with
  | Some ids =>
      if list_mem memory_id ids then
        ids' <- of_option ValueError (list_remove memory_id ids) ;;
        ret (<[agent_id := ids']> by_agent)
      else ret by_agent
  | None => ret by_agent
  end.

(** [MemoryManager.remove] *)
Definition remove (memory_id : string) (self : t) : M (bool * t) :=
  if negb (PyDict.mem memory_id (_memories self)) then ret (false, self)
  else
    memory <- PyDict.getitem memory_id (_memories self) ;;
    ids <- of_option KeyError (_by_type self !! Memory.type memory) ;;
    by_type' <- (if list_mem memory_id ids then
                   ids' <- of_option ValueError (list_remove memory_id ids) ;;
                   ret (<[Memory.type memory := ids']> (_by_type self))
                 else ret (_by_type self)) ;;
    by_agent' <- foldM (unindex_agent memory_id) (_by_agent self)
                   (Memory.related_agents memory) ;;
    memories' <- PyDict.delitem memory_id (_memories self) ;;
    ret (true,
         mk (max_memories self) (short_term_limit self) (importance_threshold self)
            memories' by_type' by_agent'
            (accumulated_importance self) (last_reflection_time self)).

(** [sorted(self._memories.values(), key=lambda m: m.get_retrieval_score())]:
    the key of every memory is computed first, in dictionary order. *)
Definition sorted_by_retrieval_score (memories : list Memory.t) : M (list Memory.t) :=
  scored <- mapM (λ m, s <- Memory.get_retrieval_score m None ;; ret (s, m)) memories ;;
  ret (sorted_asc Qltb fst scored).*2.

(** [MemoryManager._forget_least_important] *)
Definition _forget_least_important (self : t) : M t :=
  match _memories self with
  | [] => ret self
  | _ =>
      sorted_memories <- sorted_by_retrieval_score (PyDict.values (_memories self)) ;;
      let to_remove := Z.max 1 (Z.of_nat (length sorted_memories) / 10) in
      foldM (λ self' memory, p <- remove (Memory.id memory) self' ;; ret p.2)
        self (slice_to to_remove sorted_memories)
  end.

(** One turn of the loop over [memory.related_agents] in [add]. *)
Definition index_agent (memory_id : string)
    (by_agent : gmap string (list string)) (agent_id : string)
    : gmap string (list string) :=
  match by_agent !! agent_id with
  | Some ids => <[agent_id := (ids ++ [memory_id])%list]> by_agent
  | None => <[agent_id := [memory_id]]> by_agent
  end.

(** [MemoryManager.add] *)
Definition add (memory : Memory.t) (self : t) : M (string * t) :=
  self1 <- (if (max_memories self <=? Z.of_nat (length (_memories self)))%Z
            then _forget_least_important self
            else ret self) ;;
  let memories' := PyDict.set (Memory.id memory) memory (_memories self1) in
  ids <- of_option KeyError (_by_type self1 !! Memory.type memory) ;;
  let by_type' := <[Memory.type memory := (ids ++ [Memory.id memory])%list]> (_by_type self1) in
  let by_agent' := foldl (index_agent (Memory.id memory)) (_by_agent self1)
                     (Memory.related_agents memory) in
  ret (Memory.id memory,
       mk (max_memories self1) (short_term_limit self1) (importance_threshold self1)
          memories' by_type' by_agent'
          (accumulated_importance self1 + Memory.importance memory)%Q
          (last_reflection_time self1)).

(** [MemoryManager.reset_accumulated_importance] *)
Definition reset_accumulated_importance (self : t) : M (Q * t) :=
  let old_value := accumulated_importance self in
  now <- datetime_now ;;
  ret (old_value,
       mk (max_memories self) (short_term_limit self) (importance_threshold self)
          (_memories self) (_by_type self) (_by_agent self) 0 (Some now)).

(** [MemoryManager.create_and_add] *)
Definition create_and_add (content : string) (memory_type : MemoryType)
    (importance : Q) (related_agents : list string)
    (location emotion : option string) (game_time : option datetime.t)
    (self : t) : M (Memory.t * t) :=
  memory <- Memory.create memory_type content importance related_agents
              location emotion game_time ;;
  p <- add memory self ;;
  ret (memory, p.2).

(** [MemoryManager.get] *)
Definition get (memory_id : string) (self : t) : M (option Memory.t * t) :=
  match PyDict.get memory_id (_memories self) with
  | Some memory =>
      memory' <- Memory.access memory ;;
      ret (Some memory',
           with_memories self (PyDict.set memory_id memory' (_memories self)))
  | None => ret (None, self)
  end.


(** [MemoryManager.retrieve_by_type] *)
Definition retrieve_by_type (memory_type : MemoryType) (limit : Z) (self : t)
    : list Memory.t :=
  let memory_ids := stdpp.option.default [] (_by_type self !! memory_type) in
  let memories := omap (λ mid, PyDict.get mid (_memories self)) memory_ids in
  slice_to limit (sorted_desc Qltb Memory.importance memories).


(** The loop of [retrieve_relevant] over [self._memories.values()]: it
    returns the list [scored_memories] and the entries of the dictionary as
    the loop leaves them.  The memory in a pair of [scored_memories] is the
    stored object itself, so it shows the access that follows the append. *)
Fixpoint score_and_access (query_keywords : gset string) (min_score : Q)
    (entries : list (string * Memory.t))
    : M (list (Memory.t * Q) * list (string * Memory.t)) :=
  match entries with
  | [] => ret ([], [])
  | (k, memory) :: rest =>
      score <- Memory.get_retrieval_score memory (Some query_keywords) ;;
      if Qle_bool min_score score then
        memory' <- Memory.access memory ;;
        p <- score_and_access query_keywords min_score rest ;;
        ret ((memory', score) :: p.1, (k, memory') :: p.2)
      else
        p <- score_and_access query_keywords min_score rest ;;
        ret (p.1, (k, memory) :: p.2)
  end.

(** [MemoryManager.retrieve_relevant] *)
Definition retrieve_relevant (query : string) (limit : Z) (min_score : Q)
    (self : t) : M (list (Memory.t * Q) * t) :=
  let query_keywords := Memory.extract_keywords query in
  p <- score_and_access query_keywords min_score (_memories self) ;;
  let scored_memories := sorted_desc Qltb snd p.1 in
  ret (slice_to limit scored_memories, with_memories self p.2).

End WithHost.

(** [MemoryManager.clear] *)
Definition clear (self : t) : t :=
  mk (max_memories self) (short_term_limit self) (importance_threshold self)
     [] (list_to_map ((λ ty, (ty, [])) <$> MemoryType_all)) ∅ 0
     (last_reflection_time self).

(** The well-formedness of a store: every memory is filed under its own id,
    no id is filed twice, and the index by type has an entry for each type.
    [__init__] establishes it and every method keeps it. *)
Fixpoint nodupb (l : list string) : bool :=
  match l with
  | [] => true
  | x :: l' => negb (list_mem x l') && nodupb l'
  end.

Definition wfb (self : t) : bool :=
  forallb (λ e : string * Memory.t, String.eqb (Memory.id e.2) e.1) (_memories self)
  && forallb (λ ty, match _by_type self !! ty with Some _ => true | None => false end)
       MemoryType_all
  && nodupb (PyDict.keys (_memories self)).

Definition wf (self : t) : Prop := wfb self = true.

(** [self._by_type.get(memory_type, [])] *)
Definition listed (self : t) (memory_type : MemoryType) : list string :=
  stdpp.option.default [] (_by_type self !! memory_type).

(** The index by type is complete: every stored memory is listed under its
    type. *)
Definition indexedb (self : t) : bool :=
  forallb (λ e : string * Memory.t, list_mem e.1 (listed self (Memory.type e.2)))
    (_memories self).

Definition indexed (self : t) : Prop := indexedb self = true.

End MemoryManager.

(** ** Plans ([agents/planning.py], data) *)

Module PlanBlock.

(** [activity] and [location] are annotated [str], but [replan_from_now]
    stores whatever the parsed reply holds there. *)
Record t := mk {
  start_time : string;
  end_time : string;
  activity : pyval;
  location : pyval
}.

(** The constructor followed by [__post_init__], whose [re.match] raises
    [TypeError] on a time that is not a string. *)
Definition create (start_time end_time activity location : pyval) : M t :=
  match start_time, end_time with
  | PyStr s, PyStr e => ret (mk s e activity location)
  | _, _ => raise TypeError
  end.

End PlanBlock.

Module DailyPlan.

Record t := mk {
  plan_date : Z;
  broad_strokes : list PlanBlock.t;
  hourly_chunks : list PlanBlock.t;
  current_tasks : list PlanBlock.t;
  created_at : datetime.t
}.

(** [block.start_time <= time_str < block.end_time], on strings. *)
Definition covers (time_str : string) (block : PlanBlock.t) : bool :=
  String.leb (PlanBlock.start_time block) time_str
  && String.ltb time_str (PlanBlock.end_time block).

(** A [for] loop that returns the first block covering [time_str]. *)
Fixpoint first_covering (time_str : string) (blocks : list PlanBlock.t)
    : option PlanBlock.t :=
  match blocks with
  | [] => None
  | block :: rest =>
      if covers time_str block then Some block else first_covering time_str rest
  end.

(** [DailyPlan.get_current_block] *)
Definition get_current_block (self : t) (current_time : datetime.t)
    : option PlanBlock.t :=
  let time_str := datetime.strftime_HM current_time in
  match first_covering time_str (current_tasks self) with
  | Some task => Some task
  | None =>
      match first_covering time_str (hourly_chunks self) with
      | Some chunk => Some chunk
      | None => first_covering time_str (broad_strokes self)
      end
  end.

(** [DailyPlan.get_remaining_plan] *)
Definition get_remaining_plan (self : t) (from_time : datetime.t)
    : list PlanBlock.t :=
  let time_str := datetime.strftime_HM from_time in
  List.filter (λ block, String.ltb time_str (PlanBlock.end_time block))
    (broad_strokes self).

Definition with_broad_strokes (self : t) (blocks : list PlanBlock.t) : t :=
  mk (plan_date self) blocks (hourly_chunks self) (current_tasks self)
     (created_at self).

Section WithHost.
Context `{Host}.

(** [DailyPlan.get_current_task] *)
Definition get_current_task (self : t) (current_time : option datetime.t)
    : M (option PlanBlock.t) :=
  match current_time with
  | Some time => ret (get_current_block self time)
  | None => now <- datetime_now ;; ret (get_current_block self now)
  end.

End WithHost.
End DailyPlan.

(** ** Agents ([agents/models.py]) *)

Inductive ActionType :=
| IDLE | MOVE | WORK | EAT | SLEEP | REST | CHAT | SHOP | EXERCISE
| ENTERTAINMENT | WAITING.

#[export] Instance ActionType_eq_dec : EqDecision ActionType.
Proof. solve_decision. Defined.

(** [action_type.value] *)
Definition ActionType_value (a : ActionType) : string :=
  match a with
  | IDLE => "idle" | MOVE => "move" | WORK => "work" | EAT => "eat"
  | SLEEP => "sleep" | REST => "rest" | CHAT => "chat" | SHOP => "shop"
  | EXERCISE => "exercise" | ENTERTAINMENT => "entertainment"
  | WAITING => "waiting"
  end.

Inductive AgentState :=
| ACTIVE | SLEEPING | BUSY | IN_CONVERSATION | PAUSED | OFFLINE.

#[export] Instance AgentState_eq_dec : EqDecision AgentState.
Proof. solve_decision. Defined.

Module Position.

Record t := mk {
  x : Q;
  y : Q;
  location_id : option string;
  location_name : option string
}.

End Position.

Module CurrentAction.

(** [target], [target_name] and [thinking] are annotated [Optional[str]];
    [execute_decision] fills them from the fields of a parsed decision. *)
Record t := mk {
  type : ActionType;
  target : pyval;
  target_name : pyval;
  started_at : datetime.t;
  duration_minutes : Z;
  progress : Q;
  thinking : pyval
}.

Definition with_thinking (self : t) (thinking : pyval) : t :=
  mk (type self) (target self) (target_name self) (started_at self)
     (duration_minutes self) (progress self) thinking.

Section WithHost.
Context `{Host}.

(** The constructor: [started_at] comes from its default factory. *)
Definition create (type : ActionType) (target target_name : pyval)
    (duration_minutes : Z) (thinking : pyval) : M t :=
  started_at <- datetime_now ;;
  ret (mk type target target_name started_at duration_minutes 0 thinking).

End WithHost.


End CurrentAction.

Module Personality.

Record t := mk {
  openness : Z;
  conscientiousness : Z;
  extraversion : Z;
  agreeableness : Z;
  neuroticism : Z
}.

End Personality.

Module Needs.

Record t := mk {
  hunger : Q;
  fatigue : Q;
  social : Q;
  entertainment : Q;
  hygiene : Q;
  comfort : Q;
  _last_update : datetime.t;
  _satisfaction_history : list (string * list datetime.t)
}.

End Needs.

Module Relationship.

Record t := mk {
  agent_id : string;
  agent_name : string;
  closeness : Z;
  trust : Z;
  interaction_count : Z;
  last_interaction : option datetime.t
}.

(** [max(0, min(100, v))] *)
Definition clamp (v : Z) : Z := Z.max 0 (Z.min 100 v).

Section WithHost.
Context `{Host}.

(** [Relationship.update_after_conversation] *)
Definition update_after_conversation (quality : Z) (self : t) : M t :=
  let closeness' := clamp (closeness self + quality) in
  let trust' := clamp (trust self + quality / 2) in
  now <- datetime_now ;;
  ret (mk (agent_id self) (agent_name self) closeness' trust'
         (interaction_count self + 1) (Some now)).

End WithHost.
End Relationship.

Module Agent.

Record t := mk {
  id : string;
  name : string;
  age : Z;
  gender : string;
  occupation : string;
  backstory : string;
  traits : list string;
  personality : Personality.t;
  needs : Needs.t;
  memory : MemoryManager.t;
  balance : Q;
  daily_income : Q;
  daily_expense : Q;
  position : Position.t;
  home_location_id : option string;
  work_location_id : option string;
  state : AgentState;
  current_action : CurrentAction.t;
  action_queue : list pyval;
  daily_plan : option DailyPlan.t;
  relationships : gmap string Relationship.t;
  conversation_partner_id : option string;
  model_name : string;
  created_at : datetime.t;
  last_decision_time : option datetime.t;
  work_hours_today : Q
}.

Definition with_memory (self : t) (memory : MemoryManager.t) : t :=
  mk (id self) (name self) (age self) (gender self) (occupation self)
     (backstory self) (traits self) (personality self) (needs self)
     memory (balance self) (daily_income self) (daily_expense self)
     (position self) (home_location_id self) (work_location_id self)
     (state self) (current_action self) (action_queue self) (daily_plan self)
     (relationships self) (conversation_partner_id self) (model_name self)
     (created_at self) (last_decision_time self) (work_hours_today self).

Definition with_money (self : t) (balance daily_expense : Q) : t :=
  mk (id self) (name self) (age self) (gender self) (occupation self)
     (backstory self) (traits self) (personality self) (needs self)
     (memory self) balance (daily_income self) daily_expense
     (position self) (home_location_id self) (work_location_id self)
     (state self) (current_action self) (action_queue self) (daily_plan self)
     (relationships self) (conversation_partner_id self) (model_name self)
     (created_at self) (last_decision_time self) (work_hours_today self).

Definition with_position (self : t) (position : Position.t) : t :=
  mk (id self) (name self) (age self) (gender self) (occupation self)
     (backstory self) (traits self) (personality self) (needs self)
     (memory self) (balance self) (daily_income self) (daily_expense self)
     position (home_location_id self) (work_location_id self)
     (state self) (current_action self) (action_queue self) (daily_plan self)
     (relationships self) (conversation_partner_id self) (model_name self)
     (created_at self) (last_decision_time self) (work_hours_today self).

Definition with_action (self : t) (state : AgentState)
    (current_action : CurrentAction.t) : t :=
  mk (id self) (name self) (age self) (gender self) (occupation self)
     (backstory self) (traits self) (personality self) (needs self)
     (memory self) (balance self) (daily_income self) (daily_expense self)
     (position self) (home_location_id self) (work_location_id self)
     state current_action (action_queue self) (daily_plan self)
     (relationships self) (conversation_partner_id self) (model_name self)
     (created_at self) (last_decision_time self) (work_hours_today self).

Definition with_daily_plan (self : t) (daily_plan : option DailyPlan.t) : t :=
  mk (id self) (name self) (age self) (gender self) (occupation self)
     (backstory self) (traits self) (personality self) (needs self)
     (memory self) (balance self) (daily_income self) (daily_expense self)
     (position self) (home_location_id self) (work_location_id self)
     (state self) (current_action self) (action_queue self) daily_plan
     (relationships self) (conversation_partner_id self) (model_name self)
     (created_at self) (last_decision_time self) (work_hours_today self).

Definition with_relationships (self : t)
    (relationships : gmap string Relationship.t) : t :=
  mk (id self) (name self) (age self) (gender self) (occupation self)
     (backstory self) (traits self) (personality self) (needs self)
     (memory self) (balance self) (daily_income self) (daily_expense self)
     (position self) (home_location_id self) (work_location_id self)
     (state self) (current_action self) (action_queue self) (daily_plan self)
     relationships (conversation_partner_id self) (model_name self)
     (created_at self) (last_decision_time self) (work_hours_today self).

Section WithHost.
Context `{Host}.

(** [Agent.update_relationship] *)
Definition update_relationship (agent_id agent_name : string)
    (closeness_delta trust_delta : Z) (self : t) : M (Relationship.t * t) :=
  let rel :=
    match relationships self !! agent_id with
    | Some rel => rel
    | None => Relationship.mk agent_id agent_name 50 50 0 None
    end in
  let closeness' := Relationship.clamp (Relationship.closeness rel + closeness_delta) in
  let trust' := Relationship.clamp (Relationship.trust rel + trust_delta) in
  now <- datetime_now ;;
  let rel' :=
    Relationship.mk (Relationship.agent_id rel) (Relationship.agent_name rel)
      closeness' trust' (Relationship.interaction_count rel + 1) (Some now) in
  ret (rel', with_relationships self (<[agent_id := rel']> (relationships self))).

(** [Agent.add_memory], called without related agents and game time (no
    modelled caller passes them). *)
Definition add_memory (content : string) (memory_type : MemoryType)
    (importance : Q) (self : t) : M (Memory.t * t) :=
  p <- MemoryManager.create_and_add content memory_type importance []
         (Position.location_name (position self)) None None (memory self) ;;
  ret (p.1, with_memory self p.2).

(** [Agent.add_memory] on a content that need not be a string: the
    constructor of [Memory] runs its default factories and then fails in
    [_extract_keywords] when the content has no [replace] method. *)
Definition add_memory_value (content : pyval) (memory_type : MemoryType)
    (importance : Q) (self : t) : M (Memory.t * t) :=
  match content with
  | PyStr s => add_memory s memory_type importance self
  | _ =>
      _ <- uuid4_8 ;; _ <- datetime_now ;; _ <- datetime_now ;;
      raise AttributeError
  end.

(** [Agent.set_action] *)
Definition set_action (action_type : ActionType) (target target_name : pyval)
    (duration_minutes : Z) (thinking : pyval) (self : t) : M t :=
  action <- CurrentAction.create action_type target target_name
              duration_minutes thinking ;;
  let state' :=
    match action_type with
    | SLEEP => SLEEPING
    | CHAT => IN_CONVERSATION
    | WORK | MOVE => BUSY
    | _ => ACTIVE
    end in
  ret (with_action self state' action).

(** [Agent.move_to] *)
Definition move_to (x y : Q) (location_id location_name : option string)
    (self : t) : t :=
  with_position self (Position.mk x y location_id location_name).

(** [Agent.spend_money] *)
Definition spend_money (amount : Q) (reason : string) (self : t) : M (bool * t) :=
  if Qltb (balance self) amount then ret (false, self)
  else
    let self1 := with_money self (float_sub (balance self) amount)
                   (float_add (daily_expense self) amount) in
    if PyStr.truthy reason then
      p <- add_memory ("消费了 " +:+ float_str amount +:+ " 元：" +:+ reason)
             EVENT 3 self1 ;;
      ret (true, p.2)
    else ret (true, self1).

End WithHost.
End Agent.

(** ** Operations on dynamically typed values that can raise *)

Module PyOps.

(** [k in v] for a string [k] *)
Definition contains (k : string) (v : pyval) : M bool :=
  match v with
  | PyDict d => ret (match Py.assoc k d with Some _ => true | None => false end)
  | PyList l =>
      ret (existsb (λ x, match x with PyStr s => String.eqb s k | _ => false end) l)
  | PyStr s => ret (PyStr.contains k s)
  | _ => raise TypeError
  end.

(** [v[k]] for a string [k] *)
Definition getitem (k : string) (v : pyval) : M pyval :=
  match v with
  | PyDict d => of_option KeyError (Py.assoc k d)
  | _ => raise TypeError
  end.

(** [v.get(k, default)] *)
Definition get (k : string) (default : pyval) (v : pyval) : M pyval :=
  match v with
  | PyDict d => ret (match Py.assoc k d with Some x => x | None => default end)
  | _ => raise AttributeError
  end.

(** The items that [for item in v] visits. *)
Definition iter (v : pyval) : M (list pyval) :=
  match v with
  | PyList l => ret l
  | PyDict d => ret (PyStr <$> d.*1)
  | PyStr s => ret (PyStr <$> PyStr.chars s)
  | _ => raise TypeError
  end.

End PyOps.

(** ** Re-planning ([agents/planning.py]) *)

Section Planning.
Context `{Host}.

Definition code_block_pattern : string := "```(?:json)?\s*([\s\S]*?)```".
Definition json_pattern : string := "\{[\s\S]*\}".

(** The two loops [for match in matches: try: return json.loads(...)]. *)
Fixpoint first_loadable (candidates : list string) : option pyval :=
  match candidates with
  | [] => None
  | c :: rest =>
      match json_loads c with
      | Some v => Some v
      | None => first_loadable rest
      end
  end.

(** [_extract_json_from_response] of [planning.py] and [reaction.py]; the
    final [return None] is [PyNone]. *)
Definition _extract_json_from_response (response : string) : pyval :=
  match json_loads response with
  | Some v => v
  | None =>
      match first_loadable (PyStr.strip <$> re_findall code_block_pattern response) with
      | Some v => v
      | None =>
          match first_loadable (re_findall json_pattern response) with
          | Some v => v
          | None => PyNone
          end
      end
  end.

(** One turn of the loop that builds the blocks of a plan from the parsed
    reply. *)
Definition block_of_item (item : pyval) : M PlanBlock.t :=
  start <- PyOps.get "start" (PyStr "00:00") item ;;
  end_ <- PyOps.get "end" (PyStr "00:00") item ;;
  activity <- PyOps.get "activity" (PyStr "") item ;;
  location <- PyOps.get "location" (PyStr "") item ;;
  PlanBlock.create start end_ activity location.

(** [PlanBlock.to_dict] *)
Definition PlanBlock_to_dict (self : PlanBlock.t) : pyval :=
  PyDict [("start", PyStr (PlanBlock.start_time self));
          ("end", PyStr (PlanBlock.end_time self));
          ("activity", PlanBlock.activity self);
          ("location", PlanBlock.location self)].

(** [PlanBlock.from_dict] *)
Definition PlanBlock_from_dict (data : pyval) : M PlanBlock.t :=
  start <- PyOps.get "start" (PyStr "00:00") data ;;
  end_ <- PyOps.get "end" (PyStr "00:00") data ;;
  activity <- PyOps.get "activity" (PyStr "") data ;;
  location <- PyOps.get "location" (PyStr "") data ;;
  PlanBlock.create start end_ activity location.

Definition describe_block (b : PlanBlock.t) : string :=
  "- " +:+ PlanBlock.start_time b +:+ "-" +:+ PlanBlock.end_time b +:+ ": "
  +:+ format_value (PlanBlock.activity b) +:+ " @ "
  +:+ format_value (PlanBlock.location b).

(** [replan_from_now] *)
Definition replan_from_now (agent : Agent.t) (current_time : datetime.t)
    (what_happened : pyval) : M (list PlanBlock.t) :=
  match Agent.daily_plan agent with
  | None => ret []
  | Some plan =>
      let remaining := DailyPlan.get_remaining_plan plan current_time in
      let remaining_text :=
        match remaining with
        | [] => "无剩余计划"
        | _ => PyStr.join PyStr.newline (describe_block <$> remaining)
        end in
      let prompt :=
        render "REPLAN_FROM_NOW"
          [("agent_name", Agent.name agent);
           ("what_happened", format_value what_happened);
           ("current_time", datetime.strftime_HM current_time);
           ("remaining_plan", remaining_text)] in
      try_except
        (content <- llm_generate
                      (mkLLMRequest prompt (Agent.model_name agent) (7 # 10) 500) ;;
         let json_data := _extract_json_from_response content in
         if Py.truthy json_data then
           has_plan <- PyOps.contains "new_plan" json_data ;;
           if has_plan : bool then
             new_plan <- PyOps.getitem "new_plan" json_data ;;
             items <- PyOps.iter new_plan ;;
             mapM block_of_item items
           else ret []
         else ret [])
        (ret [])
  end.

End Planning.

(** ** Perception ([agents/perception.py], data) *)

Module Perception.

Record t := mk {
  current_location : string;
  current_location_id : option string;
  agents_nearby : list string;
  agents_nearby_ids : list string;
  new_events : list string;
  being_addressed : bool;
  addressed_by : option string;
  notable_changes : list string;
  timestamp : datetime.t
}.

Definition nonempty {A} (l : list A) : bool :=
  match l with [] => false | _ => true end.

(** [Perception.is_empty] *)
Definition is_empty (self : t) : bool :=
  negb (nonempty (agents_nearby self))
  && negb (nonempty (new_events self))
  && negb (being_addressed self)
  && negb (nonempty (notable_changes self)).

(** [Perception.to_description] *)
Definition to_description (self : t) : string :=
  let lines1 :=
    if PyStr.truthy (current_location self)
    then ["当前位置：" +:+ current_location self] else [] in
  let lines2 :=
    match agents_nearby self with
    | [] => ["附近没有其他人"]
    | [one] => ["附近有：" +:+ one]
    | several => ["附近有：" +:+ PyStr.join ", " several]
    end in
  let lines3 :=
    if being_addressed self && PyStr.truthy_optional (addressed_by self)
    then ["⚠️ " +:+ PyStr.format_optional (addressed_by self) +:+ " 在等待你的回应"]
    else [] in
  let lines4 :=
    match new_events self with
    | [] => []
    | events => "刚刚发生的事：" :: ((λ e, "  - " +:+ e) <$> events)
    end in
  let lines5 :=
    match notable_changes self with
    | [] => []
    | changes => "注意到的变化：" :: ((λ c, "  - " +:+ c) <$> changes)
    end in
  PyStr.join PyStr.newline (lines1 ++ lines2 ++ lines3 ++ lines4 ++ lines5)%list.

End Perception.

(** ** Reaction ([agents/reaction.py]) *)

Inductive ReactionType := CONTINUE | INTERRUPT | NOTE.

#[export] Instance ReactionType_eq_dec : EqDecision ReactionType.
Proof. solve_decision. Defined.

Definition ReactionType_value (ty : ReactionType) : string :=
  match ty with
  | CONTINUE => "continue" | INTERRUPT => "interrupt" | NOTE => "note"
  end.

Module ReactionDecision.

(** [should_react], [reaction] and [reason] are annotated [bool],
    [Optional[str]] and [str]; [should_react] fills them from the parsed
    reply of the inference service. *)
Record t := mk {
  should_react : pyval;
  reaction_type : ReactionType;
  reaction : pyval;
  reason : pyval
}.

End ReactionDecision.

(** The third argument of [should_react]: annotated [Optional[PlanBlock]],
    while the scheduler passes a description of the current task. *)
Inductive plan_argument :=
| NoPlan
| Block (block : PlanBlock.t)
| Description (text : string).

Section Reaction.
Context `{Host}.

(** [should_react] *)
Definition should_react (agent : Agent.t) (perception : Perception.t)
    (current_plan : plan_argument) : M ReactionDecision.t :=
  if Perception.is_empty perception then
    ret (ReactionDecision.mk (PyBool false) CONTINUE PyNone
           (PyStr "没有需要反应的事情"))
  else if Perception.being_addressed perception then
    ret (ReactionDecision.mk (PyBool true) INTERRUPT
           (PyStr ("回应" +:+ PyStr.format_optional (Perception.addressed_by perception)))
           (PyStr (PyStr.format_optional (Perception.addressed_by perception)
                   +:+ "在等待回应")))
  else
    let action := Agent.current_action agent in
    let current_activity :=
      if Py.truthy (CurrentAction.thinking action)
      then format_value (CurrentAction.thinking action)
      else ActionType_value (CurrentAction.type action) in
    let describe (b : PlanBlock.t) :=
      PlanBlock.start_time b +:+ "-" +:+ PlanBlock.end_time b +:+ ": "
      +:+ format_value (PlanBlock.activity b) in
    plan_text <-
      match current_plan with
      | Block b => ret (describe b)
      | Description (String _ _) => raise AttributeError
      | _ =>
          match Agent.daily_plan agent with
          | Some plan =>
              now <- datetime_now ;;
              match DailyPlan.get_current_block plan now with
              | Some current_block => ret (describe current_block)
              | None => ret "无特定计划"
              end
          | None => ret "无特定计划"
          end
      end ;;
    let prompt :=
      render "SHOULD_REACT"
        [("agent_name", Agent.name agent);
         ("current_activity", current_activity);
         ("perception", Perception.to_description perception);
         ("current_plan", plan_text)] in
    try_except
      (content <- llm_generate
                    (mkLLMRequest prompt (Agent.model_name agent) (5 # 10) 300) ;;
       let json_data := _extract_json_from_response content in
       if Py.truthy json_data then
         should_react_value <- PyOps.get "should_react" (PyBool false) json_data ;;
         reaction_type_value <- PyOps.get "reaction_type" (PyStr "continue") json_data ;;
         reaction_type_str <- match reaction_type_value with
                              | PyStr s => ret (str_lower s)
                              | _ => raise AttributeError
                              end ;;
         let reaction_type :=
           if String.eqb reaction_type_str "interrupt" then INTERRUPT
           else if String.eqb reaction_type_str "note" then NOTE
           else CONTINUE in
         reaction <- PyOps.get "reaction" PyNone json_data ;;
         reason <- PyOps.get "reason" (PyStr "") json_data ;;
         ret (ReactionDecision.mk should_react_value reaction_type reaction reason)
       else
         ret (ReactionDecision.mk (PyBool false) CONTINUE PyNone
                (PyStr "决策过程出错，默认继续")))
      (ret (ReactionDecision.mk (PyBool false) CONTINUE PyNone
              (PyStr "决策过程出错，默认继续"))).

(** [execute_reaction] *)
Definition execute_reaction (agent : Agent.t) (decision : ReactionDecision.t)
    : M (bool * Agent.t) :=
  if negb (Py.truthy (ReactionDecision.should_react decision)) then ret (true, agent)
  else
    match ReactionDecision.reaction_type decision with
    | NOTE =>
        if Py.truthy (ReactionDecision.reaction decision) then
          p <- Agent.add_memory
                 ("注意到：" +:+ format_value (ReactionDecision.reaction decision))
                 OBSERVATION 4 agent ;;
          ret (true, p.2)
        else ret (true, agent)
    | INTERRUPT =>
        p1 <- Agent.add_memory
                ("中断了" +:+ ActionType_value
                                (CurrentAction.type (Agent.current_action agent))
                 +:+ "：" +:+ format_value (ReactionDecision.reason decision))
                EVENT 5 agent ;;
        let agent1 := p1.2 in
        agent2 <- (if Py.truthy (ReactionDecision.reaction decision) then
                     p2 <- Agent.add_memory
                             ("反应：" +:+ format_value (ReactionDecision.reaction decision))
                             EVENT 5 agent1 ;;
                     ret p2.2
                   else ret agent1) ;;
        match Agent.daily_plan agent2 with
        | Some plan =>
            if Py.truthy (ReactionDecision.reaction decision) then
              now <- datetime_now ;;
              new_blocks <- replan_from_now agent2 now
                              (ReactionDecision.reaction decision) ;;
              match new_blocks with
              | [] => ret (true, agent2)
              | _ =>
                  ret (true,
                       Agent.with_daily_plan agent2
                         (Some (DailyPlan.with_broad_strokes plan new_blocks)))
              end
            else ret (true, agent2)
        | None => ret (true, agent2)
        end
    | CONTINUE => ret (true, agent)
    end.

End Reaction.

(** ** Reflection ([agents/reflection.py]) *)

Module ReflectionResult.

Record t := mk {
  questions : list string;
  insights : list string;
  memories_created : Z
}.

End ReflectionResult.

Module ReflectionEngine.

Record t := mk { importance_threshold : Q }.

(** [ReflectionEngine.should_reflect] *)
Definition should_reflect (self : t) (agent : Agent.t) : bool :=
  Qle_bool (importance_threshold self)
    (MemoryManager.accumulated_importance (Agent.memory agent)).

Section WithHost.
Context `{Host}.






End WithHost.
End ReflectionEngine.

(** The global [reflection_engine]. *)
Definition reflection_engine : ReflectionEngine.t := ReflectionEngine.mk 150.

Section Reflection.
Context `{Host}.


End Reflection.

(** ** Locations ([core/locations.py]) *)

Module LocationType.
Inductive t :=
| APARTMENT | HOUSE | CAFE | RESTAURANT | SUPERMARKET | MALL | OFFICE
| FACTORY | SCHOOL | HOSPITAL | PARK | PLAZA | LIBRARY | BANK | GYM | BARBERSHOP.
End LocationType.

Module ActivityType.
Inductive t :=
| SLEEP | EAT | WORK | SHOP | EXERCISE | RELAX | STUDY | SOCIALIZE
| HEALTHCARE | FINANCE.
End ActivityType.

Module OpeningHours.
Record t := mk {
  open_hour : Z;
  close_hour : Z;
  open_days : gset Z
}.

(** [OpeningHours.is_open] *)
Definition is_open (hour weekday : Z) (self : t) : bool :=
  if negb (bool_decide (weekday ∈ open_days self)) then false
  else if (open_hour self <=? close_hour self)%Z then
    (open_hour self <=? hour)%Z && (hour <? close_hour self)%Z
  else (open_hour self <=? hour)%Z || (hour <? close_hour self)%Z.

End OpeningHours.

Module Location.

Record t := mk {
  id : string;
  name : string;
  type : LocationType.t;
  x : Q;
  y : Q;
  width : Z;
  height : Z;
  capacity : Z;
  activities : list ActivityType.t;
  opening_hours : OpeningHours.t;
  description : string;
  owner_agent_id : option string;
  current_agents : gset string
}.

(** [Location.is_full] *)
Definition is_full (self : t) : bool :=
  (capacity self <=? Z.of_nat (size (current_agents self)))%Z.

Definition with_agents (self : t) (current_agents : gset string) : t :=
  mk (id self) (name self) (type self) (x self) (y self) (width self)
     (height self) (capacity self) (activities self) (opening_hours self)
     (description self) (owner_agent_id self) current_agents.

(** [Location.contains_point] *)
Definition contains_point (px py : Q) (self : t) : bool :=
  Qle_bool (x self) px && Qltb px (x self + inject_Z (width self))
  && Qle_bool (y self) py && Qltb py (y self + inject_Z (height self)).

(** [Location.enter] *)
Definition enter (agent_id : string) (self : t) : bool * t :=
  if is_full self then (false, self)
  else (true, with_agents self (current_agents self ∪ {[agent_id]})).

(** [Location.leave] *)
Definition leave (agent_id : string) (self : t) : t :=
  with_agents self (current_agents self ∖ {[agent_id]}).

End Location.

(** A visit to a location or a departure from it, and a sequence of them. *)
Inductive location_op :=
| OpEnter (agent_id : string)
| OpLeave (agent_id : string).

Definition run_location_op (self : Location.t) (op : location_op) : Location.t :=
  match op with
  | OpEnter agent_id => (Location.enter agent_id self).2
  | OpLeave agent_id => Location.leave agent_id self
  end.

Definition run_location_ops (ops : list location_op) (self : Location.t) : Location.t :=
  foldl run_location_op self ops.

Module LocationManager.

Record t := mk {
  locations : list (string * Location.t);         (* id -> Location *)
  _location_grid : gmap (Z * Z) (list string)
}.

(** [LocationManager.get_location] *)
Definition get_location (location_id : string) (self : t) : option Location.t :=
  PyDict.get location_id (locations self).

(** [LocationManager.get_by_name]: an exact match first, then a name that
    contains the argument or is contained in it.  [name in loc.name] raises
    [TypeError] when [name] is not a string. *)
Definition get_by_name (name : pyval) (self : t) : M (option Location.t) :=
  match name with
  | PyStr s =>
      match List.find (λ loc, String.eqb (Location.name loc) s)
              (PyDict.values (locations self)) with
      | Some loc => ret (Some loc)
      | None =>
          ret (List.find
                 (λ loc, PyStr.contains s (Location.name loc)
                         || PyStr.contains (Location.name loc) s)
                 (PyDict.values (locations self)))
      end
  | _ =>
      match locations self with
      | [] => ret None
      | _ => raise TypeError
      end
  end.

(** [LocationManager.get_location_at]: the candidates of the grid cell
    first, then every location. *)
Definition get_location_at (x y : Q) (self : t) : option Location.t :=
  let grid_x := Qfloor (x / 10) in
  let grid_y := Qfloor (y / 10) in
  let candidates := default [] (_location_grid self !! (grid_x, grid_y)) in
  match List.find (Location.contains_point x y)
          (omap (λ loc_id, PyDict.get loc_id (locations self)) candidates) with
  | Some loc => Some loc
  | None => List.find (Location.contains_point x y) (PyDict.values (locations self))
  end.

(** [LocationManager.enter]: [Location] has no method [agent_enter]. *)
Definition enter (agent_id location_id : string) (self : t) : M bool :=
  match get_location location_id self with
  | None => ret false
  | Some _ => raise AttributeError
  end.

(** [LocationManager.leave]: [Location] has no method [agent_leave]. *)
Definition leave (agent_id location_id : string) (self : t) : M bool :=
  match get_location location_id self with
  | None => ret false
  | Some _ => raise AttributeError
  end.

End LocationManager.

(** ** The agent directory ([agents/manager.py]) and the world *)

Module AgentManager.

(** [_agents] maps ids to the agent objects themselves.  The scheduler passes
    those very objects around, so the agent travels as a record of its own
    and [_agents] holds the ids under which agents are registered. *)
Record t := mk {
  _agents : gset string;
  _by_location : gmap string (gset string);
  _by_name : gmap string string
}.

(** [AgentManager._add_to_location] *)
Definition _add_to_location (agent_id location_id : string) (self : t) : t :=
  mk (_agents self)
     (<[location_id := default ∅ (_by_location self !! location_id) ∪ {[agent_id]}]>
        (_by_location self))
     (_by_name self).

(** [AgentManager._remove_from_location] *)
Definition _remove_from_location (agent_id location_id : string) (self : t) : t :=
  match _by_location self !! location_id with
  | Some ids =>
      mk (_agents self) (<[location_id := ids ∖ {[agent_id]}]> (_by_location self))
         (_by_name self)
  | None => self
  end.

End AgentManager.

(** The process-wide objects that execution reads and writes; [event_bus]
    lists the events handed to [event_bus.publish_sync], oldest first. *)
Record World := mkWorld {
  location_manager : LocationManager.t;
  agent_manager : AgentManager.t;
  event_bus : list (string * list (string * pyval))
}.

Definition publish_sync (event_type : string) (data : list (string * pyval))
    (w : World) : World :=
  mkWorld (location_manager w) (agent_manager w)
    (event_bus w ++ [(event_type, data)])%list.

Module EventType.

(** The values of the enumeration [EventType] ([core/events.py]). *)
Definition values : list string :=
  ["agent.moved"; "agent.decided"; "agent.action"; "agent.created"; "agent.left";
   "agent.state_changed";
   "conversation.started"; "conversation.message"; "conversation.ended";
   "chat.requested";
   "world.tick"; "world.time_changed"; "world.broadcast"; "world.rule_changed";
   "world.event";
   "economy.transaction";
   "system.error"; "system.warning"].

End EventType.



Section Manager.
Context `{Host}.

(** [AgentManager.move_agent], for the registered object [agent] and the id
    [Agent.id agent].  The arguments of [location_manager.leave] and
    [location_manager.enter] are passed in the order of the source
    (location first). *)
Definition move_agent (agent : Agent.t) (new_location_id : string) (w : World)
    : M (bool * Agent.t * World) :=
  let agent_id := Agent.id agent in
  if negb (bool_decide (agent_id ∈ AgentManager._agents (agent_manager w)))
  then ret (false, agent, w)
  else
    match LocationManager.get_location new_location_id (location_manager w) with
    | None => ret (false, agent, w)
    | Some location =>
        if Location.is_full location then ret (false, agent, w)
        else
          let old_location_id := Position.location_id (Agent.position agent) in
          am1 <- (if PyStr.truthy_optional old_location_id then
                    let old := PyStr.format_optional old_location_id in
                    let am := AgentManager._remove_from_location agent_id old
                                (agent_manager w) in
                    _ <- LocationManager.leave old agent_id (location_manager w) ;;
                    ret am
                  else ret (agent_manager w)) ;;
          let am2 := AgentManager._add_to_location agent_id new_location_id am1 in
          _ <- LocationManager.enter new_location_id agent_id (location_manager w) ;;
          let agent' :=
            Agent.move_to (Location.x location) (Location.y location)
              (Some (Location.id location)) (Some (Location.name location)) agent in
          let w' :=
            publish_sync "agent.moved"
              [("agent_id", PyStr agent_id);
               ("from_location", Py.of_optional old_location_id);
               ("to_location", PyStr new_location_id)]
              (mkWorld (location_manager w) am2 (event_bus w)) in
          ret (true, agent', w')
    end.



End Manager.

(** ** Decisions and the scheduler ([agents/decision.py]) *)

Module Decision.

(** [thinking], [target] and [reason] come from the parsed reply of the
    inference service ([Decision.from_json]). *)
Record t := mk {
  thinking : pyval;
  action : ActionType;
  target : pyval;
  reason : pyval;
  raw_response : string
}.

End Decision.

Section DecisionExecution.
Context `{Host}.

(** [a or b] on values *)
Definition py_or (a b : pyval) : pyval := if Py.truthy a then a else b.

(** [execute_decision] *)
Definition execute_decision (agent : Agent.t) (decision : Decision.t) (w : World)
    : M (bool * Agent.t * World) :=
  let action := Decision.action decision in
  let target := Decision.target decision in
  let thinking := Decision.thinking decision in
  let agent0 :=
    Agent.with_action agent (Agent.state agent)
      (CurrentAction.with_thinking (Agent.current_action agent) thinking) in
  match action with
  | MOVE =>
      location <- (if Py.truthy target
                   then LocationManager.get_by_name target (location_manager w)
                   else ret None) ;;
      match location with
      | Some location =>
          moved <- move_agent agent0 (Location.id location) w ;;
          let '(success, agent1, w1) := moved in
          if success : bool then
            agent2 <- Agent.set_action MOVE (PyStr (Location.id location))
                        (PyStr (Location.name location)) 5 thinking agent1 ;;
            p <- Agent.add_memory ("前往" +:+ Location.name location) EVENT 2 agent2 ;;
            ret (true, p.2, w1)
          else ret (false, agent1, w1)
      | None => ret (false, agent0, w)
      end
  | WORK =>
      let position := Agent.position agent0 in
      agent1 <- Agent.set_action WORK
                  (Py.of_optional (Position.location_id position))
                  (Py.of_optional (Position.location_name position))
                  60 thinking agent0 ;;
      let place :=
        if PyStr.truthy_optional (Position.location_name (Agent.position agent1))
        then PyStr.format_optional (Position.location_name (Agent.position agent1))
        else "这里" in
      p <- Agent.add_memory ("在" +:+ place +:+ "工作") EVENT 4 agent1 ;;
      ret (true, p.2, w)
  | EAT =>
      agent1 <- Agent.set_action EAT PyNone (py_or target (PyStr "吃东西"))
                  30 thinking agent0 ;;
      spent <- Agent.spend_money (float_div (daily_expense_base settings) 3) "吃饭"
                 agent1 ;;
      p <- Agent.add_memory
             ("吃了" +:+ format_value (py_or target (PyStr "一顿饭"))) EVENT 2 spent.2 ;;
      ret (true, p.2, w)
  | SLEEP =>
      agent1 <- Agent.set_action SLEEP PyNone PyNone 480 thinking agent0 ;;
      p <- Agent.add_memory "去睡觉了" EVENT 2 agent1 ;;
      ret (true, p.2, w)
  | REST =>
      agent1 <- Agent.set_action REST PyNone PyNone 30 thinking agent0 ;;
      ret (true, agent1, w)
  | CHAT =>
      agent1 <- Agent.set_action CHAT target target 15 thinking agent0 ;;
      ret (true, agent1,
           publish_sync "chat.requested"
             [("initiator_id", PyStr (Agent.id agent1)); ("target_name", target)] w)
  | SHOP =>
      agent1 <- Agent.set_action SHOP PyNone target 30 thinking agent0 ;;
      let amount := float_mul (daily_expense_base settings) (2 # 10) in
      spent <- Agent.spend_money amount
                 ("购物：" +:+ format_value (py_or target (PyStr "日用品"))) agent1 ;;
      p <- Agent.add_memory
             ("买了" +:+ format_value (py_or target (PyStr "一些东西"))) EVENT 3 spent.2 ;;
      ret (true, p.2, w)
  | ENTERTAINMENT =>
      agent1 <- Agent.set_action ENTERTAINMENT PyNone target 60 thinking agent0 ;;
      p <- Agent.add_memory
             ("享受了" +:+ format_value (py_or target (PyStr "娱乐活动"))) EVENT 3 agent1 ;;
      ret (true, p.2, w)
  | _ =>
      agent1 <- Agent.set_action IDLE PyNone PyNone 10 thinking agent0 ;;
      ret (true, agent1, w)
  end.

End DecisionExecution.

Module DecisionScheduler.
Section WithHost.
Context `{Host}.

(** How the reaction step of [_process_agent] ends: with the [return] that
    follows an interrupt, or by going on to reflection and the decision. *)
Inductive outcome := Returned | GoesOn.

(** The statement [if reaction_decision.should_react: ...] of
    [_process_agent], for the decision that [should_react] has returned.
    The activity log is an external sink whose failures are swallowed; it is
    left out. *)
Definition act_on_reaction (agent : Agent.t)
    (reaction_decision : ReactionDecision.t) (w : World)
    : M (outcome * Agent.t * World) :=
  if Py.truthy (ReactionDecision.should_react reaction_decision) then
    match ReactionDecision.reaction_type reaction_decision with
    | INTERRUPT =>
        p <- execute_reaction agent reaction_decision ;;
        ret (Returned, p.2,
             publish_sync "agent.reacted"
               [("agent_id", PyStr (Agent.id agent));
                ("reaction_type", PyStr (ReactionType_value INTERRUPT));
                ("reaction", ReactionDecision.reaction reaction_decision);
                ("reason", ReactionDecision.reason reaction_decision)] w)
    | NOTE =>
        if Py.truthy (ReactionDecision.reaction reaction_decision) then
          p <- Agent.add_memory_value (ReactionDecision.reaction reaction_decision)
                 EVENT 3 agent ;;
          ret (GoesOn, p.2, w)
        else ret (GoesOn, agent, w)
    | CONTINUE => ret (GoesOn, agent, w)
    end
  else ret (GoesOn, agent, w).

(** "Phase 6 Step 2" of [DecisionScheduler._process_agent]: from the lookup
    of the current task to the end of the statement above, for a perception
    that [perceive_environment] has returned.  An exception that this step
    raises is caught by the [except] clause that closes [_process_agent]. *)
Definition _process_agent_reaction (agent : Agent.t) (perception : Perception.t)
    (w : World) : M (outcome * Agent.t * World) :=
  current_plan_desc <-
    match Agent.daily_plan agent with
    | Some plan =>
        current_task <- DailyPlan.get_current_task plan None ;;
        match current_task with
        | Some task =>
            ret (Description
                   (format_value (PlanBlock.activity task) +:+ " at "
                    +:+ format_value (PlanBlock.location task)))
        | None => ret NoPlan
        end
    | None => ret NoPlan
    end ;;
  reaction_decision <- should_react agent perception current_plan_desc ;;
  act_on_reaction agent reaction_decision w.

End WithHost.
End DecisionScheduler.

(** [range(0, stop, step)]: [ValueError] for a step of 0, empty for a
    negative step and a [stop] that is not negative. *)
Definition range_from_0 (stop step : Z) : M (list Z) :=
  if (step =? 0)%Z then raise ValueError
  else if (step <? 0)%Z then
    ret ((λ k, (- Z.of_nat k * - step)%Z)
           <$> seq 0 (Z.to_nat ((- stop + - step - 1) / - step)))
  else
    ret ((λ k, (Z.of_nat k * step)%Z) <$> seq 0 (Z.to_nat ((stop + step - 1) / step))).

(** [l[i:j]] *)
Definition slice {A} (i j : Z) (l : list A) : list A :=
  let n := Z.of_nat (length l) in
  let clip k := if (k <? 0)%Z then Z.max (k + n) 0 else Z.min k n in
  take (Z.to_nat (clip j - clip i)) (drop (Z.to_nat (clip i)) l).

(** The batches of [DecisionScheduler._run_loop]: the values of [batch] in
    [if agents: for i in range(0, len(agents), self.batch_size):
    batch = agents[i:i + self.batch_size]]. *)
Definition batches {A} (batch_size : Z) (agents : list A) : M (list (list A)) :=
  match agents with
  | [] => ret []
  | _ =>
      starts <- range_from_0 (Z.of_nat (length agents)) batch_size ;;
      ret ((λ i, slice i (i + batch_size) agents) <$> starts)
  end.

(** ** Sequences of store operations *)

Inductive store_op :=
| OpAdd (memory : Memory.t)
| OpRemove (memory_id : string).

Section StoreRuns.
Context `{Host}.

Definition run_op (self : MemoryManager.t) (op : store_op) : M MemoryManager.t :=
  match op with
  | OpAdd memory => p <- MemoryManager.add memory self ;; ret p.2
  | OpRemove memory_id => p <- MemoryManager.remove memory_id self ;; ret p.2
  end.

Definition run_ops (ops : list store_op) (self : MemoryManager.t) : M MemoryManager.t :=
  foldM run_op self ops.


End StoreRuns.

(** The importances that a sequence of operations adds, in order. *)
Definition added_importances (ops : list store_op) : list Q :=
  omap (λ op, match op with
              | OpAdd memory => Some (Memory.importance memory)
              | OpRemove _ => None
              end) ops.

(** What the design document says [get_current_block] returns: the first
    block, in the order current tasks, hourly chunks, broad strokes, whose
    interval contains the time. *)
Definition first_block_containing (plan : DailyPlan.t) (time : datetime.t)
    : option PlanBlock.t :=
  List.find (DailyPlan.covers (datetime.strftime_HM time))
    (DailyPlan.current_tasks plan ++ DailyPlan.hourly_chunks plan
     ++ DailyPlan.broad_strokes plan)%list.

(** The reply to the [n]-th inference call is of no use to a caller that
    needs a parsed value: the call raises, or nothing can be extracted from
    its content. *)
Definition reply_unusable `{Host} (n : nat) : Prop :=
  ∀ req, match llm_at n req with
         | None => True
         | Some content => _extract_json_from_response content = PyNone
         end.

(** [execute_decision] refuses a move to [target]: the name resolves to no
    location, or the location it resolves to is full. *)
Definition move_refused `{Host} (target : pyval) (w : World) : Prop :=
  Py.truthy target = false
  ∨ LocationManager.get_by_name target (location_manager w) = ret None
  ∨ ∃ found location,
      LocationManager.get_by_name target (location_manager w) = ret (Some found)
      ∧ LocationManager.get_location (Location.id found) (location_manager w)
        = Some location
      ∧ Location.is_full location = true.

(** ** The stores that the program can build *)

(** A store is built by [__init__] and changed by its methods only. *)
Inductive reachable `{Host} : MemoryManager.t → Prop :=
| reachable_init max_memories short_term_limit importance_threshold :
    reachable (MemoryManager.init max_memories short_term_limit importance_threshold)
| reachable_add self memory r memory_id self' r' :
    reachable self →
    MemoryManager.add memory self r = (inr (memory_id, self'), r') →
    reachable self'
| reachable_create_and_add self content memory_type importance related_agents
    location emotion game_time r memory self' r' :
    reachable self →
    MemoryManager.create_and_add content memory_type importance related_agents
      location emotion game_time self r = (inr (memory, self'), r') →
    reachable self'
| reachable_remove self memory_id r removed self' r' :
    reachable self →
    MemoryManager.remove memory_id self r = (inr (removed, self'), r') →
    reachable self'
| reachable_get self memory_id r found self' r' :
    reachable self →
    MemoryManager.get memory_id self r = (inr (found, self'), r') →
    reachable self'
| reachable_retrieve_relevant self query limit min_score r result self' r' :
    reachable self →
    MemoryManager.retrieve_relevant query limit min_score self r
    = (inr (result, self'), r') →
    reachable self'
| reachable_reset self r old self' r' :
    reachable self →
    MemoryManager.reset_accumulated_importance self r = (inr (old, self'), r') →
    reachable self'
| reachable_clear self :
    reachable self → reachable (MemoryManager.clear self).

(** ** Frames for the methods of the store *)

(** What no method but [__init__] changes. *)
Definition same_limits (self self' : MemoryManager.t) : Prop :=
  MemoryManager.max_memories self' = MemoryManager.max_memories self
  ∧ MemoryManager.short_term_limit self' = MemoryManager.short_term_limit self
  ∧ MemoryManager.importance_threshold self' = MemoryManager.importance_threshold self.

(** The store keeps its limits, its counter and the time of its last
    reflection. *)
Definition same_counters (self self' : MemoryManager.t) : Prop :=
  same_limits self self'
  ∧ MemoryManager.accumulated_importance self' = MemoryManager.accumulated_importance self
  ∧ MemoryManager.last_reflection_time self' = MemoryManager.last_reflection_time self.

(** The clock may have been read; no id has been drawn and no inference call
    has been made. *)
Definition only_clock (r r' : Runtime) : Prop :=
  (clock_reads r ≤ clock_reads r')%nat
  ∧ uuid_draws r' = uuid_draws r ∧ llm_calls r' = llm_calls r.

(** A sequence of [update_relationship] calls for one other agent, with the
    pairs of closeness and trust changes of the calls. *)
Definition update_relationship_each `{Host} (agent_id agent_name : string)
    (deltas : list (Z * Z)) (self : Agent.t) : M Agent.t :=
  foldM (λ agent d, p <- Agent.update_relationship agent_id agent_name d.1 d.2 agent ;;
                    ret p.2)
    self deltas.

(** The agent differs from [agent] in its memory and its daily plan at
    most. *)
Definition only_memory_and_plan (agent agent' : Agent.t) : Prop :=
  agent' = Agent.with_daily_plan (Agent.with_memory agent (Agent.memory agent'))
             (Agent.daily_plan agent').


(** ** Hosts whose power stays in range *)

(** No power of the host is out of range. *)
Class InRange `{Host} : Prop :=
  in_range : ∀ x y, float_pow_overflows x y = false.

(** The host with the power of which nothing is out of range: a computation
    of the host that meets no [OverflowError] runs as it does there. *)
Definition in_range_host `{Host} : Host := {|
  now_at := now_at;
  uuid_at := uuid_at;
  llm_at := llm_at;
  float_pow := float_pow;
  float_pow_overflows := λ _ _, false;
  float_add := float_add;
  float_sub := float_sub;
  float_mul := float_mul;
  float_div := float_div;
  json_loads := json_loads;
  re_findall := re_findall;
  render := render;
  str_lower := str_lower;
  str_of := str_of;
  float_str := float_str;
  settings := settings
|}.

(** The computation [c] runs as [c'] does unless it raises
    [OverflowError]. *)
Definition runs_as {A} (c c' : M A) : Prop :=
  ∀ r, overflows (c r) ∨ c r = c' r.

(** What is known of [2.71828 ** y] on IEEE doubles: the result is in range
    for an exponent up to 709 and out of range for one from 710 on. *)
Definition ieee_pow `{Host} : Prop :=
  ∀ y, ((y <= 709)%Q → float_pow_overflows (271828 # 100000) y = false)
       ∧ ((710 <= y)%Q → float_pow_overflows (271828 # 100000) y = true).

(** Scoring the memories of the store raises at no reading of the clock from
    the [n]-th on. *)
Definition scorable_from `{Host} (n : nat) (self : MemoryManager.t) : Prop :=
  ∀ (memory : Memory.t) (n' : nat),
    memory ∈ PyDict.values (MemoryManager._memories self) →
    (n ≤ n')%nat → Memory.overflows_at (now_at n') memory = false.

(** A memory created at a reading of the clock from the [n]-th on can be
    scored at that reading and at every later one. *)
Definition clock_scorable_from `{Host} (n : nat) : Prop :=
  ∀ (memory : Memory.t) (k n' : nat),
    (n ≤ k)%nat → (k ≤ n')%nat → Memory.created_at memory = now_at k →
    Memory.overflows_at (now_at n') memory = false.

(** From the [n]-th reading of the clock on, no score of a stored memory or
    of a memory created from then on is out of range. *)
Definition calm_from `{Host} (n : nat) (self : MemoryManager.t) : Prop :=
  scorable_from n self ∧ clock_scorable_from n.

(** From a runtime that satisfies [pre], [c] runs as [c'], and a result of
    [c'] satisfies [post]. *)
Definition agrees {A} (c c' : M A) (pre : Runtime → Prop)
    (post : A → Runtime → Prop) : Prop :=
  ∀ r, pre r → c r = c' r ∧ ∀ a r', c' r = (inr a, r') → post a r'.

(** ** Sample objects for the examples *)

Module Sample.

(** A host whose clock advances by one second per reading, whose ids are
    [m0], [m1], ..., and whose inference service answers [llm].  Its
    [float_pow] is the first-order value of [e ** y] near [y = 0], which is
    where the examples use it, and is out of range from the exponent 710
    on; its sums, differences, products and quotients are exact; nothing
    can be extracted from a reply. *)
Definition host_with (llm : nat → LLMRequest → option string) : Host := {|
  now_at := λ n, datetime.mk 739000 8 0 (Z.of_nat n) 0;
  uuid_at := λ n, "m" +:+ pretty n;
  llm_at := llm;
  float_pow := λ _ y, (1 + y)%Q;
  float_pow_overflows := λ _ y, Qle_bool 710 y;
  float_add := Qplus;
  float_sub := Qminus;
  float_mul := Qmult;
  float_div := Qdiv;
  json_loads := λ _, None;
  re_findall := λ _ _, [];
  render := λ name _, name;
  str_lower := λ s, s;
  str_of := λ _, "?";
  float_str := λ _, "?";
  settings := mkSettings 185 150
|}.

(** The inference service is unreachable. *)
Definition offline : Host := host_with (λ _ _, None).

(** The inference service answers every call with two lines, the first of
    which is a question. *)
Definition answering : Host :=
  host_with (λ _ _, Some ("What does 张三 care about?" +:+ PyStr.newline +:+ "张三 likes coffee")).

Definition r0 : Runtime := mkRuntime 0 0 0.

Definition t0 : datetime.t := datetime.mk 739000 7 59 0 0.

(** [Memory(id=id, content=content, importance=importance)] created at [t0]. *)
Definition memory (id content : string) (importance : Q) : Memory.t :=
  Memory.mk id EVENT content importance (Some t0) t0 [] None None
    (Memory.extract_keywords content) 0 None.

(** The memories [记忆 0], ..., [记忆 (n-1)] with ids [a0], ..., [a(n-1)]. *)
Definition memories (n : nat) : list Memory.t :=
  (λ i, memory ("a" +:+ pretty i) ("记忆 " +:+ pretty i) 5) <$> seq 0 n.

(** A store of two memories, filed as [add] files them. *)
Definition store2 : MemoryManager.t :=
  MemoryManager.mk 200 20 3
    [("a0", memory "a0" "在咖啡馆 工作" 9); ("a1", memory "a1" "在公园 散步" 5)]
    (<[EVENT := ["a0"; "a1"]]> (MemoryManager._by_type MemoryManager.default))
    ∅ 14 None.

(** [store2] with room for two memories only, and a memory of importance 0. *)
Definition full_store : MemoryManager.t :=
  MemoryManager.mk 2 20 3 (MemoryManager._memories store2)
    (MemoryManager._by_type store2) ∅ 14 None.

Definition dull : Memory.t := memory "a2" "无关紧要" 0.

(** [n] times: add a memory of importance 10, then remove it. *)
Definition churn (n : nat) : list store_op :=
  mjoin (replicate n [OpAdd (memory "a0" "买咖啡" 10); OpRemove "a0"]).

Definition block (start_time end_time activity : string) : PlanBlock.t :=
  PlanBlock.mk start_time end_time (PyStr activity) (PyStr "").

Definition plan : DailyPlan.t :=
  DailyPlan.mk 739000
    [block "08:00" "12:00" "上午工作"; block "12:00" "13:00" "午饭"]
    [block "09:00" "10:00" "写代码"]
    [] t0.

Definition agent : Agent.t :=
  Agent.mk "agent_1" "张三" 25 "男" "程序员" "" []
    (Personality.mk 50 50 50 50 50)
    (Needs.mk 20 15 30 25 10 20 t0 [])
    store2 10000 0 0
    (Position.mk 0 0 None None) None None
    ACTIVE (CurrentAction.mk WORK PyNone PyNone t0 60 0 PyNone) [] (Some plan)
    ∅ None "deepseek-chat" t0 None 0.

Definition cafe : Location.t :=
  Location.mk "cafe_1" "咖啡馆" LocationType.CAFE 10 10 2 2 1 []
    (OpeningHours.mk 0 24 (list_to_set [0; 1; 2; 3; 4; 5; 6]%Z)) "" None
    {[ "agent_2" ]}.

Definition world : World :=
  mkWorld (LocationManager.mk [("cafe_1", cafe)] ∅)
    (AgentManager.mk {[ "agent_1"; "agent_2" ]} ∅ ∅) [].

Definition addressed : Perception.t :=
  Perception.mk "咖啡馆" (Some "cafe_1") [] [] [] true (Some "李四") [] t0.

Definition nothing : Perception.t :=
  Perception.mk "咖啡馆" (Some "cafe_1") [] [] [] false None [] t0.

Definition note : ReactionDecision.t :=
  ReactionDecision.mk (PyBool true) NOTE (PyStr "门口有人经过") (PyStr "值得记住").

Definition interrupt : ReactionDecision.t :=
  ReactionDecision.mk (PyBool true) INTERRUPT (PyStr "回应李四") (PyStr "李四在等待回应").

Definition move_to (target thinking : string) : Decision.t :=
  Decision.mk (PyStr thinking) MOVE (PyStr target) (PyStr "") "".

End Sample.

Local Close Scope string_scope.

(** * Properties *)

(** ** Running computations *)

Lemma bind_inr {A B} (c : M A) (k : A → M B) r a r' :
  c r = (inr a, r') → bind c k r = k a r'.
Proof. intros Hc. unfold bind. rewrite Hc. reflexivity. Qed.

Lemma bind_inl {A B} (c : M A) (k : A → M B) r e r' :
  c r = (inl e, r') → bind c k r = (inl e, r').
Proof. intros Hc. unfold bind. rewrite Hc. reflexivity. Qed.


(** ** Strings and lists *)

Lemma eqb_true (a b : string) : String.eqb a b = true ↔ a = b.
Proof. apply String.eqb_eq. Qed.

Lemma eqb_false (a b : string) : String.eqb a b = false ↔ a ≠ b.
Proof. apply String.eqb_neq. Qed.

Lemma list_mem_true x l : list_mem x l = true ↔ x ∈ l.
Proof.
  unfold list_mem. rewrite existsb_exists. split.
  - intros (y & Hin & Heq). apply eqb_true in Heq. subst. by apply list_elem_of_In.
  - intros Hin. exists x. split; [by apply list_elem_of_In | apply String.eqb_refl].
Qed.

Lemma list_remove_present x l : list_mem x l = true → is_Some (list_remove x l).
Proof.
  induction l as [|y l IH]; cbn; [done|].
  destruct (String.eqb x y); cbn; [eauto|].
  intros Hm. destruct (IH Hm) as [l' ->]. eauto.
Qed.

Section SortFacts.
Context {A K : Type} (ltb : K → K → bool) (key : A → K).

Lemma insert_asc_perm x l : insert_asc ltb key x l ≡ₚ x :: l.
Proof.
  induction l as [|y l IH]; cbn; [done|].
  destruct (ltb (key y) (key x)); [|done].
  rewrite IH. apply Permutation_swap.
Qed.

Lemma sorted_asc_perm l : sorted_asc ltb key l ≡ₚ l.
Proof.
  induction l as [|x l IH]; cbn; [done|].
  rewrite insert_asc_perm. by rewrite IH.
Qed.

Lemma insert_desc_perm x l : insert_desc ltb key x l ≡ₚ x :: l.
Proof.
  induction l as [|y l IH]; cbn; [done|].
  destruct (ltb (key x) (key y)); [|done].
  rewrite IH. apply Permutation_swap.
Qed.

Lemma sorted_desc_perm l : sorted_desc ltb key l ≡ₚ l.
Proof.
  induction l as [|x l IH]; cbn; [done|].
  rewrite insert_desc_perm. by rewrite IH.
Qed.

End SortFacts.

(** ** Dictionaries *)

Section DictFacts.
Context {V : Type}.
Implicit Types (d : list (string * V)) (k : string) (v : V).

Lemma get_set_eq k v d : PyDict.get k (PyDict.set k v d) = Some v.
Proof.
  induction d as [|[k' v'] d IH]; cbn.
  - by rewrite String.eqb_refl.
  - destruct (String.eqb k k') eqn:E; cbn; rewrite ?String.eqb_refl, ?E; done.
Qed.


Lemma length_set k v d : length (PyDict.set k v d) ≤ S (length d).
Proof.
  induction d as [|[k' v'] d IH]; cbn; [lia|].
  destruct (String.eqb k k'); cbn; lia.
Qed.

Lemma length_del k d : length (PyDict.del k d) ≤ length d.
Proof.
  induction d as [|[k' v'] d IH]; cbn; [lia|].
  destruct (String.eqb k k'); cbn; lia.
Qed.

Lemma length_del_mem k d :
  PyDict.mem k d = true → S (length (PyDict.del k d)) = length d.
Proof.
  unfold PyDict.mem. induction d as [|[k' v'] d IH]; cbn; [done|].
  destruct (String.eqb k k'); cbn; [done|]. intros Hm. by rewrite IH.
Qed.

Lemma elem_of_set e k v d : e ∈ PyDict.set k v d → e = (k, v) ∨ e ∈ d.
Proof.
  induction d as [|[k' v'] d IH]; cbn.
  - rewrite list_elem_of_singleton. auto.
  - destruct (String.eqb k k'); rewrite !elem_of_cons; intuition.
Qed.

Lemma elem_of_del e k d : e ∈ PyDict.del k d → e ∈ d.
Proof.
  induction d as [|[k' v'] d IH]; cbn; [done|].
  destruct (String.eqb k k'); rewrite !elem_of_cons; intuition.
Qed.

Lemma mem_keys k d : PyDict.mem k d = list_mem k (PyDict.keys d).
Proof.
  unfold PyDict.mem, PyDict.keys, list_mem.
  induction d as [|[k' v'] d IH]; cbn; [done|].
  destruct (String.eqb k k'); cbn; [done|]. apply IH.
Qed.

Lemma mem_elem_of k v d : (k, v) ∈ d → PyDict.mem k d = true.
Proof.
  intros Hin. rewrite mem_keys. apply list_mem_true.
  unfold PyDict.keys. apply list_elem_of_fmap. by exists (k, v).
Qed.

Lemma get_elem_of k v d : PyDict.get k d = Some v → (k, v) ∈ d.
Proof.
  induction d as [|[k' v'] d IH]; cbn; [done|].
  destruct (String.eqb k k') eqn:E.
  - apply eqb_true in E. subst. intros [= ->]. apply elem_of_cons. auto.
  - intros Hg. apply elem_of_cons. auto.
Qed.

Lemma keys_set k v d :
  PyDict.keys (PyDict.set k v d)
  = if PyDict.mem k d then PyDict.keys d else (PyDict.keys d ++ [k])%list.
Proof.
  unfold PyDict.mem, PyDict.keys.
  induction d as [|[k' v'] d IH]; cbn; [done|].
  destruct (String.eqb k k') eqn:E; cbn.
  - apply eqb_true in E. by subst.
  - rewrite IH. by destruct (PyDict.get k d).
Qed.

Lemma keys_del_sub x k d : x ∈ PyDict.keys (PyDict.del k d) → x ∈ PyDict.keys d.
Proof.
  unfold PyDict.keys. rewrite !list_elem_of_fmap.
  intros (e & -> & He). exists e. split; [done|]. by eapply elem_of_del.
Qed.

End DictFacts.

(** ** The memory store *)

Section StoreFacts.
Context `{Host} `{!InRange}.
Implicit Types (self : MemoryManager.t) (r : Runtime).

Lemma only_clock_refl r : only_clock r r.
Proof. unfold only_clock. auto. Qed.

Lemma only_clock_trans r1 r2 r3 : only_clock r1 r2 → only_clock r2 r3 → only_clock r1 r3.
Proof. unfold only_clock. intros (?&?&?) (?&?&?). repeat split; [lia|congruence..]. Qed.

Lemma same_counters_refl self : same_counters self self.
Proof. unfold same_counters, same_limits. auto. Qed.

Lemma same_counters_trans s1 s2 s3 :
  same_counters s1 s2 → same_counters s2 s3 → same_counters s1 s3.
Proof.
  unfold same_counters, same_limits.
  intros ((?&?&?)&?&?) ((?&?&?)&?&?). repeat split; congruence.
Qed.

Lemma nodupb_true l : MemoryManager.nodupb l = true ↔ NoDup l.
Proof.
  induction l as [|x l IH]; cbn.
  - split; [constructor | done].
  - rewrite andb_true_iff, negb_true_iff, IH, NoDup_cons.
    rewrite <- not_true_iff_false, list_mem_true. done.
Qed.

Lemma wf_unfold self :
  MemoryManager.wf self ↔
    (∀ k m, (k, m) ∈ MemoryManager._memories self → Memory.id m = k)
    ∧ (∀ ty, is_Some (MemoryManager._by_type self !! ty))
    ∧ NoDup (PyDict.keys (MemoryManager._memories self)).
Proof.
  unfold MemoryManager.wf, MemoryManager.wfb.
  rewrite !andb_true_iff, nodupb_true, !forallb_forall.
  split.
  - intros [[Hid Hty] Hnd]. repeat split; [| |done].
    + intros k m Hin. apply list_elem_of_In, Hid in Hin. by apply eqb_true in Hin.
    + intros ty. assert (In ty MemoryType_all) as Hin by (destruct ty; cbn; tauto).
      apply Hty in Hin. destruct (MemoryManager._by_type self !! ty); [eauto|done].
  - intros (Hid & Hty & Hnd). repeat split; [| |done].
    + intros [k m] Hin. apply eqb_true. apply Hid. by apply list_elem_of_In.
    + intros ty _. by destruct (Hty ty) as [ids ->].
Qed.

Lemma wf_init max_memories short_term_limit importance_threshold :
  MemoryManager.wf (MemoryManager.init max_memories short_term_limit importance_threshold).
Proof. reflexivity. Qed.

Lemma unindex_agents_ok memory_id agents by_agent r :
  ∃ by_agent',
    foldM (MemoryManager.unindex_agent memory_id) by_agent agents r = (inr by_agent', r).
Proof.
  revert by_agent. induction agents as [|a agents IH]; intros by_agent; cbn.
  - by eexists.
  - unfold bind at 1. unfold MemoryManager.unindex_agent at 1.
    destruct (by_agent !! a) as [ids|]; cbn; [|apply IH].
    destruct (list_mem memory_id ids) eqn:E; cbn; [|apply IH].
    destruct (list_remove_present _ _ E) as [ids' ->]. cbn. apply IH.
Qed.

Lemma remove_ok memory_id self r :
  MemoryManager.wf self →
  ∃ b self',
    MemoryManager.remove memory_id self r = (inr (b, self'), r)
    ∧ MemoryManager.wf self'
    ∧ same_counters self self'
    ∧ (length (MemoryManager._memories self') ≤ length (MemoryManager._memories self))%nat
    ∧ (PyDict.mem memory_id (MemoryManager._memories self) = true →
       S (length (MemoryManager._memories self')) = length (MemoryManager._memories self))
    ∧ PyDict.get memory_id (MemoryManager._memories self') = None.
Proof.
  intros Hwf. pose proof Hwf as (Hid & Hty & Hnd)%wf_unfold.
  unfold MemoryManager.remove.
  destruct (PyDict.mem memory_id (MemoryManager._memories self)) eqn:Hmem; cbn.
  2:{ exists false, self. repeat split; auto using same_counters_refl.
      - done.
      - unfold PyDict.mem in Hmem. by destruct (PyDict.get _ _). }
  unfold PyDict.getitem, PyDict.delitem. rewrite Hmem.
  pose proof Hmem as Hget. unfold PyDict.mem in Hget.
  destruct (PyDict.get memory_id (MemoryManager._memories self)) as [memory|] eqn:Hg;
    [clear Hget|done].
  unfold bind at 1. cbn.
  destruct (Hty (Memory.type memory)) as [ids Hids]. rewrite Hids.
  unfold bind at 1. cbn.
  set (by_type' := if list_mem memory_id ids then _ else _).
  assert (∃ bt, by_type' r = (inr bt, r) ∧ ∀ ty, is_Some (bt !! ty)) as (bt & Hbt & Hbt_ty).
  { subst by_type'. destruct (list_mem memory_id ids) eqn:E.
    - destruct (list_remove_present _ _ E) as [ids' ->]. cbn. eexists. split; [done|].
      intros ty. destruct (decide (Memory.type memory = ty)) as [->|Hne].
      + rewrite lookup_insert_eq. eauto.
      + rewrite lookup_insert_ne by done. apply Hty.
    - eexists. split; [done|]. apply Hty. }
  rewrite (bind_inr _ _ _ _ _ Hbt).
  destruct (unindex_agents_ok memory_id (Memory.related_agents memory)
              (MemoryManager._by_agent self) r) as [ba Hba].
  rewrite (bind_inr _ _ _ _ _ Hba). cbn.
  eexists _, _. split; [reflexivity|]. cbn.
  repeat split; cbn; auto.
  - apply wf_unfold. cbn. repeat split; [|done|].
    + intros k m Hin. apply Hid. by eapply elem_of_del.
    + clear -Hnd. induction (MemoryManager._memories self) as [|[k' v'] d IH]; cbn; [done|].
      cbn in Hnd. apply NoDup_cons in Hnd as [Hni Hnd].
      destruct (String.eqb memory_id k'); cbn; [done|].
      apply NoDup_cons. split; [|auto]. intros Hin. apply Hni.
      by eapply (keys_del_sub k' memory_id).
  - apply length_del.
  - intros _. by apply length_del_mem.
  - clear -Hnd. induction (MemoryManager._memories self) as [|[k' v'] d IH]; cbn; [done|].
    cbn in Hnd. apply NoDup_cons in Hnd as [Hni Hnd].
    destruct (String.eqb memory_id k') eqn:E; cbn.
    + apply eqb_true in E. subst k'.
      destruct (PyDict.get memory_id d) eqn:Hg; [|done].
      exfalso. apply Hni. apply get_elem_of in Hg.
      unfold PyDict.keys in *. apply list_elem_of_fmap. by eexists (_, _).
    + rewrite E. auto.
Qed.

Lemma get_retrieval_score_run (m : Memory.t) qk r :
  Memory.get_retrieval_score m qk r
  = (inr (Memory.retrieval_score_at (now_at (clock_reads r)) m qk),
     mkRuntime (S (clock_reads r)) (uuid_draws r) (llm_calls r)).
Proof.
  unfold Memory.get_retrieval_score, bind, datetime_now, Memory.overflows_at.
  by rewrite in_range.
Qed.

Lemma access_run (m : Memory.t) r :
  Memory.access m r
  = (inr (Memory.accessed_at (now_at (clock_reads r)) m),
     mkRuntime (S (clock_reads r)) (uuid_draws r) (llm_calls r)).
Proof. reflexivity. Qed.

Lemma score_all_ok (memories : list Memory.t) r :
  ∃ scored r',
    mapM (λ m, s <- Memory.get_retrieval_score m None ;; ret (s, m)) memories r
    = (inr scored, r')
    ∧ scored.*2 = memories ∧ only_clock r r'.
Proof.
  revert r. induction memories as [|m memories IH]; intros r.
  - eexists _, _. split; [reflexivity|]. split; [done|apply only_clock_refl].
  - cbn [mapM]. unfold bind at 1. unfold bind at 1.
    rewrite get_retrieval_score_run. cbv beta iota. unfold ret at 1. cbv beta iota.
    destruct (IH (mkRuntime (S (clock_reads r)) (uuid_draws r) (llm_calls r)))
      as (scored & r' & Hrun & Hsnd & Hclock).
    rewrite (bind_inr _ _ _ _ _ Hrun). unfold ret.
    eexists _, _. split; [reflexivity|]. cbn. split; [by rewrite Hsnd|].
    destruct Hclock as (?&?&?). cbn in *. unfold only_clock. repeat split; [lia|done..].
Qed.

Lemma sorted_by_retrieval_score_ok (memories : list Memory.t) r :
  ∃ sorted r',
    MemoryManager.sorted_by_retrieval_score memories r = (inr sorted, r')
    ∧ sorted ≡ₚ memories ∧ only_clock r r'.
Proof.
  unfold MemoryManager.sorted_by_retrieval_score.
  destruct (score_all_ok memories r) as (scored & r' & Hrun & Hsnd & Hclock).
  rewrite (bind_inr _ _ _ _ _ Hrun). cbn.
  eexists _, _. split; [reflexivity|]. split; [|done].
  rewrite <- Hsnd. apply fmap_Permutation, sorted_asc_perm.
Qed.

Lemma remove_each_ok (memories : list Memory.t) self r :
  MemoryManager.wf self →
  ∃ self',
    foldM (λ self' memory, p <- MemoryManager.remove (Memory.id memory) self' ;; ret p.2)
      self memories r = (inr self', r)
    ∧ MemoryManager.wf self'
    ∧ same_counters self self'
    ∧ (length (MemoryManager._memories self') ≤ length (MemoryManager._memories self))%nat
    ∧ match memories with
      | [] => True
      | memory :: _ =>
          PyDict.mem (Memory.id memory) (MemoryManager._memories self) = true →
          (length (MemoryManager._memories self') < length (MemoryManager._memories self))%nat
      end.
Proof.
  revert self. induction memories as [|m memories IH]; intros self Hwf; cbn.
  - exists self. repeat split; auto using same_counters_refl.
  - destruct (remove_ok (Memory.id m) self r Hwf)
      as (b & self1 & Hrun & Hwf1 & Hsame1 & Hle1 & Hlt1 & _).
    unfold bind at 1. rewrite (bind_inr _ _ _ _ _ Hrun). cbn.
    destruct (IH self1 Hwf1) as (self' & Hrun' & Hwf' & Hsame' & Hle' & _).
    exists self'. split; [done|]. split; [done|].
    split; [by eapply same_counters_trans|]. split; [lia|].
    intros Hmem. specialize (Hlt1 Hmem). lia.
Qed.

Lemma slice_to_cons {A} (n : Z) (x : A) (l : list A) :
  (1 ≤ n)%Z → slice_to n (x :: l) = x :: take (Z.to_nat n - 1) l.
Proof.
  intros Hn. unfold slice_to.
  destruct (0 <=? n)%Z eqn:E; [|lia].
  destruct (Z.to_nat n) as [|k] eqn:Ek; [lia|]. cbn. by rewrite Nat.sub_0_r.
Qed.

Lemma _forget_least_important_ok self r :
  MemoryManager.wf self →
  ∃ self' r',
    MemoryManager._forget_least_important self r = (inr self', r')
    ∧ MemoryManager.wf self'
    ∧ same_counters self self'
    ∧ only_clock r r'
    ∧ (length (MemoryManager._memories self') ≤ length (MemoryManager._memories self))%nat
    ∧ (MemoryManager._memories self ≠ [] →
       (length (MemoryManager._memories self') < length (MemoryManager._memories self))%nat).
Proof.
  intros Hwf. pose proof Hwf as (Hid & _ & _)%wf_unfold.
  unfold MemoryManager._forget_least_important.
  destruct (MemoryManager._memories self) as [|e d] eqn:Hmems.
  - exists self, r. repeat split; auto using same_counters_refl, only_clock_refl.
    + by rewrite Hmems.
    + done.
  - rewrite <- Hmems.
    destruct (sorted_by_retrieval_score_ok (PyDict.values (MemoryManager._memories self)) r)
      as (sorted & r' & Hrun & Hperm & Hclock).
    rewrite (bind_inr _ _ _ _ _ Hrun).
    destruct sorted as [|m sorted].
    { apply Permutation_nil_l in Hperm. rewrite Hmems in Hperm. done. }
    rewrite slice_to_cons by lia.
    destruct (remove_each_ok (m :: take (Z.to_nat
                (Z.max 1 (Z.of_nat (length (m :: sorted)) / 10)) - 1) sorted) self r' Hwf)
      as (self' & Hrun' & Hwf' & Hsame' & Hle' & Hlt').
    exists self', r'. split_and!; try done.
    intros _. apply Hlt'.
    assert (m ∈ PyDict.values (MemoryManager._memories self)) as Hin.
    { rewrite <- Hperm. apply elem_of_cons. auto. }
    unfold PyDict.values in Hin. apply list_elem_of_fmap in Hin as ([k m'] & -> & Hin).
    cbn. pose proof Hin as Hin'. rewrite Hmems in Hin'.
    rewrite (Hid _ _ Hin'). by eapply mem_elem_of.
Qed.

Lemma add_ok (memory : Memory.t) self r :
  MemoryManager.wf self →
  ∃ self1 self' r',
    (if (MemoryManager.max_memories self <=? MemoryManager.count self)%Z
     then MemoryManager._forget_least_important self r = (inr self1, r')
     else self1 = self ∧ r' = r)
    ∧ MemoryManager.add memory self r = (inr (Memory.id memory, self'), r')
    ∧ MemoryManager._memories self'
      = PyDict.set (Memory.id memory) memory (MemoryManager._memories self1)
    ∧ MemoryManager.wf self'
    ∧ same_limits self self'
    ∧ MemoryManager.accumulated_importance self'
      = (MemoryManager.accumulated_importance self + Memory.importance memory)%Q
    ∧ MemoryManager.last_reflection_time self' = MemoryManager.last_reflection_time self
    ∧ only_clock r r'
    ∧ ((1 ≤ MemoryManager.max_memories self)%Z →
       (MemoryManager.count self ≤ MemoryManager.max_memories self)%Z →
       (MemoryManager.count self' ≤ MemoryManager.max_memories self')%Z).
Proof.
  intros Hwf. unfold MemoryManager.add, MemoryManager.count.
  set (full := (MemoryManager.max_memories self
                <=? Z.of_nat (length (MemoryManager._memories self)))%Z).
  assert (∃ self1 r',
    (if full then MemoryManager._forget_least_important self else ret self) r
      = (inr self1, r')
    ∧ (if full then MemoryManager._forget_least_important self r = (inr self1, r')
       else self1 = self ∧ r' = r)
    ∧ MemoryManager.wf self1 ∧ same_counters self self1 ∧ only_clock r r'
    ∧ ((1 ≤ MemoryManager.max_memories self)%Z →
       (Z.of_nat (length (MemoryManager._memories self)) ≤ MemoryManager.max_memories self)%Z →
       (Z.of_nat (length (MemoryManager._memories self1)) < MemoryManager.max_memories self)%Z))
    as (self1 & r' & Hrun1 & Hcase & Hwf1 & Hsame1 & Hclock & Hroom).
  { destruct full eqn:Hfull; subst full.
    - destruct (_forget_least_important_ok self r Hwf)
        as (self1 & r' & Hrun & Hwf1 & Hsame & Hclock & Hle & Hlt).
      exists self1, r'. split_and!; try done.
      intros Hmax Hcap. apply Z.leb_le in Hfull.
      assert (MemoryManager._memories self ≠ []) as Hne.
      { intros E. rewrite E in Hfull. cbn in Hfull. lia. }
      specialize (Hlt Hne). lia.
    - exists self, r. split_and!; auto using same_counters_refl, only_clock_refl.
      intros _ _. apply Z.leb_gt in Hfull. lia. }
  rewrite (bind_inr _ _ _ _ _ Hrun1).
  pose proof Hwf1 as (Hid & Hty & Hnd)%wf_unfold.
  destruct (Hty (Memory.type memory)) as [ids Hids]. rewrite Hids. cbn.
  destruct Hsame1 as ((Hmax & Hshort & Hthr) & Hacc & Hlast).
  eexists self1, _, r'. split; [done|]. split; [reflexivity|]. cbn.
  split; [reflexivity|]. split; [|split; [done|]].
  - apply wf_unfold. cbn [MemoryManager._memories MemoryManager._by_type]. split_and!.
    + intros k m [[= -> ->]|Hin]%elem_of_set; [done|by apply Hid].
    + intros ty. destruct (decide (Memory.type memory = ty)) as [->|Hne].
      * rewrite lookup_insert_eq. eauto.
      * rewrite lookup_insert_ne by done. apply Hty.
    + rewrite keys_set.
      destruct (PyDict.mem (Memory.id memory) (MemoryManager._memories self1)) eqn:Hmem;
        [done|].
      apply NoDup_app. split; [done|]. split; [|apply NoDup_singleton].
      intros x Hx ->%list_elem_of_singleton.
      apply list_mem_true in Hx. rewrite <- mem_keys in Hx. congruence.
  - split; [by rewrite Hacc|]. split; [done|]. split; [done|].
    intros Hmax1 Hcap. specialize (Hroom Hmax1 Hcap). rewrite Hmax.
    pose proof (length_set (Memory.id memory) memory (MemoryManager._memories self1)). lia.
Qed.

End StoreFacts.

(** ** Running without overflow *)

#[global] Instance in_range_host_in_range `{Host} : @InRange in_range_host.
Proof. by intros x y. Qed.

Lemma overflows_bind {A B} (c : M A) (k : A → M B) r :
  overflows (c r) → overflows (bind c k r).
Proof. intros [r' Hc]. exists r'. unfold bind. by rewrite Hc. Qed.

Lemma overflows_inr {A} (a : A) r : ¬ overflows (A := A) (inr a, r).
Proof. by intros [r' Hc]. Qed.

Lemma runs_as_refl {A} (c : M A) : runs_as c c.
Proof. intros r. by right. Qed.

Lemma runs_as_bind {A B} (c c' : M A) (k k' : A → M B) :
  runs_as c c' → (∀ a, runs_as (k a) (k' a)) → runs_as (bind c k) (bind c' k').
Proof.
  intros Hc Hk r. destruct (Hc r) as [Hov|Heq].
  - left. by apply overflows_bind.
  - unfold bind. rewrite <- Heq. destruct (c r) as [[e|a] r1]; [by right|apply Hk].
Qed.

Lemma runs_as_returns {A} (c c' : M A) r a r' :
  runs_as c c' → c r = (inr a, r') → c' r = (inr a, r').
Proof.
  intros Hc Hrun. destruct (Hc r) as [[r1 Hov]|Heq]; [congruence|by rewrite <- Heq].
Qed.

Lemma runs_as_mapM {A B} (f f' : A → M B) l :
  (∀ a, runs_as (f a) (f' a)) → runs_as (mapM f l) (mapM f' l).
Proof.
  intros Hf. induction l as [|x l IH]; cbn [mapM]; [apply runs_as_refl|].
  apply runs_as_bind; [apply Hf|]. intros y.
  apply runs_as_bind; [apply IH|]. intros ys. apply runs_as_refl.
Qed.

Lemma runs_as_foldM {A B} (f f' : B → A → M B) l b :
  (∀ b a, runs_as (f b a) (f' b a)) → runs_as (foldM f b l) (foldM f' b l).
Proof.
  intros Hf. revert b. induction l as [|x l IH]; intros b; cbn [foldM];
    [apply runs_as_refl|].
  apply runs_as_bind; [apply Hf|]. intros b'. apply IH.
Qed.

Section RunsAs.
Context `{H : Host}.

Lemma get_retrieval_score_runs_as m qk :
  runs_as (Memory.get_retrieval_score m qk) (@Memory.get_retrieval_score in_range_host m qk).
Proof.
  intros r. unfold Memory.get_retrieval_score, bind, datetime_now. cbn.
  destruct (Memory.overflows_at _ m); [left; by eexists|by right].
Qed.

Lemma sorted_by_retrieval_score_runs_as memories :
  runs_as (MemoryManager.sorted_by_retrieval_score memories)
    (@MemoryManager.sorted_by_retrieval_score in_range_host memories).
Proof.
  unfold MemoryManager.sorted_by_retrieval_score.
  apply runs_as_bind; [|intros; apply runs_as_refl].
  apply runs_as_mapM. intros m.
  apply runs_as_bind; [apply get_retrieval_score_runs_as|intros; apply runs_as_refl].
Qed.

Lemma _forget_least_important_runs_as self :
  runs_as (MemoryManager._forget_least_important self)
    (@MemoryManager._forget_least_important in_range_host self).
Proof.
  unfold MemoryManager._forget_least_important.
  destruct (MemoryManager._memories self); [apply runs_as_refl|].
  apply runs_as_bind; [apply sorted_by_retrieval_score_runs_as|].
  intros; apply runs_as_refl.
Qed.

Lemma add_runs_as memory self :
  runs_as (MemoryManager.add memory self) (@MemoryManager.add in_range_host memory self).
Proof.
  unfold MemoryManager.add.
  apply runs_as_bind; [|intros; apply runs_as_refl].
  destruct (_ <=? _)%Z; [apply _forget_least_important_runs_as|apply runs_as_refl].
Qed.

Lemma create_and_add_runs_as content memory_type importance related_agents
    location emotion game_time self :
  runs_as
    (MemoryManager.create_and_add content memory_type importance related_agents
       location emotion game_time self)
    (@MemoryManager.create_and_add in_range_host content memory_type importance related_agents
       location emotion game_time self).
Proof.
  unfold MemoryManager.create_and_add.
  apply runs_as_bind; [apply runs_as_refl|]. intros memory.
  apply runs_as_bind; [apply add_runs_as|intros; apply runs_as_refl].
Qed.

Lemma run_ops_runs_as ops self :
  runs_as (run_ops ops self) (@run_ops in_range_host ops self).
Proof.
  unfold run_ops. apply runs_as_foldM. intros self' [memory|memory_id]; cbn [run_op].
  - apply runs_as_bind; [apply add_runs_as|intros; apply runs_as_refl].
  - apply runs_as_refl.
Qed.


Lemma score_and_access_runs_as qk min_score entries :
  runs_as (MemoryManager.score_and_access qk min_score entries)
    (@MemoryManager.score_and_access in_range_host qk min_score entries).
Proof.
  induction entries as [|[k memory] rest IH]; cbn [MemoryManager.score_and_access];
    [apply runs_as_refl|].
  apply runs_as_bind; [apply get_retrieval_score_runs_as|]. intros score.
  destruct (Qle_bool min_score score).
  - apply runs_as_bind; [apply runs_as_refl|]. intros memory'.
    apply runs_as_bind; [apply IH|intros; apply runs_as_refl].
  - apply runs_as_bind; [apply IH|intros; apply runs_as_refl].
Qed.

Lemma retrieve_relevant_runs_as query limit min_score self :
  runs_as (MemoryManager.retrieve_relevant query limit min_score self)
    (@MemoryManager.retrieve_relevant in_range_host query limit min_score self).
Proof.
  unfold MemoryManager.retrieve_relevant.
  apply runs_as_bind; [apply score_and_access_runs_as|intros; apply runs_as_refl].
Qed.


Lemma add_memory_runs_as content memory_type importance agent :
  runs_as (Agent.add_memory content memory_type importance agent)
    (@Agent.add_memory in_range_host content memory_type importance agent).
Proof.
  unfold Agent.add_memory.
  apply runs_as_bind; [apply create_and_add_runs_as|intros; apply runs_as_refl].
Qed.

Lemma add_memory_value_runs_as content memory_type importance agent :
  runs_as (Agent.add_memory_value content memory_type importance agent)
    (@Agent.add_memory_value in_range_host content memory_type importance agent).
Proof.
  destruct content; try apply runs_as_refl. apply add_memory_runs_as.
Qed.






Lemma execute_reaction_runs_as agent decision :
  runs_as (execute_reaction agent decision) (@execute_reaction in_range_host agent decision).
Proof.
  unfold execute_reaction.
  destruct (negb _); [apply runs_as_refl|].
  destruct (ReactionDecision.reaction_type decision); [apply runs_as_refl| |].
  - apply runs_as_bind; [apply add_memory_runs_as|]. intros p1.
    apply runs_as_bind; [|intros; apply runs_as_refl].
    destruct (Py.truthy _); [|apply runs_as_refl].
    apply runs_as_bind; [apply add_memory_runs_as|intros; apply runs_as_refl].
  - destruct (Py.truthy _); [|apply runs_as_refl].
    apply runs_as_bind; [apply add_memory_runs_as|intros; apply runs_as_refl].
Qed.

Lemma act_on_reaction_runs_as agent reaction_decision w :
  runs_as (DecisionScheduler.act_on_reaction agent reaction_decision w)
    (@DecisionScheduler.act_on_reaction in_range_host agent reaction_decision w).
Proof.
  unfold DecisionScheduler.act_on_reaction.
  destruct (Py.truthy _); [|apply runs_as_refl].
  destruct (ReactionDecision.reaction_type reaction_decision); [apply runs_as_refl| |].
  - apply runs_as_bind; [apply execute_reaction_runs_as|intros; apply runs_as_refl].
  - destruct (Py.truthy _); [|apply runs_as_refl].
    apply runs_as_bind; [apply add_memory_value_runs_as|intros; apply runs_as_refl].
Qed.

Lemma _process_agent_reaction_runs_as agent perception w :
  runs_as (DecisionScheduler._process_agent_reaction agent perception w)
    (@DecisionScheduler._process_agent_reaction in_range_host agent perception w).
Proof.
  unfold DecisionScheduler._process_agent_reaction.
  apply runs_as_bind; [apply runs_as_refl|]. intros current_plan_desc.
  apply runs_as_bind; [apply runs_as_refl|]. intros reaction_decision.
  apply act_on_reaction_runs_as.
Qed.


(** *** When the store can be scored *)

Lemma bind_eq {A B} (c c' : M A) (k k' : A → M B) r :
  c r = c' r →
  (∀ a r1, c' r = (inr a, r1) → k a r1 = k' a r1) →
  bind c k r = bind c' k' r.
Proof.
  intros Hc Hk. unfold bind. rewrite Hc.
  destruct (c' r) as [[e|a] r1]; [done|by apply Hk].
Qed.

Lemma get_retrieval_score_scorable m qk r :
  Memory.overflows_at (now_at (clock_reads r)) m = false →
  Memory.get_retrieval_score m qk r
  = (inr (Memory.retrieval_score_at (now_at (clock_reads r)) m qk),
     mkRuntime (S (clock_reads r)) (uuid_draws r) (llm_calls r)).
Proof.
  intros Hm. unfold Memory.get_retrieval_score, bind, datetime_now. by rewrite Hm.
Qed.

Lemma score_all_scorable memories r :
  (∀ m n', m ∈ memories → (clock_reads r ≤ n')%nat →
           Memory.overflows_at (now_at n') m = false) →
  mapM (λ m, s <- Memory.get_retrieval_score m None ;; ret (s, m)) memories r
  = mapM (λ m, s <- @Memory.get_retrieval_score in_range_host m None ;; ret (s, m))
      memories r.
Proof.
  revert r. induction memories as [|m memories IH]; intros r Hs; [done|].
  cbn [mapM]. apply bind_eq.
  - apply bind_eq; [|done].
    rewrite get_retrieval_score_scorable by (apply Hs; [left|lia]).
    by rewrite (get_retrieval_score_run (H := in_range_host)).
  - intros [s m'] r1 Hrun. apply bind_eq; [|done].
    unfold bind in Hrun. rewrite (get_retrieval_score_run (H := in_range_host)) in Hrun.
    injection Hrun as _ _ <-. apply IH.
    intros m0 n' Hin Hn. apply Hs; [by right|cbn in Hn; lia].
Qed.

Lemma _forget_least_important_scorable self r :
  scorable_from (clock_reads r) self →
  MemoryManager._forget_least_important self r
  = @MemoryManager._forget_least_important in_range_host self r.
Proof.
  intros Hs. unfold MemoryManager._forget_least_important.
  destruct (MemoryManager._memories self) eqn:Hmems; [done|]. rewrite <- Hmems.
  apply bind_eq; [|done]. unfold MemoryManager.sorted_by_retrieval_score.
  apply bind_eq; [|done]. apply score_all_scorable. intros m n'. apply Hs.
Qed.

Lemma add_scorable memory self r :
  scorable_from (clock_reads r) self →
  MemoryManager.add memory self r = @MemoryManager.add in_range_host memory self r.
Proof.
  intros Hs. unfold MemoryManager.add. apply bind_eq; [|done].
  destruct (_ <=? _)%Z; [by apply _forget_least_important_scorable|done].
Qed.

Lemma add_below_capacity memory self r :
  (MemoryManager.count self < MemoryManager.max_memories self)%Z →
  MemoryManager.add memory self r = @MemoryManager.add in_range_host memory self r.
Proof.
  intros Hroom. unfold MemoryManager.add, MemoryManager.count in *.
  apply bind_eq; [|done].
  destruct (_ <=? _)%Z eqn:E; [apply Z.leb_le in E; lia|done].
Qed.



End RunsAs.

(** *** What a run keeps of the store *)

Lemma bind_returns {A B} (c : M A) (k : A → M B) r b r' :
  bind c k r = (inr b, r') → ∃ a r1, c r = (inr a, r1) ∧ k a r1 = (inr b, r').
Proof. unfold bind. destruct (c r) as [[e|a] r1]; [done|eauto]. Qed.

Lemma bind_snd {A B} (c : M A) (k : A → M B) :
  (∀ r, (c r).2 = r) → (∀ a r, (k a r).2 = r) → ∀ r, (bind c k r).2 = r.
Proof.
  intros Hc Hk r. unfold bind. specialize (Hc r).
  destruct (c r) as [[e|a] r1]; cbn in *; [done|]. subst r1. apply Hk.
Qed.

Lemma of_option_snd {A} e (o : option A) r : (of_option e o r).2 = r.
Proof. by destruct o. Qed.

Lemma foldM_snd {A B} (f : B → A → M B) (l : list A) :
  (∀ b a r, (f b a r).2 = r) → ∀ b r, (foldM f b l r).2 = r.
Proof.
  intros Hf. induction l as [|x l IH]; intros b r; [done|]. cbn [foldM].
  apply bind_snd; [apply Hf|]. intros b' r1. apply IH.
Qed.

Lemma snd_returns {A} (c : M A) r a r' :
  (c r).2 = r → c r = (inr a, r') → r' = r.
Proof. intros Hsnd Hrun. by rewrite Hrun in Hsnd. Qed.

Section Kept.
Context `{Host}.
Implicit Types (self : MemoryManager.t) (r : Runtime).

Lemma remove_snd memory_id self r : (MemoryManager.remove memory_id self r).2 = r.
Proof.
  unfold MemoryManager.remove. destruct (negb _); [done|].
  apply bind_snd; [intros; apply of_option_snd|]. intros memory r1.
  apply bind_snd; [intros; apply of_option_snd|]. intros ids r2.
  apply bind_snd.
  { intros r3. destruct (list_mem _ _); [|done].
    apply bind_snd; [intros; apply of_option_snd|done]. }
  intros by_type' r3.
  apply bind_snd.
  { apply foldM_snd. intros by_agent agent_id r4. unfold MemoryManager.unindex_agent.
    destruct (by_agent !! agent_id); [|done].
    destruct (list_mem _ _); [|done].
    apply bind_snd; [intros; apply of_option_snd|done]. }
  intros by_agent' r4.
  apply bind_snd; [|done]. intros r5. unfold PyDict.delitem. by destruct (PyDict.mem _ _).
Qed.

Lemma remove_kept memory_id self r b self' r' :
  MemoryManager.remove memory_id self r = (inr (b, self'), r') →
  r' = r ∧ ∀ e, e ∈ MemoryManager._memories self' → e ∈ MemoryManager._memories self.
Proof.
  intros Hrun. split; [by eapply snd_returns; [apply remove_snd|]|].
  revert Hrun. unfold MemoryManager.remove. destruct (negb _).
  { by intros [= <- <- <-]. }
  intros (memory & r1 & _ & Hrun)%bind_returns.
  apply bind_returns in Hrun as (ids & r2 & _ & Hrun).
  apply bind_returns in Hrun as (by_type' & r3 & _ & Hrun).
  apply bind_returns in Hrun as (by_agent' & r4 & _ & Hrun).
  apply bind_returns in Hrun as (memories' & r5 & Hdel & Hrun).
  injection Hrun as <- <- <-. cbn [MemoryManager._memories].
  unfold PyDict.delitem in Hdel. destruct (PyDict.mem _ _); [|done].
  injection Hdel as <- <-. intros e. apply elem_of_del.
Qed.

Lemma remove_each_kept (memories : list Memory.t) self r self' r' :
  foldM (λ self' memory, p <- MemoryManager.remove (Memory.id memory) self' ;; ret p.2)
    self memories r = (inr self', r') →
  r' = r ∧ ∀ e, e ∈ MemoryManager._memories self' → e ∈ MemoryManager._memories self.
Proof.
  revert self r. induction memories as [|m memories IH]; intros self r; cbn [foldM].
  - by intros [= <- <-].
  - intros (self1 & r1 & Hrun1 & Hrun)%bind_returns.
    apply bind_returns in Hrun1 as ([b self1'] & r1' & Hrem & [= <- <-]).
    apply remove_kept in Hrem as [-> Hsub1].
    apply IH in Hrun as [-> Hsub]. split; [done|]. intros e He. by apply Hsub1, Hsub.
Qed.

Lemma get_retrieval_score_returns (m : Memory.t) qk r s r' :
  Memory.get_retrieval_score m qk r = (inr s, r') →
  r' = mkRuntime (S (clock_reads r)) (uuid_draws r) (llm_calls r).
Proof.
  unfold Memory.get_retrieval_score, bind, datetime_now.
  destruct (Memory.overflows_at _ m); [done|]. by intros [= _ <-].
Qed.

Lemma score_all_clock (memories : list Memory.t) r scored r' :
  mapM (λ m, s <- Memory.get_retrieval_score m None ;; ret (s, m)) memories r
  = (inr scored, r') →
  (clock_reads r ≤ clock_reads r')%nat.
Proof.
  revert r scored. induction memories as [|m memories IH]; intros r scored; cbn [mapM].
  - by intros [= _ <-].
  - intros (p & r1 & Hrun1 & Hrun)%bind_returns.
    apply bind_returns in Hrun1 as (s & r1' & Hscore & [= _ <-]).
    apply get_retrieval_score_returns in Hscore as ->.
    apply bind_returns in Hrun as (ps & r2 & Hrest & [= _ <-]).
    apply IH in Hrest. cbn in Hrest. lia.
Qed.

Lemma _forget_least_important_kept self r self' r' :
  MemoryManager._forget_least_important self r = (inr self', r') →
  (clock_reads r ≤ clock_reads r')%nat
  ∧ ∀ e, e ∈ MemoryManager._memories self' → e ∈ MemoryManager._memories self.
Proof.
  unfold MemoryManager._forget_least_important.
  destruct (MemoryManager._memories self) eqn:Hmems.
  { intros [= <- <-]. by rewrite Hmems. }
  rewrite <- Hmems.
  intros (sorted & r1 & Hsort & Hrun)%bind_returns.
  unfold MemoryManager.sorted_by_retrieval_score in Hsort.
  apply bind_returns in Hsort as (scored & r1' & Hscore & [= _ <-]).
  apply score_all_clock in Hscore.
  apply remove_each_kept in Hrun as [-> Hsub]. done.
Qed.

Lemma add_kept (memory : Memory.t) self r memory_id self' r' :
  MemoryManager.add memory self r = (inr (memory_id, self'), r') →
  (clock_reads r ≤ clock_reads r')%nat
  ∧ ∀ m, m ∈ PyDict.values (MemoryManager._memories self') →
         m = memory ∨ m ∈ PyDict.values (MemoryManager._memories self).
Proof.
  unfold MemoryManager.add.
  intros (self1 & r1 & Hrun1 & Hrun)%bind_returns.
  apply bind_returns in Hrun as (ids & r2 & Hids & [= _ <- <-]).
  apply (snd_returns _ _ _ _ (of_option_snd _ _ _)) in Hids as ->.
  assert ((clock_reads r ≤ clock_reads r1)%nat
          ∧ ∀ e, e ∈ MemoryManager._memories self1 → e ∈ MemoryManager._memories self)
    as [Hclock Hsub].
  { destruct (_ <=? _)%Z; [by apply _forget_least_important_kept|].
    by injection Hrun1 as <- <-. }
  split; [done|]. cbn [MemoryManager._memories]. unfold PyDict.values.
  intros m ([k m'] & -> & [[= -> ->]|Hin]%elem_of_set)%list_elem_of_fmap; [by left|].
  right. apply list_elem_of_fmap. exists (k, m'). split; [done|by apply Hsub].
Qed.



Lemma create_returns memory_type content importance related_agents location emotion
    game_time r memory r' :
  Memory.create memory_type content importance related_agents location emotion
    game_time r = (inr memory, r') →
  Memory.created_at memory = now_at (clock_reads r)
  ∧ (clock_reads r ≤ clock_reads r')%nat.
Proof.
  unfold Memory.create. destruct game_time; cbn; intros [= <- <-]; cbn; split; (done || lia).
Qed.






End Kept.

(** *** When every score is in range *)

Section Calm.
Context `{H : Host}.
Implicit Types (self : MemoryManager.t) (r : Runtime) (agent : Agent.t).


Lemma calm_from_mono n n2 self : calm_from n self → (n ≤ n2)%nat → calm_from n2 self.
Proof.
  intros [Hs Hc] Hle. split.
  - intros m n' Hin Hn. apply Hs; [done|lia].
  - intros m k n' Hk Hn. apply Hc; lia.
Qed.


Lemma agrees_runs {A} (c c' : M A) pre post r :
  agrees c c' pre post → pre r → c r = c' r.
Proof. intros Hc Hpre. by apply Hc. Qed.

Lemma agrees_bind {A B} (c c' : M A) (k k' : A → M B) pre mid post :
  agrees c c' pre mid → (∀ a, agrees (k a) (k' a) (mid a) post) →
  agrees (bind c k) (bind c' k') pre post.
Proof.
  intros Hc Hk r Hpre. destruct (Hc r Hpre) as [Heq Hmid]. unfold bind. rewrite Heq.
  destruct (c' r) as [[e|a] r1]; [done|]. by apply Hk, Hmid.
Qed.

Lemma agrees_same {A} (c : M A) (pre : Runtime → Prop) (post : A → Runtime → Prop) :
  (∀ r a r', pre r → c r = (inr a, r') → post a r') → agrees c c pre post.
Proof. intros Hc r Hpre. split; [done|]. intros a r'. by apply Hc. Qed.

Lemma agrees_ret {A} (a : A) (pre : Runtime → Prop) (post : A → Runtime → Prop) :
  (∀ r, pre r → post a r) → agrees (ret a) (ret a) pre post.
Proof. intros Hp. apply agrees_same. intros r a' r' Hpre [= <- <-]. by apply Hp. Qed.

Lemma agrees_any {A} (c c' : M A) (pre : Runtime → Prop) post :
  agrees c c' pre post → agrees c c' pre (λ _ _, True).
Proof. intros Hc r Hpre. split; [by apply Hc|done]. Qed.


Lemma agrees_foldM_in {A B} (f f' : B → A → M B) (inv : B → Runtime → Prop) l b :
  (∀ b a, a ∈ l → agrees (f b a) (f' b a) (inv b) inv) →
  agrees (foldM f b l) (foldM f' b l) (inv b) inv.
Proof.
  revert b. induction l as [|x l IH]; intros b Hf; cbn [foldM].
  - by apply agrees_ret.
  - eapply agrees_bind; [apply Hf; left|]. intros b'. apply IH.
    intros b0 a Hin. apply Hf. by right.
Qed.

Lemma add_agrees_scorable (memory : Memory.t) self :
  agrees (MemoryManager.add memory self) (@MemoryManager.add in_range_host memory self)
    (λ r, scorable_from (clock_reads r) self
          ∧ ∀ n', (clock_reads r ≤ n')%nat →
                  Memory.overflows_at (now_at n') memory = false)
    (λ p r', scorable_from (clock_reads r') p.2).
Proof.
  intros r [Hs Hm]. split; [by apply add_scorable|].
  intros [memory_id self'] r' Hrun.
  apply (add_kept (H := in_range_host)) in Hrun as [Hclock Hsub].
  intros m n' Hin Hn. cbn [snd] in Hin.
  destruct (Hsub m Hin) as [->|Hin']; [apply Hm; lia|apply Hs; [done|lia]].
Qed.

Lemma add_agrees (memory : Memory.t) self :
  agrees (MemoryManager.add memory self) (@MemoryManager.add in_range_host memory self)
    (λ r, calm_from (clock_reads r) self
          ∧ ∀ n', (clock_reads r ≤ n')%nat →
                  Memory.overflows_at (now_at n') memory = false)
    (λ p r', calm_from (clock_reads r') p.2).
Proof.
  intros r [[Hs Hc] Hm].
  destruct (add_agrees_scorable memory self r (conj Hs Hm)) as [Heq Hpost].
  split; [done|]. intros p r' Hrun. split; [by apply Hpost|].
  destruct p as [memory_id self'].
  apply (add_kept (H := in_range_host)) in Hrun as [Hclock _].
  intros m k n' Hk Hn. apply Hc; lia.
Qed.

Lemma run_ops_agrees ops self :
  agrees (run_ops ops self) (@run_ops in_range_host ops self)
    (λ r, scorable_from (clock_reads r) self
          ∧ ∀ (memory : Memory.t) (n' : nat),
              OpAdd memory ∈ ops → (clock_reads r ≤ n')%nat →
              Memory.overflows_at (now_at n') memory = false)
    (λ self' r', scorable_from (clock_reads r') self').
Proof.
  unfold run_ops.
  set (inv := λ (self : MemoryManager.t) r,
         scorable_from (clock_reads r) self
         ∧ ∀ (memory : Memory.t) (n' : nat),
             OpAdd memory ∈ ops → (clock_reads r ≤ n')%nat →
             Memory.overflows_at (now_at n') memory = false).
  intros r Hpre.
  destruct (agrees_foldM_in run_op (@run_op in_range_host) inv ops self) with (r := r)
    as [Heq Hpost]; [|done|].
  - intros self0 [memory|memory_id] Hin; cbn [run_op].
    + intros r0 [Hs Hm].
      destruct (add_agrees_scorable memory self0 r0) as [Heq Hpost].
      { split; [done|]. intros n' Hn. by apply Hm. }
      split; [unfold bind; by rewrite Heq|].
      intros self1 r1 ([memory_id self1'] & r1' & Hadd & [= <- <-])%bind_returns.
      split; [by apply (Hpost _ _ Hadd)|].
      apply (add_kept (H := in_range_host)) in Hadd as [Hclock _].
      intros m n' Hm' Hn. apply Hm; [done|lia].
    + apply agrees_same.
      intros r0 self1 r1 [Hs Hm] ([b self1'] & r1' & Hrem & [= <- <-])%bind_returns.
      apply remove_kept in Hrem as [-> Hsub]. split; [|done].
      intros m n' Hin' Hn. apply Hs; [|done].
      unfold PyDict.values in *. apply list_elem_of_fmap in Hin' as (e & -> & He).
      apply list_elem_of_fmap. exists e. split; [done|by apply Hsub].
  - split; [done|]. intros self' r' Hrun. by apply (Hpost self' r' Hrun).
Qed.

Lemma create_and_add_agrees content memory_type importance related_agents location
    emotion game_time self :
  agrees
    (MemoryManager.create_and_add content memory_type importance related_agents
       location emotion game_time self)
    (@MemoryManager.create_and_add in_range_host content memory_type importance
       related_agents location emotion game_time self)
    (λ r, calm_from (clock_reads r) self)
    (λ p r', calm_from (clock_reads r') p.2).
Proof.
  unfold MemoryManager.create_and_add.
  eapply agrees_bind.
  - apply (agrees_same _ _
             (λ memory r1,
                calm_from (clock_reads r1) self
                ∧ ∀ n', (clock_reads r1 ≤ n')%nat →
                        Memory.overflows_at (now_at n') memory = false)).
    intros r memory r1 Hcalm [Hcreated Hclock]%create_returns.
    split; [by apply (calm_from_mono (clock_reads r))|].
    intros n' Hn. destruct Hcalm as [_ Hc].
    apply (Hc memory (clock_reads r) n'); [done|lia|done].
  - intros memory. eapply agrees_bind; [apply add_agrees|].
    intros p. by apply agrees_ret.
Qed.

Lemma add_memory_agrees content memory_type importance agent :
  agrees (Agent.add_memory content memory_type importance agent)
    (@Agent.add_memory in_range_host content memory_type importance agent)
    (λ r, calm_from (clock_reads r) (Agent.memory agent))
    (λ p r', calm_from (clock_reads r') (Agent.memory p.2)).
Proof.
  unfold Agent.add_memory.
  eapply agrees_bind; [apply create_and_add_agrees|].
  intros p. apply agrees_ret. intros r Hcalm. by destruct agent.
Qed.








Lemma execute_reaction_agrees agent decision :
  agrees (execute_reaction agent decision) (@execute_reaction in_range_host agent decision)
    (λ r, calm_from (clock_reads r) (Agent.memory agent))
    (λ _ _, True).
Proof.
  unfold execute_reaction.
  destruct (negb _); [by apply agrees_ret|].
  destruct (ReactionDecision.reaction_type decision); [by apply agrees_ret| |].
  - eapply agrees_bind; [apply add_memory_agrees|]. intros p1.
    eapply (agrees_bind _ _ _ _ _ (λ _ _, True)); [|intros agent2; by apply agrees_same].
    destruct (Py.truthy _); [|by apply agrees_ret].
    eapply agrees_bind; [apply add_memory_agrees|]. intros p2. by apply agrees_ret.
  - destruct (Py.truthy _); [|by apply agrees_ret].
    eapply agrees_bind; [apply add_memory_agrees|]. intros p. by apply agrees_ret.
Qed.




End Calm.

Section StoreRunsFacts.
Context `{Host} `{!InRange}.
Implicit Types (self : MemoryManager.t) (r : Runtime).

Lemma run_ops_ok ops self r :
  MemoryManager.wf self →
  ∃ self' r',
    run_ops ops self r = (inr self', r')
    ∧ MemoryManager.wf self'
    ∧ same_limits self self'
    ∧ MemoryManager.accumulated_importance self'
      = fold_left Qplus (added_importances ops) (MemoryManager.accumulated_importance self)
    ∧ only_clock r r'
    ∧ ((1 ≤ MemoryManager.max_memories self)%Z →
       (MemoryManager.count self ≤ MemoryManager.max_memories self)%Z →
       (MemoryManager.count self' ≤ MemoryManager.max_memories self')%Z).
Proof.
  revert self r. induction ops as [|op ops IH]; intros self r Hwf.
  - exists self, r. split_and!; auto using only_clock_refl.
    unfold same_limits. auto.
  - unfold run_ops. cbn [foldM]. destruct op as [memory|memory_id]; cbn [run_op].
    + destruct (add_ok memory self r Hwf)
        as (self0 & self1 & r1 & _ & Hrun & _ & Hwf1 & Hlim1 & Hacc1 & _ & Hclock1 & Hcap1).
      unfold bind at 1. rewrite (bind_inr _ _ _ _ _ Hrun). cbn [ret snd].
      destruct (IH self1 r1 Hwf1) as (self' & r' & Hrun' & Hwf' & Hlim' & Hacc' & Hclock' & Hcap').
      exists self', r'. split; [exact Hrun'|]. split_and!; [done| | | |].
      * destruct Hlim1 as (?&?&?), Hlim' as (?&?&?). unfold same_limits.
        split_and!; congruence.
      * cbn. by rewrite Hacc', Hacc1.
      * by eapply only_clock_trans.
      * intros Hmax Hcount. destruct Hlim1 as (Hm&_&_).
        apply Hcap'; [lia|]. apply Hcap1; done.
    + destruct (remove_ok memory_id self r Hwf)
        as (b & self1 & Hrun & Hwf1 & (Hlim1 & Hacc1 & _) & Hle & _ & _).
      unfold bind at 1. rewrite (bind_inr _ _ _ _ _ Hrun). cbn [ret snd].
      destruct (IH self1 r Hwf1) as (self' & r' & Hrun' & Hwf' & Hlim' & Hacc' & Hclock' & Hcap').
      exists self', r'. split; [exact Hrun'|]. split_and!; [done| | |done|].
      * destruct Hlim1 as (?&?&?), Hlim' as (?&?&?). unfold same_limits.
        split_and!; congruence.
      * cbn. by rewrite Hacc', Hacc1.
      * intros Hmax Hcount. destruct Hlim1 as (Hm&_&_).
        apply Hcap'; [lia|]. unfold MemoryManager.count in *. lia.
Qed.

Lemma churn_ok n self r :
  MemoryManager.wf self →
  MemoryManager._memories self = [] →
  (1 ≤ MemoryManager.max_memories self)%Z →
  ∃ self' r',
    run_ops (Sample.churn n) self r = (inr self', r')
    ∧ MemoryManager._memories self' = []
    ∧ MemoryManager.accumulated_importance self'
      = fold_left Qplus (added_importances (Sample.churn n))
          (MemoryManager.accumulated_importance self).
Proof.
  intros Hwf Hempty Hmax.
  destruct (run_ops_ok (Sample.churn n) self r Hwf)
    as (self' & r' & Hrun & _ & _ & Hacc & _ & _).
  exists self', r'. split; [done|]. split; [|done].
  clear Hacc. revert self r self' r' Hwf Hempty Hmax Hrun.
  induction n as [|n IH]; intros self r self' r' Hwf Hempty Hmax Hrun.
  - cbn in Hrun. injection Hrun as <- <-. done.
  - unfold Sample.churn in Hrun. cbn [replicate mjoin list_join] in Hrun.
    change (mjoin (replicate n ?x)) with (Sample.churn n) in Hrun.
    unfold run_ops in Hrun. cbn [app foldM run_op] in Hrun.
    set (memory := Sample.memory "a0" "买咖啡" 10) in *.
    destruct (add_ok memory self r Hwf)
      as (self0 & self1 & r1 & Hcase & Hadd & Hmems & Hwf1 & Hlim1 & _).
    unfold MemoryManager.count in Hcase. rewrite Hempty in Hcase. cbn [length] in Hcase.
    destruct (MemoryManager.max_memories self <=? Z.of_nat 0)%Z eqn:E;
      [apply Z.leb_le in E; lia|].
    destruct Hcase as [-> ->]. rewrite Hempty in Hmems. cbn in Hmems.
    unfold bind at 1 in Hrun. rewrite (bind_inr _ _ _ _ _ Hadd) in Hrun. cbn [ret snd] in Hrun.
    destruct (remove_ok "a0" self1 r Hwf1)
      as (b & self2 & Hrem & Hwf2 & (Hlim2 & _) & _ & Hlen & _).
    unfold bind at 1 in Hrun. unfold bind at 1 in Hrun. rewrite Hrem in Hrun.
    cbn [ret snd] in Hrun.
    eapply (IH self2 r); [done| |..|exact Hrun].
    + rewrite Hmems in Hlen. specialize (Hlen eq_refl). cbn in Hlen.
      destruct (MemoryManager._memories self2); [done|cbn in Hlen; lia].
    + destruct Hlim1 as (?&_), Hlim2 as (?&_). lia.
Qed.

End StoreRunsFacts.

Lemma churn_runs_in_range `{Host} n self r :
  MemoryManager.wf self →
  MemoryManager._memories self = [] →
  (1 ≤ MemoryManager.max_memories self)%Z →
  run_ops (Sample.churn n) self r = @run_ops in_range_host (Sample.churn n) self r.
Proof.
  revert self r. induction n as [|n IH]; intros self r Hwf Hempty Hmax; [done|].
  unfold Sample.churn. cbn [replicate mjoin list_join].
  change (mjoin (replicate n ?x)) with (Sample.churn n).
  unfold run_ops. cbn [app foldM run_op].
  set (memory := Sample.memory "a0" "买咖啡" 10).
  assert (MemoryManager.count self < MemoryManager.max_memories self)%Z as Hroom.
  { unfold MemoryManager.count. rewrite Hempty. cbn. lia. }
  apply bind_eq.
  { apply bind_eq; [by apply add_below_capacity|done]. }
  intros self1 r1 Hrun1.
  destruct (add_ok (H := in_range_host) memory self r Hwf)
    as (self0 & self1' & r1' & Hcase & Hadd & Hmems & Hwf1 & Hlim1 & _).
  unfold bind in Hrun1. rewrite Hadd in Hrun1. injection Hrun1 as <- <-.
  destruct (MemoryManager.max_memories self <=? MemoryManager.count self)%Z eqn:E;
    [apply Z.leb_le in E; lia|].
  destruct Hcase as [-> ->]. rewrite Hempty in Hmems. cbn in Hmems.
  apply bind_eq; [done|]. intros self2 r2 Hrun2.
  destruct (remove_ok "a0" self1' r Hwf1)
    as (b & self2' & Hrem & Hwf2 & (Hlim2 & _) & _ & Hlen & _).
  unfold bind in Hrun2. rewrite Hrem in Hrun2. injection Hrun2 as <- <-.
  apply (IH self2' r Hwf2).
  - rewrite Hmems in Hlen. specialize (Hlen eq_refl). cbn in Hlen.
    destruct (MemoryManager._memories self2'); [done|cbn in Hlen; lia].
  - destruct Hlim1 as (?&_), Hlim2 as (?&_). lia.
Qed.

(** ** The claims about the memory store *)




(** C3 (as stated) fails in a second way: [add] raises.  The store is full
    and holds a memory dated 711 days after the reading of the clock, so
    the eviction computes [2.71828 ** 711]. *)
Lemma add_raises_on_a_memory_of_the_future :
  let later := datetime.mk (739000 + 711) 8 0 0 0 in
  let stored := Memory.mk "a0" EVENT "买咖啡" 5 (Some later) later [] None None ∅ 0 None in
  let self :=
    MemoryManager.mk 1 20 3 [("a0"%string, stored)]
      (<[EVENT := ["a0"%string]]> (MemoryManager._by_type MemoryManager.default))
      ∅ 5 None in
  MemoryManager.wf self
  ∧ @ieee_pow Sample.offline
  ∧ @MemoryManager.add Sample.offline (Sample.memory "a1" "在公园 散步" 5) self Sample.r0
    = (inl OverflowError, mkRuntime 1 0 0).
Proof.
  intros later stored self. split; [reflexivity|]. split.
  - intros y. cbn. split; intros Hy.
    + destruct (Qle_bool 710 y) eqn:E; [|done]. apply Qle_bool_iff in E. lra.
    + by apply Qle_bool_iff.
  - vm_compute. reflexivity.
Qed.

(** C9.  [add] evicts first (when the store is full) and inserts afterwards:
    unless the eviction raises [OverflowError], [add] returns, and the
    dictionary that it leaves is the one that eviction left with the new
    memory filed under its id, so the new memory is in the store when [add]
    returns, whatever its score.  The eviction does not raise when the store
    is below its capacity, nor when the power in the recency score of no
    stored memory is out of range at a later reading of the clock. *)
Theorem add_inserts_after_eviction `{Host} self memory r :
  MemoryManager.wf self →
  (overflows (MemoryManager.add memory self r)
   ∨ ∃ self1 self' r',
       (if (MemoryManager.max_memories self <=? MemoryManager.count self)%Z
        then MemoryManager._forget_least_important self r = (inr self1, r')
        else self1 = self ∧ r' = r)
       ∧ MemoryManager.add memory self r = (inr (Memory.id memory, self'), r')
       ∧ MemoryManager._memories self'
         = PyDict.set (Memory.id memory) memory (MemoryManager._memories self1)
       ∧ PyDict.get (Memory.id memory) (MemoryManager._memories self') = Some memory)
  ∧ ((MemoryManager.count self < MemoryManager.max_memories self)%Z
     ∨ scorable_from (clock_reads r) self →
     ¬ overflows (MemoryManager.add memory self r)).
Proof.
  intros Hwf.
  destruct (add_ok (H := in_range_host) memory self r Hwf)
    as (self1 & self' & r' & Hcase & Hrun & Hmems & _).
  split.
  2:{ intros Hroom Hov.
      assert (MemoryManager.add memory self r
              = @MemoryManager.add in_range_host memory self r) as Heq.
      { destruct Hroom; [by apply add_below_capacity|by apply add_scorable]. }
      rewrite Heq, Hrun in Hov. by apply overflows_inr in Hov. }
  destruct (add_runs_as memory self r) as [Hov|Heq]; [by left|right].
  exists self1, self', r'. split_and!.
  - destruct (MemoryManager.max_memories self <=? MemoryManager.count self)%Z eqn:E;
      [|done].
    destruct (_forget_least_important_runs_as self r) as [Hov|Heq'];
      [|by rewrite Heq'].
    exfalso. apply (overflows_inr (Memory.id memory, self') r').
    rewrite <- Hrun, <- Heq. unfold MemoryManager.add.
    unfold MemoryManager.count in E. rewrite E. by apply overflows_bind.
  - by rewrite Heq.
  - done.
  - rewrite Hmems. apply get_set_eq.
Qed.

Lemma add_inserts_after_eviction_witness :
  MemoryManager.wf Sample.full_store
  ∧ ∃ self1 self' r',
      (if (MemoryManager.max_memories Sample.full_store
           <=? MemoryManager.count Sample.full_store)%Z
       then @MemoryManager._forget_least_important Sample.offline Sample.full_store
              Sample.r0 = (inr self1, r')
       else self1 = Sample.full_store ∧ r' = Sample.r0)
      ∧ @MemoryManager.add Sample.offline Sample.dull Sample.full_store Sample.r0
        = (inr (Memory.id Sample.dull, self'), r')
      ∧ MemoryManager._memories self'
        = PyDict.set (Memory.id Sample.dull) Sample.dull (MemoryManager._memories self1)
      ∧ PyDict.get (Memory.id Sample.dull) (MemoryManager._memories self')
        = Some Sample.dull.
Proof.
  split; [reflexivity|].
  destruct (proj1 (@add_inserts_after_eviction Sample.offline Sample.full_store
                     Sample.dull Sample.r0 eq_refl)) as [[r' Hov]|Hok].
  - vm_compute in Hov. discriminate Hov.
  - exact Hok.
Defined.

(** C10.  [remove] leaves [accumulated_importance] as it is, and so does the
    eviction inside [add]: after any sequence of [add] and [remove] calls
    that meets no [OverflowError] the counter is its old value plus the
    importances of the memories added, in the order of the calls; the
    sequence meets none when the power in the recency score is in range, at
    every later reading of the clock, for the stored memories and for the
    memories added.  The
    memories that paid for a reflection need not be in the store any more:
    after fifteen rounds of adding a memory of importance 10 and removing
    it, a fresh store is empty and [should_reflect] holds. *)
Theorem removal_keeps_accumulated_importance `{Host} :
  (∀ self memory_id r,
     MemoryManager.wf self →
     ∃ removed self',
       MemoryManager.remove memory_id self r = (inr (removed, self'), r)
       ∧ MemoryManager.accumulated_importance self'
         = MemoryManager.accumulated_importance self)
  ∧ (∀ ops self r,
       MemoryManager.wf self →
       (overflows (run_ops ops self r)
        ∨ ∃ self' r',
            run_ops ops self r = (inr self', r')
            ∧ MemoryManager.accumulated_importance self'
              = fold_left Qplus (added_importances ops)
                  (MemoryManager.accumulated_importance self))
       ∧ (scorable_from (clock_reads r) self →
          (∀ (memory : Memory.t) (n' : nat),
             OpAdd memory ∈ ops → (clock_reads r ≤ n')%nat →
             Memory.overflows_at (now_at n') memory = false) →
          ¬ overflows (run_ops ops self r)))
  ∧ (∀ agent r,
       ∃ self' r',
         run_ops (Sample.churn 15) MemoryManager.default r = (inr self', r')
         ∧ MemoryManager.count self' = 0%Z
         ∧ ReflectionEngine.should_reflect reflection_engine
             (Agent.with_memory agent self') = true).
Proof.
  split_and!.
  - intros self memory_id r Hwf.
    destruct (remove_ok memory_id self r Hwf) as (b & self' & Hrun & _ & (_ & Hacc & _) & _).
    by exists b, self'.
  - intros ops self r Hwf.
    destruct (run_ops_ok (H := in_range_host) ops self r Hwf)
      as (self' & r' & Hrun & _ & _ & Hacc & _).
    split.
    + destruct (run_ops_runs_as ops self r) as [Hov|Heq]; [by left|right].
      rewrite Heq. by exists self', r'.
    + intros Hs Hm Hov.
      rewrite (agrees_runs _ _ _ _ r (run_ops_agrees ops self)), Hrun in Hov by done.
      by apply overflows_inr in Hov.
  - intros agent r.
    rewrite churn_runs_in_range by (reflexivity || (cbn; lia)).
    destruct (churn_ok (H := in_range_host) 15 MemoryManager.default r)
      as (self' & r' & Hrun & Hmems & Hacc);
      [reflexivity..|cbn; lia|].
    exists self', r'. split; [done|]. split.
    + unfold MemoryManager.count. by rewrite Hmems.
    + unfold ReflectionEngine.should_reflect. cbn [Agent.memory Agent.with_memory].
      rewrite Hacc. reflexivity.
Qed.

Lemma removal_keeps_accumulated_importance_witness :
  MemoryManager.wf Sample.store2
  ∧ (∃ removed self',
       MemoryManager.remove "a0"%string Sample.store2 Sample.r0
       = (inr (removed, self'), Sample.r0)
       ∧ MemoryManager.accumulated_importance self'
         = MemoryManager.accumulated_importance Sample.store2)
  ∧ (∃ self' r',
       @run_ops Sample.offline [OpAdd Sample.dull; OpRemove "a0"%string; OpRemove "a2"%string]
         Sample.store2 Sample.r0 = (inr self', r')
       ∧ MemoryManager.accumulated_importance self'
         = fold_left Qplus
             (added_importances [OpAdd Sample.dull; OpRemove "a0"%string; OpRemove "a2"%string])
             (MemoryManager.accumulated_importance Sample.store2)).
Proof.
  split; [reflexivity|]. split.
  - apply (proj1 (@removal_keeps_accumulated_importance Sample.offline)). reflexivity.
  - destruct (proj1 (proj1 (proj2 (@removal_keeps_accumulated_importance Sample.offline))
                       [OpAdd Sample.dull; OpRemove "a0"%string; OpRemove "a2"%string]
                       Sample.store2 Sample.r0 eq_refl)) as [[r' Hov]|Hok].
    + vm_compute in Hov. discriminate Hov.
    + exact Hok.
Defined.

Section RetrievalFacts.
Context `{Host} `{!InRange}.
Implicit Types (self : MemoryManager.t) (r : Runtime).

Lemma get_of_elem {V} k (v : V) (d : list (string * V)) :
  NoDup (PyDict.keys d) → (k, v) ∈ d → PyDict.get k d = Some v.
Proof.
  induction d as [|[k' v'] d IH]; cbn; intros Hnd Hin; [by apply elem_of_nil in Hin|].
  apply NoDup_cons in Hnd as [Hni Hnd].
  apply elem_of_cons in Hin as [[= <- <-]|Hin].
  - by rewrite String.eqb_refl.
  - destruct (String.eqb k k') eqn:E; [|auto].
    apply eqb_true in E. subst k'. exfalso. apply Hni.
    unfold PyDict.keys. apply list_elem_of_fmap. by exists (k, v).
Qed.

(** What the loop of [retrieve_relevant] does to each entry: the score is
    computed at some reading of the clock, an entry whose score reaches
    [min_score] is accessed and appended, any other entry is left alone. *)
Lemma score_and_access_ok qk min_score (entries : list (string * Memory.t)) r :
  ∃ scored entries' r',
    MemoryManager.score_and_access qk min_score entries r = (inr (scored, entries'), r')
    ∧ only_clock r r'
    ∧ PyDict.keys entries' = PyDict.keys entries
    ∧ (∀ k m', (k, m') ∈ entries' → ∃ m, (k, m) ∈ entries ∧ Memory.id m' = Memory.id m)
    ∧ (∀ p, p ∈ scored →
         Qle_bool min_score p.2 = true
         ∧ ∃ k m now, (k, m) ∈ entries ∧ p.1 = Memory.accessed_at now m
                      ∧ (k, p.1) ∈ entries')
    ∧ (∀ k m, (k, m) ∈ entries →
         ∃ n, (clock_reads r ≤ n < clock_reads r')%nat ∧
           let s := Memory.retrieval_score_at (now_at n) m (Some qk) in
           if Qle_bool min_score s
           then ∃ now, (Memory.accessed_at now m, s) ∈ scored
                       ∧ (k, Memory.accessed_at now m) ∈ entries'
           else (k, m) ∈ entries').
Proof.
  revert r. induction entries as [|[k0 m0] entries IH]; intros r.
  - exists [], [], r. split_and!; auto using only_clock_refl.
    + intros k m' Hin. by apply elem_of_nil in Hin.
    + intros p Hin. by apply elem_of_nil in Hin.
    + intros k m Hin. by apply elem_of_nil in Hin.
  - cbn [MemoryManager.score_and_access].
    unfold bind at 1. rewrite get_retrieval_score_run. cbv beta iota.
    set (s0 := Memory.retrieval_score_at (now_at (clock_reads r)) m0 (Some qk)).
    set (r1 := mkRuntime (S (clock_reads r)) (uuid_draws r) (llm_calls r)).
    destruct (Qle_bool min_score s0) eqn:Hpass.
    + unfold bind at 1. rewrite access_run. cbv beta iota.
      set (m0' := Memory.accessed_at (now_at (clock_reads r1)) m0).
      set (r2 := mkRuntime (S (clock_reads r1)) (uuid_draws r1) (llm_calls r1)).
      destruct (IH r2) as (scored & entries' & r' & Hrun & Hclock & Hkeys & Hids & Hsc & Hall).
      rewrite (bind_inr _ _ _ _ _ Hrun). cbn [ret fst snd].
      exists ((m0', s0) :: scored), ((k0, m0') :: entries'), r'.
      destruct Hclock as (Hc & Hu & Hl). cbn in Hc, Hu, Hl.
      split_and!.
      * done.
      * unfold only_clock. split_and!; [lia|done..].
      * unfold PyDict.keys in *. cbn. by rewrite Hkeys.
      * intros k m' [[= -> ->]|Hin]%elem_of_cons.
        -- exists m0. split; [apply elem_of_cons; auto|done].
        -- destruct (Hids _ _ Hin) as (m & Hm & Hid). exists m.
           split; [apply elem_of_cons; auto|done].
      * intros p [->|Hin]%elem_of_cons.
        -- split; [done|]. exists k0, m0, (now_at (clock_reads r1)).
           split_and!; [apply elem_of_cons; auto|done|apply elem_of_cons; auto].
        -- destruct (Hsc _ Hin) as (Hp & k & m & now & Hm & Hacc & Hin').
           split; [done|]. exists k, m, now.
           split_and!; [apply elem_of_cons; auto|done|apply elem_of_cons; auto].
      * intros k m [[= -> ->]|Hin]%elem_of_cons.
        -- exists (clock_reads r). split; [cbn in *; lia|]. cbv zeta. fold s0. rewrite Hpass.
           exists (now_at (clock_reads r1)). split; apply elem_of_cons; auto.
        -- destruct (Hall _ _ Hin) as (n & Hn & Hcase). exists n.
           split; [cbn in *; lia|]. cbv zeta in *.
           destruct (Qle_bool min_score (Memory.retrieval_score_at (now_at n) m (Some qk))).
           ++ destruct Hcase as (now & ? & ?). exists now. split; apply elem_of_cons; auto.
           ++ apply elem_of_cons; auto.
    + destruct (IH r1) as (scored & entries' & r' & Hrun & Hclock & Hkeys & Hids & Hsc & Hall).
      rewrite (bind_inr _ _ _ _ _ Hrun). cbn [ret fst snd].
      exists scored, ((k0, m0) :: entries'), r'.
      destruct Hclock as (Hc & Hu & Hl). cbn in Hc, Hu, Hl.
      split_and!.
      * done.
      * unfold only_clock. split_and!; [lia|done..].
      * unfold PyDict.keys in *. cbn. by rewrite Hkeys.
      * intros k m' [[= -> ->]|Hin]%elem_of_cons.
        -- exists m0. split; [apply elem_of_cons; auto|done].
        -- destruct (Hids _ _ Hin) as (m & Hm & Hid). exists m.
           split; [apply elem_of_cons; auto|done].
      * intros p Hin.
        destruct (Hsc _ Hin) as (Hp & k & m & now & Hm & Hacc & Hin').
        split; [done|]. exists k, m, now.
        split_and!; [apply elem_of_cons; auto|done|apply elem_of_cons; auto].
      * intros k m [[= -> ->]|Hin]%elem_of_cons.
        -- exists (clock_reads r). split; [cbn in *; lia|]. cbv zeta. fold s0. rewrite Hpass.
           apply elem_of_cons; auto.
        -- destruct (Hall _ _ Hin) as (n & Hn & Hcase). exists n.
           split; [cbn in *; lia|]. cbv zeta in *.
           destruct (Qle_bool min_score (Memory.retrieval_score_at (now_at n) m (Some qk))).
           ++ destruct Hcase as (now & ? & ?). exists now. split; [done|apply elem_of_cons; auto].
           ++ apply elem_of_cons; auto.
Qed.

Lemma accessed_at_neq now (m : Memory.t) : Memory.accessed_at now m ≠ m.
Proof.
  intros E. apply (f_equal Memory.access_count) in E. cbn in E. lia.
Qed.

Lemma retrieve_relevant_ok query min_score self r :
  MemoryManager.wf self →
  ∃ scored self' r',
    (∀ limit,
       MemoryManager.retrieve_relevant query limit min_score self r
       = (inr (slice_to limit (sorted_desc Qltb snd scored), self'), r'))
    ∧ MemoryManager.wf self'
    ∧ same_counters self self'
    ∧ only_clock r r'
    ∧ (∀ k m,
         PyDict.get k (MemoryManager._memories self) = Some m →
         ∃ n, (clock_reads r ≤ n < clock_reads r')%nat ∧
           let s := Memory.retrieval_score_at (now_at n) m
                      (Some (Memory.extract_keywords query)) in
           if Qle_bool min_score s
           then ∃ now,
                  PyDict.get k (MemoryManager._memories self')
                  = Some (Memory.accessed_at now m)
                  ∧ (Memory.accessed_at now m, s) ∈ scored
           else PyDict.get k (MemoryManager._memories self') = Some m
                ∧ ∀ p, p ∈ scored → Memory.id p.1 ≠ k)
    ∧ (∀ p, p ∈ scored →
         Qle_bool min_score p.2 = true
         ∧ PyDict.get (Memory.id p.1) (MemoryManager._memories self') = Some p.1).
Proof.
  intros Hwf. pose proof Hwf as (Hid & Hty & Hnd)%wf_unfold.
  destruct (score_and_access_ok (Memory.extract_keywords query) min_score
              (MemoryManager._memories self) r)
    as (scored & entries' & r' & Hrun & Hclock & Hkeys & Hids & Hsc & Hall).
  assert (NoDup (PyDict.keys entries')) as Hnd' by (by rewrite Hkeys).
  assert (∀ k m', (k, m') ∈ entries' → Memory.id m' = k) as Hid'.
  { intros k m' Hin. destruct (Hids _ _ Hin) as (m & Hm & ->). by apply Hid. }
  exists scored, (MemoryManager.with_memories self entries'), r'. split_and!.
  - intros limit. unfold MemoryManager.retrieve_relevant.
    rewrite (bind_inr _ _ _ _ _ Hrun). reflexivity.
  - apply wf_unfold. cbn [MemoryManager._memories MemoryManager._by_type
                          MemoryManager.with_memories]. auto.
  - unfold same_counters, same_limits. cbn. auto.
  - done.
  - intros k m Hget. apply get_elem_of in Hget.
    destruct (Hall _ _ Hget) as (n & Hn & Hcase). exists n. split; [done|].
    cbv zeta in *. cbn [MemoryManager._memories MemoryManager.with_memories].
    destruct (Qle_bool min_score _).
    + destruct Hcase as (now & Hin & Hin'). exists now. split; [|done].
      by apply get_of_elem.
    + split; [by apply get_of_elem|].
      intros p Hp Heq. destruct (Hsc _ Hp) as (_ & k2 & m2 & now & Hm2 & Hacc & Hin2).
      assert (k2 = k) as -> by (rewrite <- (Hid' _ _ Hin2); done).
      pose proof (get_of_elem _ _ _ Hnd' Hin2) as G1.
      pose proof (get_of_elem _ _ _ Hnd' Hcase) as G2.
      pose proof (get_of_elem _ _ _ Hnd Hm2) as G3.
      pose proof (get_of_elem _ _ _ Hnd Hget) as G4.
      assert (m2 = m) as -> by congruence.
      assert (p.1 = m) as Hpm by congruence.
      rewrite Hacc in Hpm. by apply accessed_at_neq in Hpm.
  - intros p Hp. destruct (Hsc _ Hp) as (Hpass & k & m & now & Hm & Hacc & Hin).
    split; [done|]. cbn [MemoryManager._memories MemoryManager.with_memories].
    rewrite (Hid' _ _ Hin). by apply get_of_elem.
Qed.

End RetrievalFacts.




Section AgentFacts.
Context `{Host} `{!InRange}.
Implicit Types (self : MemoryManager.t) (r : Runtime) (agent : Agent.t).

(** A handler that returns makes [try ... except] return. *)
Lemma try_except_returns {A} (c : M A) (a0 : A) r :
  ∃ a r', try_except c (ret a0) r = (inr a, r').
Proof.
  unfold try_except. destruct (c r) as [[e|a] r']; cbn; eauto.
Qed.

Lemma create_ok memory_type content importance related_agents location emotion
    game_time r :
  ∃ memory r',
    Memory.create memory_type content importance related_agents location emotion
      game_time r = (inr memory, r')
    ∧ Memory.type memory = memory_type
    ∧ Memory.content memory = content
    ∧ Memory.importance memory = importance
    ∧ llm_calls r' = llm_calls r.
Proof.
  unfold Memory.create. destruct game_time; cbn; eexists _, _; split; reflexivity || auto.
Qed.

Lemma create_and_add_ok content memory_type importance related_agents location
    emotion game_time self r :
  MemoryManager.wf self →
  ∃ memory self' r',
    MemoryManager.create_and_add content memory_type importance related_agents
      location emotion game_time self r = (inr (memory, self'), r')
    ∧ MemoryManager.wf self'
    ∧ same_limits self self'
    ∧ MemoryManager.accumulated_importance self'
      = (MemoryManager.accumulated_importance self + importance)%Q
    ∧ llm_calls r' = llm_calls r
    ∧ Memory.type memory = memory_type
    ∧ Memory.content memory = content
    ∧ Memory.importance memory = importance
    ∧ PyDict.get (Memory.id memory) (MemoryManager._memories self') = Some memory.
Proof.
  intros Hwf. unfold MemoryManager.create_and_add.
  destruct (create_ok memory_type content importance related_agents location emotion
              game_time r) as (memory & r1 & Hcreate & Hty & Hcontent & Himp & Hllm1).
  rewrite (bind_inr _ _ _ _ _ Hcreate).
  destruct (add_ok memory self r1 Hwf)
    as (self1 & self' & r' & _ & Hadd & Hmems & Hwf' & Hlim & Hacc & _ & (_ & _ & Hllm) & _).
  rewrite (bind_inr _ _ _ _ _ Hadd). cbn [ret snd].
  exists memory, self', r'. split_and!; try done.
  - by rewrite Hacc, Himp.
  - congruence.
  - rewrite Hmems. apply get_set_eq.
Qed.

Lemma add_memory_ok content memory_type importance agent r :
  MemoryManager.wf (Agent.memory agent) →
  ∃ memory self' r',
    Agent.add_memory content memory_type importance agent r
    = (inr (memory, Agent.with_memory agent self'), r')
    ∧ MemoryManager.wf self'
    ∧ llm_calls r' = llm_calls r
    ∧ Memory.type memory = memory_type
    ∧ Memory.content memory = content
    ∧ Memory.importance memory = importance
    ∧ PyDict.get (Memory.id memory) (MemoryManager._memories self') = Some memory.
Proof.
  intros Hwf. unfold Agent.add_memory.
  destruct (create_and_add_ok content memory_type importance []
              (Position.location_name (Agent.position agent)) None None
              (Agent.memory agent) r Hwf)
    as (memory & self' & r' & Hrun & Hwf' & _ & _ & Hllm & Hty & Hc & Hi & Hget).
  rewrite (bind_inr _ _ _ _ _ Hrun). cbn [ret fst snd].
  exists memory, self', r'. split_and!; done.
Qed.





Lemma get_ok memory_id self r :
  MemoryManager.wf self →
  ∃ found self' r',
    MemoryManager.get memory_id self r = (inr (found, self'), r')
    ∧ MemoryManager.wf self'.
Proof.
  intros Hwf. pose proof Hwf as (Hid & Hty & Hnd)%wf_unfold.
  unfold MemoryManager.get.
  destruct (PyDict.get memory_id (MemoryManager._memories self)) as [memory|] eqn:Hget;
    [|by eexists _, _, _].
  unfold bind. rewrite access_run. cbn [ret].
  eexists _, _, _. split; [reflexivity|].
  apply wf_unfold. cbn [MemoryManager._memories MemoryManager._by_type
                        MemoryManager.with_memories].
  apply get_elem_of in Hget. split_and!.
  - intros k m [[= -> ->]|Hin]%elem_of_set; [|by apply Hid].
    cbn. by apply Hid.
  - done.
  - rewrite keys_set. by rewrite (mem_elem_of _ _ _ Hget).
Qed.

End AgentFacts.

(** Every store that the program can build is well formed. *)
Lemma reachable_wf `{Host} self : reachable self → MemoryManager.wf self.
Proof.
  induction 1 as [| self memory r memory_id self' r' _ IH Hrun
                  | self content memory_type importance related_agents location
                      emotion game_time r memory self' r' _ IH Hrun
                  | self memory_id r removed self' r' _ IH Hrun
                  | self memory_id r found self' r' _ IH Hrun
                  | self query limit min_score r result self' r' _ IH Hrun
                  | self r old self' r' _ IH Hrun
                  | self _ IH].
  - apply wf_init.
  - apply (runs_as_returns _ _ _ _ _ (add_runs_as memory self)) in Hrun.
    destruct (add_ok (H := in_range_host) memory self r IH)
      as (_ & s & r2 & _ & Hrun' & _ & Hwf & _).
    congruence.
  - apply (runs_as_returns _ _ _ _ _
             (create_and_add_runs_as content memory_type importance related_agents
                location emotion game_time self)) in Hrun.
    destruct (create_and_add_ok (H := in_range_host) content memory_type importance
                related_agents location emotion game_time self r IH)
      as (m & s & r2 & Hrun' & Hwf & _).
    congruence.
  - destruct (remove_ok memory_id self r IH) as (b & s & Hrun' & Hwf & _). congruence.
  - destruct (get_ok memory_id self r IH) as (o & s & r2 & Hrun' & Hwf). congruence.
  - apply (runs_as_returns _ _ _ _ _
             (retrieve_relevant_runs_as query limit min_score self)) in Hrun.
    destruct (retrieve_relevant_ok (H := in_range_host) query min_score self r IH)
      as (scored & s & r2 & Hrun' & Hwf & _).
    rewrite (Hrun' limit) in Hrun. congruence.
  - unfold MemoryManager.reset_accumulated_importance, bind in Hrun.
    cbn in Hrun. injection Hrun as _ <- _.
    pose proof IH as (Hid & Hty & Hnd)%wf_unfold. by apply wf_unfold.
  - pose proof IH as (Hid & Hty & Hnd)%wf_unfold. reflexivity.
Qed.


(** ** The claims about reflection *)




Section ReplanFacts.
Context `{Host} `{!InRange}.
Implicit Types (r : Runtime) (agent : Agent.t).

Lemma llm_generate_unusable req r :
  reply_unusable (llm_calls r) →
  let r' := mkRuntime (clock_reads r) (uuid_draws r) (S (llm_calls r)) in
  llm_generate req r = (inl ServiceError, r')
  ∨ ∃ content,
      llm_generate req r = (inr content, r')
      ∧ _extract_json_from_response content = PyNone.
Proof.
  intros Hbad. specialize (Hbad req). unfold llm_generate. cbv zeta.
  destruct (llm_at (llm_calls r) req) as [content|]; [right|left]; eauto.
Qed.

Lemma replan_from_now_returns agent current_time what_happened r :
  ∃ new_blocks r',
    replan_from_now agent current_time what_happened r = (inr new_blocks, r').
Proof.
  unfold replan_from_now. destruct (Agent.daily_plan agent); [|by eexists _, _].
  apply try_except_returns.
Qed.

Lemma replan_from_now_unusable agent current_time what_happened r :
  reply_unusable (llm_calls r) →
  ∃ r', replan_from_now agent current_time what_happened r = (inr [], r').
Proof.
  intros Hbad. unfold replan_from_now.
  destruct (Agent.daily_plan agent) as [plan|]; [|by eexists].
  unfold try_except, bind.
  match goal with
  | |- context [llm_generate ?req r] =>
      destruct (llm_generate_unusable req r Hbad) as [->|(content & -> & ->)]
  end; by eexists.
Qed.

Lemma execute_reaction_unusable agent decision r :
  MemoryManager.wf (Agent.memory agent) →
  reply_unusable (llm_calls r) →
  ∃ agent' r',
    execute_reaction agent decision r = (inr (true, agent'), r')
    ∧ Agent.daily_plan agent' = Agent.daily_plan agent.
Proof.
  intros Hwf Hbad. unfold execute_reaction.
  destruct (Py.truthy (ReactionDecision.should_react decision)); cbn [negb];
    [|by eexists _, _].
  destruct (ReactionDecision.reaction_type decision).
  - by eexists _, _.
  - destruct (add_memory_ok
                ("中断了" +:+ ActionType_value (CurrentAction.type (Agent.current_action agent))
                 +:+ "：" +:+ format_value (ReactionDecision.reason decision))%string
                EVENT 5 agent r Hwf)
      as (memory1 & self1 & r1 & Hadd1 & Hwf1 & Hllm1 & _).
    rewrite (bind_inr _ _ _ _ _ Hadd1). cbn [snd].
    destruct (Py.truthy (ReactionDecision.reaction decision)) eqn:Hreaction.
    + destruct (add_memory_ok
                  ("反应：" +:+ format_value (ReactionDecision.reaction decision))%string
                  EVENT 5 (Agent.with_memory agent self1) r1 Hwf1)
        as (memory2 & self2 & r2 & Hadd2 & Hwf2 & Hllm2 & _).
      unfold bind at 1. rewrite (bind_inr _ _ _ _ _ Hadd2). cbn [ret snd Agent.with_memory
        Agent.daily_plan].
      destruct (Agent.daily_plan agent) as [plan|] eqn:Hplan; [|by eexists _, _].
      unfold bind at 1. unfold datetime_now at 1. cbv beta iota.
      match goal with
      | |- context [bind (replan_from_now ?a ?t ?w) _ ?rr] =>
          destruct (replan_from_now_unusable a t w rr) as (r3 & Hreplan)
      end.
      { cbn [llm_calls]. by rewrite Hllm2, Hllm1. }
      rewrite (bind_inr _ _ _ _ _ Hreplan). by eexists _, _.
    + unfold bind at 1. cbn [ret Agent.with_memory Agent.daily_plan].
      destruct (Agent.daily_plan agent) eqn:Hplan;
        (eexists _, _; split; [reflexivity|cbn; congruence]).
  - destruct (Py.truthy (ReactionDecision.reaction decision)); [|by eexists _, _].
    destruct (add_memory_ok
                ("注意到：" +:+ format_value (ReactionDecision.reaction decision))%string
                OBSERVATION 4 agent r Hwf)
      as (memory1 & self1 & r1 & Hadd1 & _).
    rewrite (bind_inr _ _ _ _ _ Hadd1). by eexists _, _.
Qed.

End ReplanFacts.

(** ** The claims about planning and reaction *)

(** C7.  [replan_from_now] never raises.  When the reply of the inference
    service is of no use (the call fails, or no value can be extracted from
    its content) it returns the empty list, and [execute_reaction], which
    replaces [broad_strokes] only by a non-empty list, then leaves the
    daily plan of the agent as it was, unless writing a memory raised
    [OverflowError] before, which it does not when the power in the recency
    score is in range for the stored memories and for the memories
    written. *)
Theorem replan_failure_keeps_plan `{Host} :
  (∀ agent current_time what_happened r,
     ∃ new_blocks r',
       replan_from_now agent current_time what_happened r = (inr new_blocks, r'))
  ∧ (∀ agent current_time what_happened r,
       reply_unusable (llm_calls r) →
       ∃ r', replan_from_now agent current_time what_happened r = (inr [], r'))
  ∧ (∀ agent decision r,
       MemoryManager.wf (Agent.memory agent) →
       reply_unusable (llm_calls r) →
       (overflows (execute_reaction agent decision r)
        ∨ ∃ agent' r',
            execute_reaction agent decision r = (inr (true, agent'), r')
            ∧ Agent.daily_plan agent' = Agent.daily_plan agent)
       ∧ (calm_from (clock_reads r) (Agent.memory agent) →
          ¬ overflows (execute_reaction agent decision r))).
Proof.
  split_and!.
  - apply replan_from_now_returns.
  - apply replan_from_now_unusable.
  - intros agent decision r Hwf Hbad.
    pose proof (execute_reaction_unusable (H := in_range_host) agent decision r Hwf Hbad)
      as Hok.
    split.
    + destruct (execute_reaction_runs_as agent decision r) as [Hov|Heq]; [by left|right].
      by rewrite Heq.
    + intros Hcalm Hov. destruct Hok as (agent' & r' & Hrun & _).
      rewrite (agrees_runs _ _ _ _ r (execute_reaction_agrees agent decision)), Hrun in Hov
        by done.
      by apply overflows_inr in Hov.
Qed.

Lemma replan_failure_keeps_plan_witness :
  @reply_unusable Sample.offline (llm_calls Sample.r0)
  ∧ MemoryManager.wf (Agent.memory Sample.agent)
  ∧ (∃ r', @replan_from_now Sample.offline Sample.agent Sample.t0 (PyStr "回应李四")
             Sample.r0 = (inr [], r'))
  ∧ (∃ agent' r',
       @execute_reaction Sample.offline Sample.agent Sample.interrupt Sample.r0
       = (inr (true, agent'), r')
       ∧ Agent.daily_plan agent' = Agent.daily_plan Sample.agent).
Proof.
  split; [intros req; exact I|]. split; [reflexivity|]. split.
  - apply (proj1 (proj2 (@replan_failure_keeps_plan Sample.offline))).
    intros req. exact I.
  - destruct (proj1 (proj2 (proj2 (@replan_failure_keeps_plan Sample.offline))
                       Sample.agent Sample.interrupt Sample.r0 eq_refl (λ req, I)))
      as [[r' Hov]|Hok].
    + vm_compute in Hov. discriminate Hov.
    + exact Hok.
Defined.

(** C6.  On an empty perception [should_react] returns the decision
    "continue" with [should_react] false, and on a perception with
    [being_addressed] it returns the decision "interrupt" with
    [should_react] true and the reaction "回应" followed by the addresser.
    Neither result depends on the host or the agent, and the runtime is
    returned as it was received: no inference call is made. *)
Theorem should_react_short_circuits `{Host} agent perception current_plan r :
  (Perception.is_empty perception = true →
   should_react agent perception current_plan r
   = (inr (ReactionDecision.mk (PyBool false) CONTINUE PyNone
             (PyStr "没有需要反应的事情")), r))
  ∧ (Perception.being_addressed perception = true →
     should_react agent perception current_plan r
     = (inr (ReactionDecision.mk (PyBool true) INTERRUPT
               (PyStr ("回应" +:+ PyStr.format_optional
                                    (Perception.addressed_by perception)))
               (PyStr (PyStr.format_optional (Perception.addressed_by perception)
                       +:+ "在等待回应"))), r)).
Proof.
  unfold should_react. split.
  - intros ->. reflexivity.
  - intros Haddr.
    assert (Perception.is_empty perception = false) as ->.
    { unfold Perception.is_empty. rewrite Haddr.
      by rewrite andb_false_r. }
    rewrite Haddr. reflexivity.
Qed.

Lemma should_react_short_circuits_witness :
  Perception.is_empty Sample.nothing = true
  ∧ Perception.being_addressed Sample.addressed = true
  ∧ @should_react Sample.offline Sample.agent Sample.nothing NoPlan Sample.r0
    = (inr (ReactionDecision.mk (PyBool false) CONTINUE PyNone
              (PyStr "没有需要反应的事情")), Sample.r0)
  ∧ @should_react Sample.answering Sample.agent Sample.addressed NoPlan Sample.r0
    = (inr (ReactionDecision.mk (PyBool true) INTERRUPT
              (PyStr "回应李四") (PyStr "李四在等待回应")), Sample.r0).
Proof.
  split; [reflexivity|]. split; [reflexivity|]. split.
  - apply (proj1 (@should_react_short_circuits Sample.offline Sample.agent
                    Sample.nothing NoPlan Sample.r0)).
    reflexivity.
  - apply (proj2 (@should_react_short_circuits Sample.answering Sample.agent
                    Sample.addressed NoPlan Sample.r0)).
    reflexivity.
Defined.

Section PlanFacts.

Lemma first_covering_find time_str blocks :
  DailyPlan.first_covering time_str blocks
  = List.find (DailyPlan.covers time_str) blocks.
Proof. induction blocks as [|b blocks IH]; cbn; [done|]. by rewrite IH. Qed.

Lemma find_app {A} (f : A → bool) (l1 l2 : list A) :
  List.find f (l1 ++ l2)
  = match List.find f l1 with Some x => Some x | None => List.find f l2 end.
Proof. induction l1 as [|x l1 IH]; cbn; [done|]. by destruct (f x). Qed.

Lemma find_none_forall {A} (f : A → bool) (l : list A) :
  List.find f l = None ↔ Forall (λ x, f x = false) l.
Proof.
  induction l as [|x l IH]; cbn.
  - split; [constructor|done].
  - destruct (f x) eqn:E.
    + split; [done|]. intros [? _]%Forall_cons. congruence.
    + rewrite IH. split; [by constructor|]. by intros [_ ?]%Forall_cons.
Qed.

End PlanFacts.

(** C8.  [get_current_block] returns the first block, in the order current
    tasks, hourly chunks, broad strokes, whose interval [start, end)
    contains the "HH:MM" string of the time, strings being compared as
    Python compares them; it returns nothing exactly when no block
    contains the time; and when no current task contains the time, an
    hourly chunk that does is returned in preference to any broad
    stroke. *)
Theorem get_current_block_finest_first plan time :
  let time_str := datetime.strftime_HM time in
  DailyPlan.get_current_block plan time = first_block_containing plan time
  ∧ (∀ block,
       DailyPlan.covers time_str block = true ↔
         String.compare (PlanBlock.start_time block) time_str ≠ Gt
         ∧ String.compare time_str (PlanBlock.end_time block) = Lt)
  ∧ (DailyPlan.get_current_block plan time = None ↔
       Forall (λ block, DailyPlan.covers time_str block = false)
         (DailyPlan.current_tasks plan ++ DailyPlan.hourly_chunks plan
          ++ DailyPlan.broad_strokes plan))
  ∧ (∀ chunk,
       Forall (λ block, DailyPlan.covers time_str block = false)
         (DailyPlan.current_tasks plan) →
       List.find (DailyPlan.covers time_str) (DailyPlan.hourly_chunks plan)
       = Some chunk →
       DailyPlan.get_current_block plan time = Some chunk).
Proof.
  cbv zeta.
  assert (DailyPlan.get_current_block plan time = first_block_containing plan time) as Heq.
  { unfold DailyPlan.get_current_block, first_block_containing.
    rewrite !first_covering_find, !find_app.
    destruct (List.find _ (DailyPlan.current_tasks plan)); [done|].
    by destruct (List.find _ (DailyPlan.hourly_chunks plan)). }
  split_and!.
  - exact Heq.
  - intros block. unfold DailyPlan.covers, String.leb, String.ltb.
    rewrite andb_true_iff.
    destruct (String.compare (PlanBlock.start_time block) _),
             (String.compare _ (PlanBlock.end_time block)); intuition congruence.
  - rewrite Heq. apply find_none_forall.
  - intros chunk Htasks Hchunk. rewrite Heq. unfold first_block_containing.
    rewrite !find_app. apply find_none_forall in Htasks. by rewrite Htasks, Hchunk.
Qed.

Lemma get_current_block_finest_first_witness :
  let time := datetime.mk 739000 9 30 0 0 in
  Forall (λ block, DailyPlan.covers (datetime.strftime_HM time) block = false)
    (DailyPlan.current_tasks Sample.plan)
  ∧ List.find (DailyPlan.covers (datetime.strftime_HM time))
      (DailyPlan.hourly_chunks Sample.plan)
    = Some (Sample.block "09:00" "10:00" "写代码")
  ∧ List.find (DailyPlan.covers (datetime.strftime_HM time))
      (DailyPlan.broad_strokes Sample.plan)
    = Some (Sample.block "08:00" "12:00" "上午工作")
  ∧ DailyPlan.get_current_block Sample.plan time
    = Some (Sample.block "09:00" "10:00" "写代码").
Proof.
  cbv zeta. split; [constructor|]. split; [reflexivity|]. split; [reflexivity|].
  apply (proj2 (proj2 (proj2
           (get_current_block_finest_first Sample.plan (datetime.mk 739000 9 30 0 0))))).
  - constructor.
  - reflexivity.
Defined.

(** ** The claims about decision execution and the scheduler *)

(** C5 (as amended).  A move that is refused, because the target resolves to
    no location or to a full one, makes [execute_decision] return [False]
    without raising; the world is as it was, and so is the agent except for
    [current_action.thinking], which has been set to the thinking of the
    decision before the action was looked at. *)
Theorem refused_move_changes_only_thinking `{Host} agent decision w r :
  Decision.action decision = MOVE →
  move_refused (Decision.target decision) w →
  execute_decision agent decision w r
  = (inr (false,
          Agent.with_action agent (Agent.state agent)
            (CurrentAction.with_thinking (Agent.current_action agent)
               (Decision.thinking decision)),
          w), r).
Proof.
  intros Haction Hrefused. unfold execute_decision. rewrite Haction.
  destruct (Py.truthy (Decision.target decision)) eqn:Htarget; [|reflexivity].
  destruct Hrefused as [Hfalse|[Hnone|(found & location & Hfound & Hloc & Hfull)]].
  - congruence.
  - rewrite Hnone. reflexivity.
  - rewrite Hfound. cbn [bind ret]. unfold bind at 1. cbv beta iota. unfold ret at 1.
    cbv beta iota. unfold move_agent. cbn [Agent.id Agent.with_action].
    destruct (negb (bool_decide (Agent.id agent ∈ AgentManager._agents (agent_manager w))));
      [reflexivity|].
    rewrite Hloc, Hfull. reflexivity.
Qed.

Lemma refused_move_changes_only_thinking_witness :
  Decision.action (Sample.move_to "图书馆" "去看书") = MOVE
  ∧ Decision.action (Sample.move_to "咖啡馆" "去喝咖啡") = MOVE
  ∧ @move_refused Sample.offline (Decision.target (Sample.move_to "图书馆" "去看书"))
      Sample.world
  ∧ @move_refused Sample.offline (Decision.target (Sample.move_to "咖啡馆" "去喝咖啡"))
      Sample.world
  ∧ @execute_decision Sample.offline Sample.agent (Sample.move_to "图书馆" "去看书")
      Sample.world Sample.r0
    = (inr (false,
            Agent.with_action Sample.agent ACTIVE
              (CurrentAction.mk WORK PyNone PyNone Sample.t0 60 0 (PyStr "去看书")),
            Sample.world), Sample.r0)
  ∧ @execute_decision Sample.offline Sample.agent (Sample.move_to "咖啡馆" "去喝咖啡")
      Sample.world Sample.r0
    = (inr (false,
            Agent.with_action Sample.agent ACTIVE
              (CurrentAction.mk WORK PyNone PyNone Sample.t0 60 0 (PyStr "去喝咖啡")),
            Sample.world), Sample.r0).
Proof.
  assert (@move_refused Sample.offline (Decision.target (Sample.move_to "图书馆" "去看书"))
            Sample.world) as Hmissing.
  { right. left. reflexivity. }
  assert (@move_refused Sample.offline (Decision.target (Sample.move_to "咖啡馆" "去喝咖啡"))
            Sample.world) as Hfull.
  { right. right. exists Sample.cafe, Sample.cafe. split_and!; reflexivity. }
  split; [reflexivity|]. split; [reflexivity|]. split; [exact Hmissing|].
  split; [exact Hfull|]. split.
  - apply (@refused_move_changes_only_thinking Sample.offline Sample.agent
             (Sample.move_to "图书馆" "去看书") Sample.world Sample.r0 eq_refl Hmissing).
  - apply (@refused_move_changes_only_thinking Sample.offline Sample.agent
             (Sample.move_to "咖啡馆" "去喝咖啡") Sample.world Sample.r0 eq_refl Hfull).
Defined.

(** C5 (as stated) fails: the move to a place that does not exist returns
    [False], and the current action of the agent is not what it was. *)
Lemma refused_move_overwrites_thinking :
  ∃ agent',
    @execute_decision Sample.offline Sample.agent (Sample.move_to "图书馆" "去看书")
      Sample.world Sample.r0
    = (inr (false, agent', Sample.world), Sample.r0)
    ∧ CurrentAction.thinking (Agent.current_action Sample.agent) = PyNone
    ∧ CurrentAction.thinking (Agent.current_action agent') = PyStr "去看书"
    ∧ agent' ≠ Sample.agent.
Proof.
  eexists. split; [vm_compute; reflexivity|].
  split; [reflexivity|]. split; [reflexivity|].
  intros E. apply (f_equal (λ a, CurrentAction.thinking (Agent.current_action a))) in E.
  discriminate E.
Qed.

(** The two writers of a note, on a host whose power stays in range, for
    every agent with a well-formed store and every note whose reaction is a
    non-empty string: the scheduler files the
    bare text as an Event of importance 3, [execute_reaction] files the
    prefixed text as an Observation of importance 4. *)
Lemma note_writers_differ `{Host} `{!InRange} agent decision w text r :
  MemoryManager.wf (Agent.memory agent) →
  Py.truthy (ReactionDecision.should_react decision) = true →
  ReactionDecision.reaction_type decision = NOTE →
  ReactionDecision.reaction decision = PyStr text →
  PyStr.truthy text = true →
  (∃ memory self' r',
     DecisionScheduler.act_on_reaction agent decision w r
     = (inr (DecisionScheduler.GoesOn, Agent.with_memory agent self', w), r')
     ∧ PyDict.get (Memory.id memory) (MemoryManager._memories self') = Some memory
     ∧ Memory.type memory = EVENT
     ∧ Memory.importance memory = 3%Q
     ∧ Memory.content memory = text)
  ∧ (∃ memory self' r',
       execute_reaction agent decision r
       = (inr (true, Agent.with_memory agent self'), r')
       ∧ PyDict.get (Memory.id memory) (MemoryManager._memories self') = Some memory
       ∧ Memory.type memory = OBSERVATION
       ∧ Memory.importance memory = 4%Q
       ∧ Memory.content memory = ("注意到：" +:+ text)%string).
Proof.
  intros Hwf Hreact Hnote Hreaction Htext. split.
  - unfold DecisionScheduler.act_on_reaction.
    rewrite Hreact, Hnote, Hreaction. cbn [Py.truthy]. rewrite Htext.
    cbn [Agent.add_memory_value].
    destruct (add_memory_ok text EVENT 3 agent r Hwf)
      as (memory & self' & r' & Hadd & _ & _ & Hty & Hcontent & Himp & Hget).
    rewrite (bind_inr _ _ _ _ _ Hadd). cbn [ret snd].
    exists memory, self', r'. split_and!; done.
  - unfold execute_reaction.
    rewrite Hreact, Hnote, Hreaction. cbn [negb Py.truthy format_value]. rewrite Htext.
    destruct (add_memory_ok ("注意到：" +:+ text)%string OBSERVATION 4 agent r Hwf)
      as (memory & self' & r' & Hadd & _ & _ & Hty & Hcontent & Himp & Hget).
    rewrite (bind_inr _ _ _ _ _ Hadd). cbn [ret snd].
    exists memory, self', r'. split_and!; done.
Qed.

(** C4 (the code at the failing input).  Acting on the note "门口有人经过"
    the scheduler files an Event memory of importance 3 whose content is the
    text of the reaction, and goes on with the current action untouched;
    [execute_reaction], on the same decision, files an Observation memory of
    importance 4 whose content is "注意到：门口有人经过". *)
Theorem scheduler_files_note_as_event :
  (∃ memory agent' r',
     @DecisionScheduler.act_on_reaction Sample.offline Sample.agent Sample.note
       Sample.world Sample.r0
     = (inr (DecisionScheduler.GoesOn, agent', Sample.world), r')
     ∧ PyDict.get "m0"%string (MemoryManager._memories (Agent.memory agent')) = Some memory
     ∧ Memory.type memory = EVENT
     ∧ Memory.importance memory = 3%Q
     ∧ Memory.content memory = "门口有人经过"%string
     ∧ Agent.current_action agent' = Agent.current_action Sample.agent)
  ∧ (∃ memory agent' r',
       @execute_reaction Sample.offline Sample.agent Sample.note Sample.r0
       = (inr (true, agent'), r')
       ∧ PyDict.get "m0"%string (MemoryManager._memories (Agent.memory agent')) = Some memory
       ∧ Memory.type memory = OBSERVATION
       ∧ Memory.importance memory = 4%Q
       ∧ Memory.content memory = "注意到：门口有人经过"%string
       ∧ Agent.current_action agent' = Agent.current_action Sample.agent).
Proof.
  split.
  - eexists _, _, _. split; [vm_compute; reflexivity|].
    split; [vm_compute; reflexivity|]. split_and!; reflexivity.
  - eexists _, _, _. split; [vm_compute; reflexivity|].
    split; [vm_compute; reflexivity|]. split_and!; reflexivity.
Qed.

(** ** More on dictionaries, slices and sorting *)

Section DictFacts2.
Context {V : Type}.
Implicit Types (d : list (string * V)) (k : string) (v : V).

Lemma get_del_ne k k' d : k ≠ k' → PyDict.get k' (PyDict.del k d) = PyDict.get k' d.
Proof.
  intros Hne. induction d as [|[k0 v0] d IH]; [done|]. cbn.
  destruct (String.eqb k k0) eqn:Hk.
  - apply eqb_true in Hk as <-.
    destruct (String.eqb k' k) eqn:Hk'; [|done].
    apply eqb_true in Hk'. congruence.
  - cbn. by rewrite IH.
Qed.

Lemma get_not_key k d : k ∉ PyDict.keys d → PyDict.get k d = None.
Proof.
  induction d as [|[k0 v0] d IH]; [done|]. cbn. intros Hk.
  apply not_elem_of_cons in Hk as [Hne Hk].
  destruct (String.eqb k k0) eqn:E; [apply eqb_true in E; congruence|auto].
Qed.

Lemma get_del_eq k d : NoDup (PyDict.keys d) → PyDict.get k (PyDict.del k d) = None.
Proof.
  induction d as [|[k0 v0] d IH]; [done|]. cbn. intros [Hk0 Hnd]%NoDup_cons.
  destruct (String.eqb k k0) eqn:E.
  - apply eqb_true in E as ->. by apply get_not_key.
  - cbn. rewrite E. auto.
Qed.

Lemma del_absent k d : PyDict.mem k d = false → PyDict.del k d = d.
Proof.
  unfold PyDict.mem. induction d as [|[k0 v0] d IH]; [done|]. cbn.
  destruct (String.eqb k k0); [done|]. intros Hk. by rewrite IH.
Qed.


Lemma length_set_mem k v d :
  PyDict.mem k d = true → length (PyDict.set k v d) = length d.
Proof.
  unfold PyDict.mem. induction d as [|[k0 v0] d IH]; [done|]. cbn.
  destruct (String.eqb k k0); [done|]. intros Hk. cbn. by rewrite IH.
Qed.

Lemma elem_of_del_ne k k' v d : k ≠ k' → (k', v) ∈ d → (k', v) ∈ PyDict.del k d.
Proof.
  intros Hne. induction d as [|[k0 v0] d IH]; [done|]. cbn.
  intros [Heq|Hin]%elem_of_cons.
  - injection Heq as <- <-. destruct (String.eqb k k') eqn:E.
    + apply eqb_true in E. congruence.
    + left.
  - destruct (String.eqb k k0); [done|]. right. auto.
Qed.

Lemma mem_get_some k d : PyDict.mem k d = true ↔ is_Some (PyDict.get k d).
Proof.
  unfold PyDict.mem. destruct (PyDict.get k d); split; eauto.
  - done.
  - by intros [? ?].
Qed.

End DictFacts2.

Lemma list_remove_keeps x y l l' :
  list_remove x l = Some l' → y ≠ x → y ∈ l → y ∈ l'.
Proof.
  revert l'. induction l as [|z l IH]; intros l'; [done|]. cbn.
  destruct (String.eqb x z) eqn:E.
  - apply eqb_true in E as <-. intros [= <-] Hne [?|?]%elem_of_cons; congruence.
  - destruct (list_remove x l) as [l''|]; [|done].
    intros [= <-] Hne [->|Hin]%elem_of_cons; [left|right; eauto].
Qed.

Lemma slice_to_take {A} (n : Z) (l : list A) : ∃ k, slice_to n l = take k l.
Proof. unfold slice_to. destruct (0 <=? n)%Z; eauto. Qed.

Lemma slice_to_length {A} (n : Z) (l : list A) :
  length (slice_to n l)
  = if (0 <=? n)%Z then Nat.min (Z.to_nat n) (length l)
    else (length l - Z.to_nat (- n))%nat.
Proof.
  unfold slice_to. destruct (0 <=? n)%Z; rewrite length_take; lia.
Qed.

Lemma slice_to_elem_of {A} (n : Z) (l : list A) x : x ∈ slice_to n l → x ∈ l.
Proof. destruct (slice_to_take n l) as [k ->]. apply subseteq_take. Qed.

Lemma StronglySorted_take {A} (R : A → A → Prop) k l :
  StronglySorted R l → StronglySorted R (take k l).
Proof.
  intros Hs. rewrite <- (take_drop k l) in Hs.
  by apply StronglySorted_app_1_l in Hs.
Qed.

Section SortFacts2.
Context {A K : Type} (ltb : K → K → bool) (key : A → K).
Hypothesis ltb_asym : ∀ a b, ltb a b = true → ltb b a = false.
Hypothesis geb_trans : ∀ a b c, ltb a b = false → ltb b c = false → ltb a c = false.

Lemma insert_desc_sorted x l : descending ltb key l → descending ltb key (insert_desc ltb key x l).
Proof.
  unfold descending. induction 1 as [|y l Hs IH Hy]; cbn.
  - repeat constructor.
  - destruct (ltb (key x) (key y)) eqn:E.
    + constructor; [done|]. rewrite insert_desc_perm. constructor; auto.
    + constructor; [by constructor|]. constructor; [done|].
      eapply Forall_impl; [exact Hy|]. cbn. eauto.
Qed.

Lemma sorted_desc_sorted l : descending ltb key (sorted_desc ltb key l).
Proof.
  induction l as [|x l IH]; cbn; [constructor|]. by apply insert_desc_sorted.
Qed.

Lemma insert_asc_sorted x l : ascending ltb key l → ascending ltb key (insert_asc ltb key x l).
Proof.
  unfold ascending. induction 1 as [|y l Hs IH Hy]; cbn.
  - repeat constructor.
  - destruct (ltb (key y) (key x)) eqn:E.
    + constructor; [done|]. rewrite insert_asc_perm. constructor; auto.
    + constructor; [by constructor|]. constructor; [done|].
      eapply Forall_impl; [exact Hy|]. cbn. eauto.
Qed.

Lemma sorted_asc_sorted l : ascending ltb key (sorted_asc ltb key l).
Proof.
  induction l as [|x l IH]; cbn; [constructor|]. by apply insert_asc_sorted.
Qed.

End SortFacts2.

Lemma Qltb_asym a b : Qltb a b = true → Qltb b a = false.
Proof.
  unfold Qltb. rewrite negb_true_iff, negb_false_iff. intros Hba.
  apply Qle_bool_iff. destruct (Qlt_le_dec b a) as [Hlt|Hle].
  - apply Qlt_le_weak, Qle_bool_iff in Hlt. congruence.
  - done.
Qed.

Lemma Qltb_false a b : Qltb a b = false ↔ (b <= a)%Q.
Proof. unfold Qltb. rewrite negb_false_iff. apply Qle_bool_iff. Qed.

Lemma Qgeb_trans a b c : Qltb a b = false → Qltb b c = false → Qltb a c = false.
Proof. rewrite !Qltb_false. intros ? ?. by eapply Qle_trans. Qed.



Section StoreFacts2.
Context `{Host} `{!InRange}.
Implicit Types (self : MemoryManager.t) (r : Runtime).

Lemma remove_run memory_id self r :
  MemoryManager.wf self →
  ∃ self',
    MemoryManager.remove memory_id self r
    = (inr (PyDict.mem memory_id (MemoryManager._memories self), self'), r)
    ∧ MemoryManager._memories self'
      = PyDict.del memory_id (MemoryManager._memories self)
    ∧ (PyDict.mem memory_id (MemoryManager._memories self) = false → self' = self)
    ∧ (∀ ty k, k ≠ memory_id → k ∈ MemoryManager.listed self ty → k ∈ MemoryManager.listed self' ty).
Proof.
  intros Hwf. pose proof Hwf as (Hid & Hty & Hnd)%wf_unfold.
  unfold MemoryManager.remove.
  destruct (PyDict.mem memory_id (MemoryManager._memories self)) eqn:Hmem; cbn.
  2:{ exists self. split_and!; auto. by rewrite del_absent. }
  unfold PyDict.getitem, PyDict.delitem. rewrite Hmem.
  pose proof Hmem as Hget. unfold PyDict.mem in Hget.
  destruct (PyDict.get memory_id (MemoryManager._memories self)) as [memory|] eqn:Hg;
    [clear Hget|done].
  unfold bind at 1. cbn.
  destruct (Hty (Memory.type memory)) as [ids Hids]. rewrite Hids.
  unfold bind at 1. cbn.
  set (by_type' := if list_mem memory_id ids then _ else _).
  assert (∃ bt, by_type' r = (inr bt, r)
            ∧ ∀ ty k, k ≠ memory_id → k ∈ MemoryManager.listed self ty → k ∈ default [] (bt !! ty))
    as (bt & Hbt & Hbt_keeps).
  { subst by_type'. destruct (list_mem memory_id ids) eqn:E.
    - destruct (list_remove_present _ _ E) as [ids' Hrm]. rewrite Hrm. cbn.
      eexists. split; [done|].
      intros ty k Hne. unfold MemoryManager.listed.
      destruct (decide (Memory.type memory = ty)) as [<-|Hty'].
      + rewrite lookup_insert_eq, Hids. cbn. by eapply list_remove_keeps.
      + by rewrite lookup_insert_ne.
    - eexists. split; [done|]. auto. }
  rewrite (bind_inr _ _ _ _ _ Hbt).
  destruct (unindex_agents_ok memory_id (Memory.related_agents memory)
              (MemoryManager._by_agent self) r) as [ba Hba].
  rewrite (bind_inr _ _ _ _ _ Hba). cbn.
  eexists. split; [reflexivity|]. cbn. split_and!; auto. done.
Qed.

Lemma remove_each_run (memories : list Memory.t) self r :
  MemoryManager.wf self →
  NoDup (Memory.id <$> memories) →
  (∀ m, m ∈ memories → PyDict.mem (Memory.id m) (MemoryManager._memories self) = true) →
  ∃ self',
    foldM (λ self' memory, p <- MemoryManager.remove (Memory.id memory) self' ;; ret p.2)
      self memories r = (inr self', r)
    ∧ MemoryManager.wf self'
    ∧ same_counters self self'
    ∧ (length (MemoryManager._memories self') + length memories
       = length (MemoryManager._memories self))%nat
    ∧ (∀ k v, (k, v) ∈ MemoryManager._memories self' ↔
              (k, v) ∈ MemoryManager._memories self ∧ k ∉ Memory.id <$> memories)
    ∧ (∀ ty k, k ∉ Memory.id <$> memories → k ∈ MemoryManager.listed self ty → k ∈ MemoryManager.listed self' ty).
Proof.
  revert self. induction memories as [|m memories IH]; intros self Hwf Hnd Hin; cbn.
  - exists self. split_and!; auto using same_counters_refl.
    intros k v. split; [|tauto]. intros ?. split; [done|]. apply not_elem_of_nil.
  - cbn in Hnd. apply NoDup_cons in Hnd as [Hm Hnd].
    destruct (remove_ok (Memory.id m) self r Hwf)
      as (b & self1 & Hrun & Hwf1 & Hsame1 & _ & Hlen1 & _).
    destruct (remove_run (Memory.id m) self r Hwf)
      as (self1' & Hrun' & Hmems1 & _ & Hlisted1).
    rewrite Hrun in Hrun'. injection Hrun' as Hb <-.
    unfold bind at 1. rewrite (bind_inr _ _ _ _ _ Hrun). cbn.
    pose proof Hwf as (_ & _ & Hkeys)%wf_unfold.
    destruct (IH self1 Hwf1 Hnd) as (self' & Hrun2 & Hwf' & Hsame' & Hlen' & Hmems' & Hlisted').
    { intros m' Hm'. unfold PyDict.mem. rewrite Hmems1, get_del_ne.
      - apply (Hin m'). by right.
      - intros Heq. apply Hm. rewrite Heq. apply list_elem_of_fmap. eauto. }
    exists self'. split_and!; auto.
    + by eapply same_counters_trans.
    + specialize (Hlen1 (Hin m (list_elem_of_here _ _))). lia.
    + intros k v. rewrite Hmems', Hmems1, not_elem_of_cons. split.
      * intros [Hdel Hk]. split_and!; [by eapply elem_of_del| |done].
        intros ->. apply get_of_elem in Hdel.
        -- by rewrite get_del_eq in Hdel.
        -- rewrite <- Hmems1. by apply wf_unfold in Hwf1 as (_ & _ & ?).
      * intros (Hkv & Hne & Hk). split; [|done]. by apply elem_of_del_ne.
    + intros ty k [Hne Hk]%not_elem_of_cons Hl. apply Hlisted'; [done|].
      by apply Hlisted1.
Qed.

Lemma score_all_run (memories : list Memory.t) r :
  mapM (λ m, s <- Memory.get_retrieval_score m None ;; ret (s, m)) memories r
  = (inr (imap (λ i m, (Memory.retrieval_score_at (now_at (clock_reads r + i)) m None, m))
            memories),
     mkRuntime (clock_reads r + length memories) (uuid_draws r) (llm_calls r)).
Proof.
  revert r. induction memories as [|m memories IH]; intros r.
  - cbn. destruct r. cbn. by rewrite Nat.add_0_r.
  - cbn [mapM]. unfold bind at 1. unfold bind at 1.
    rewrite get_retrieval_score_run. cbn [ret].
    unfold bind at 1. rewrite IH. cbn. rewrite Nat.add_0_r.
    unfold ret. f_equal.
    + do 2 f_equal. apply imap_ext. intros i x _. cbn. do 3 f_equal. lia.
    + f_equal. lia.
Qed.

End StoreFacts2.

Lemma imap_snd {A B} (f : nat → A → B) (l : list A) :
  (imap (λ i x, (f i x, x)) l).*2 = l.
Proof.
  revert f. induction l as [|x l IH]; intros f; cbn; [done|].
  f_equal. apply (IH (f ∘ S)).
Qed.

Lemma slice_to_fmap {A B} (f : A → B) n (l : list A) :
  slice_to n (f <$> l) = f <$> slice_to n l.
Proof. unfold slice_to. rewrite length_fmap. destruct (0 <=? n)%Z; by rewrite fmap_take. Qed.

Lemma NoDup_take {A} k (l : list A) : NoDup l → NoDup (take k l).
Proof. intros Hl. eapply sublist_NoDup; [exact Hl|apply sublist_take]. Qed.

Section EvictionFacts.
Context `{Host} `{!InRange}.
Implicit Types (self : MemoryManager.t) (r : Runtime).

Lemma stored_ids self :
  MemoryManager.wf self →
  Memory.id <$> PyDict.values (MemoryManager._memories self)
  = PyDict.keys (MemoryManager._memories self).
Proof.
  intros (Hid & _ & _)%wf_unfold. unfold PyDict.values, PyDict.keys.
  induction (MemoryManager._memories self) as [|[k v] d IH]; [done|]. cbn. f_equal.
  - apply (Hid k v). left.
  - apply IH. intros k' m' Hin. apply Hid. by right.
Qed.

Lemma tenth_le (n : nat) :
  (1 ≤ n)%nat → (Z.to_nat (Z.max 1 (Z.of_nat n / 10)) ≤ n)%nat.
Proof.
  intros Hn. assert (Z.of_nat n / 10 ≤ Z.of_nat n)%Z.
  { apply Z.div_le_upper_bound; lia. }
  lia.
Qed.

Lemma _forget_least_important_run self r :
  MemoryManager.wf self →
  MemoryManager._memories self ≠ [] →
  let scored :=
    imap (λ i m, (Memory.retrieval_score_at (now_at (clock_reads r + i)) m None, m))
      (PyDict.values (MemoryManager._memories self)) in
  let evicted :=
    slice_to (Z.max 1 (MemoryManager.count self / 10)) (sorted_asc Qltb fst scored) in
  ∃ self',
    MemoryManager._forget_least_important self r
    = (inr self',
       mkRuntime (clock_reads r + length (MemoryManager._memories self))
         (uuid_draws r) (llm_calls r))
    ∧ MemoryManager.wf self'
    ∧ same_counters self self'
    ∧ MemoryManager.count self'
      = (MemoryManager.count self - Z.max 1 (MemoryManager.count self / 10))%Z
    ∧ (∀ k v, (k, v) ∈ MemoryManager._memories self' ↔
              (k, v) ∈ MemoryManager._memories self ∧ k ∉ Memory.id <$> evicted.*2)
    ∧ (∀ p q, p ∈ evicted → q ∈ scored →
              PyDict.mem (Memory.id q.2) (MemoryManager._memories self') = true →
              (p.1 <= q.1)%Q)
    ∧ (∀ ty k, k ∉ Memory.id <$> evicted.*2 →
               k ∈ MemoryManager.listed self ty → k ∈ MemoryManager.listed self' ty).
Proof.
  intros Hwf Hne scored evicted.
  pose proof Hwf as (Hid & _ & Hnd)%wf_unfold.
  assert (scored.*2 = PyDict.values (MemoryManager._memories self)) as Hsnd
    by apply imap_snd.
  assert (sorted_asc Qltb fst scored ≡ₚ scored) as Hperm by apply sorted_asc_perm.
  assert (length (sorted_asc Qltb fst scored) = length (MemoryManager._memories self))
    as Hlen.
  { rewrite Hperm. subst scored. rewrite length_imap. unfold PyDict.values.
    by rewrite length_fmap. }
  assert (NoDup (Memory.id <$> evicted.*2)) as Hnd_ev.
  { subst evicted. rewrite <- !slice_to_fmap.
    destruct (slice_to_take (Z.max 1 (MemoryManager.count self / 10))
                (Memory.id <$> (sorted_asc Qltb fst scored).*2)) as [k ->].
    apply NoDup_take. rewrite Hperm, Hsnd, stored_ids; done. }
  assert (∀ m, m ∈ evicted.*2 →
            PyDict.mem (Memory.id m) (MemoryManager._memories self) = true) as Hin_ev.
  { intros m Hm. subst evicted. rewrite <- slice_to_fmap in Hm.
    apply slice_to_elem_of in Hm. rewrite Hperm, Hsnd in Hm.
    unfold PyDict.values in Hm. apply list_elem_of_fmap in Hm as ([k v] & -> & Hkv).
    cbn. rewrite (Hid _ _ Hkv). by eapply mem_elem_of. }
  destruct (remove_each_run evicted.*2 self
              (mkRuntime (clock_reads r + length (MemoryManager._memories self))
                 (uuid_draws r) (llm_calls r)) Hwf Hnd_ev Hin_ev)
    as (self' & Hrun & Hwf' & Hsame & Hcount & Hmems & Hlisted).
  assert (length evicted.*2
          = Z.to_nat (Z.max 1 (MemoryManager.count self / 10))) as Hlen_ev.
  { subst evicted. rewrite length_fmap, slice_to_length, Hlen.
    destruct (0 <=? Z.max 1 (MemoryManager.count self / 10))%Z eqn:E; [|lia].
    unfold MemoryManager.count.
    assert (1 ≤ length (MemoryManager._memories self))%nat
      by (destruct (MemoryManager._memories self); [done|cbn; lia]).
    pose proof (tenth_le _ ltac:(eassumption)). lia. }
  exists self'. split_and!; try done.
  - unfold MemoryManager._forget_least_important.
    assert (∀ a b : M MemoryManager.t,
              match MemoryManager._memories self with [] => a | _ :: _ => b end = b)
      as -> by (intros; by destruct (MemoryManager._memories self)).
    unfold MemoryManager.sorted_by_retrieval_score.
    unfold bind at 1. unfold bind at 1. rewrite score_all_run. cbn [ret].
    fold scored. rewrite !length_fmap, Hlen.
    unfold PyDict.values at 1. rewrite length_fmap.
    rewrite slice_to_fmap. exact Hrun.
  - unfold MemoryManager.count in *. lia.
  - intros p q Hp Hq Hkept.
    apply Qltb_false.
    destruct (slice_to_take (Z.max 1 (MemoryManager.count self / 10))
                (sorted_asc Qltb fst scored)) as [k Hk].
    fold evicted in Hk.
    assert (q ∈ drop k (sorted_asc Qltb fst scored)) as Hq'.
    { rewrite <- Hperm, <- (take_drop k (sorted_asc Qltb fst scored)) in Hq.
      apply elem_of_app in Hq as [Hq|Hq]; [|done]. exfalso.
      apply mem_get_some in Hkept as [v Hv]. apply get_elem_of in Hv.
      apply Hmems in Hv as [_ Hv]. apply Hv.
      apply list_elem_of_fmap. exists q.2. split; [done|].
      apply list_elem_of_fmap. exists q. split; [done|]. by rewrite Hk. }
    rewrite Hk in Hp.
    pose proof (sorted_asc_sorted Qltb fst Qltb_asym Qgeb_trans scored) as Hs.
    unfold ascending in Hs.
    rewrite <- (take_drop k (sorted_asc Qltb fst scored)) in Hs.
    exact (StronglySorted_app_1_elem_of _ _ _ _ _ Hs Hp Hq').
Qed.

End EvictionFacts.

(** ** Eviction, lookup and removal *)





(** X3.  [remove] returns whether the id was stored and never raises on a
    store that its own methods built.  Afterwards the id is not stored, every
    other id maps to the memory it mapped to, the store is smaller by one if
    the id was there and is the same store if not, the counters are kept,
    and a second [remove] of the id returns [False]. *)
Theorem remove_deletes_only_that_memory `{Host} self memory_id r :
  MemoryManager.wf self →
  ∃ self',
    MemoryManager.remove memory_id self r
    = (inr (PyDict.mem memory_id (MemoryManager._memories self), self'), r)
    ∧ MemoryManager.wf self'
    ∧ PyDict.get memory_id (MemoryManager._memories self') = None
    ∧ (∀ k, k ≠ memory_id →
            PyDict.get k (MemoryManager._memories self')
            = PyDict.get k (MemoryManager._memories self))
    ∧ MemoryManager.count self'
      = (MemoryManager.count self
         - if PyDict.mem memory_id (MemoryManager._memories self) then 1 else 0)%Z
    ∧ (PyDict.mem memory_id (MemoryManager._memories self) = false → self' = self)
    ∧ same_counters self self'
    ∧ MemoryManager.remove memory_id self' r = (inr (false, self'), r).
Proof.
  intros Hwf.
  destruct (remove_ok memory_id self r Hwf)
    as (b & self' & Hrun & Hwf' & Hsame & _ & Hlen & Hgone).
  destruct (remove_run memory_id self r Hwf) as (self1 & Hrun' & Hmems & Hsame' & _).
  rewrite Hrun in Hrun'. injection Hrun' as -> <-.
  exists self'. split_and!; try done.
  - intros k Hk. rewrite Hmems. by apply get_del_ne.
  - unfold MemoryManager.count.
    destruct (PyDict.mem memory_id (MemoryManager._memories self)) eqn:E.
    + specialize (Hlen eq_refl). lia.
    + rewrite Hmems, del_absent by done. lia.
  - unfold MemoryManager.remove, PyDict.mem. by rewrite Hgone.
Qed.

Lemma remove_deletes_only_that_memory_witness :
  MemoryManager.wf Sample.store2
  ∧ ∃ self',
      MemoryManager.remove "a0"%string Sample.store2 Sample.r0
      = (inr (true, self'), Sample.r0)
      ∧ PyDict.get "a0"%string (MemoryManager._memories self') = None
      ∧ MemoryManager.count self' = 1%Z.
Proof.
  split; [reflexivity|].
  destruct (@remove_deletes_only_that_memory Sample.offline Sample.store2 "a0"%string
              Sample.r0 eq_refl)
    as (self' & Hrun & _ & Hgone & _ & Hcount & _).
  exists self'. split; [exact Hrun|]. split; [exact Hgone|exact Hcount].
Defined.

(** ** Retrieval *)

Lemma slice_to_descending {A K} (ltb : K → K → bool) (key : A → K) n (l : list A) :
  descending ltb key l → descending ltb key (slice_to n l).
Proof.
  destruct (slice_to_take n l) as [k ->]. apply StronglySorted_take.
Qed.

Lemma slice_to_best {A K} (ltb : K → K → bool) (key : A → K) n (l : list A) x y :
  descending ltb key l → x ∈ slice_to n l → y ∈ l → y ∉ slice_to n l →
  ltb (key x) (key y) = false.
Proof.
  destruct (slice_to_take n l) as [k ->]. intros Hs Hx Hy Hny.
  unfold descending in Hs. rewrite <- (take_drop k l) in Hs, Hy.
  apply elem_of_app in Hy as [Hy|Hy]; [done|].
  exact (StronglySorted_app_1_elem_of _ _ _ _ _ Hs Hx Hy).
Qed.

Lemma slice_to_all {A} n (l : list A) :
  (Z.of_nat (length l) ≤ n)%Z → slice_to n l = l.
Proof.
  intros Hn. unfold slice_to. destruct (0 <=? n)%Z eqn:E; [|lia].
  apply take_ge. lia.
Qed.



(** ** Scores *)











(** ** Retrieval by relevance *)








(** ** The index by type *)

Lemma omap_length_le {A B} (f : A → option B) (l : list A) :
  (length (omap f l) ≤ length l)%nat.
Proof. induction l as [|x l IH]; cbn; [done|]. destruct (f x); cbn; lia. Qed.

Section IndexFacts.
Context `{Host} `{!InRange}.
Implicit Types (self : MemoryManager.t) (r : Runtime).

Lemma indexed_unfold self :
  MemoryManager.indexed self ↔
    ∀ k m, (k, m) ∈ MemoryManager._memories self →
           k ∈ MemoryManager.listed self (Memory.type m).
Proof.
  unfold MemoryManager.indexed, MemoryManager.indexedb.
  rewrite forallb_forall. split.
  - intros Hall k m Hin. apply list_mem_true.
    apply (Hall (k, m)). by apply list_elem_of_In.
  - intros Hall [k m] Hin. apply list_mem_true, Hall. by apply list_elem_of_In.
Qed.

Lemma _forget_least_important_indexed self r self' r' :
  MemoryManager.wf self →
  MemoryManager.indexed self →
  MemoryManager._forget_least_important self r = (inr self', r') →
  MemoryManager.indexed self'.
Proof.
  intros Hwf Hidx Hrun.
  destruct (MemoryManager._memories self) as [|e d] eqn:Hmems.
  - unfold MemoryManager._forget_least_important in Hrun. rewrite Hmems in Hrun.
    by injection Hrun as <- _.
  - assert (MemoryManager._memories self ≠ []) as Hne by (by rewrite Hmems).
    clear Hmems.
    destruct (_forget_least_important_run self r Hwf Hne)
      as (s & Hrun' & _ & _ & _ & Hkept & _ & Hlisted).
    rewrite Hrun in Hrun'. injection Hrun' as <- _.
    apply indexed_unfold. intros k m [Hin Hk]%Hkept.
    apply Hlisted; [done|]. by apply indexed_unfold.
Qed.

Lemma add_indexed (memory : Memory.t) self r memory_id self' r' :
  MemoryManager.wf self →
  MemoryManager.indexed self →
  MemoryManager.add memory self r = (inr (memory_id, self'), r') →
  MemoryManager.indexed self'.
Proof.
  intros Hwf Hidx Hadd.
  assert (∃ self1 r1,
            (if (MemoryManager.max_memories self
                 <=? Z.of_nat (length (MemoryManager._memories self)))%Z
             then MemoryManager._forget_least_important self
             else ret self) r = (inr self1, r1)
            ∧ MemoryManager.wf self1 ∧ MemoryManager.indexed self1)
    as (self1 & r1 & Hc & Hwf1 & Hidx1).
  { destruct (_ <=? _)%Z.
    - destruct (_forget_least_important_ok self r Hwf) as (s & r1 & Hrun & Hwf1 & _).
      exists s, r1. split_and!; [done..|].
      exact (_forget_least_important_indexed self r s r1 Hwf Hidx Hrun).
    - by exists self, r. }
  unfold MemoryManager.add in Hadd. rewrite (bind_inr _ _ _ _ _ Hc) in Hadd.
  pose proof Hwf1 as (_ & Hty & _)%wf_unfold.
  destruct (Hty (Memory.type memory)) as [ids Hids].
  rewrite Hids in Hadd. cbn in Hadd. injection Hadd as _ <- _.
  apply indexed_unfold.
  cbn [MemoryManager._memories]. unfold MemoryManager.listed.
  cbn [MemoryManager._by_type].
  assert (∀ k m, (k, m) ∈ MemoryManager._memories self1 →
            k ∈ default [] (<[Memory.type memory := (ids ++ [Memory.id memory])%list]>
                              (MemoryManager._by_type self1) !! Memory.type m)) as Hold.
  { intros k m Hin%(proj1 (indexed_unfold self1) Hidx1).
    unfold MemoryManager.listed in Hin.
    destruct (decide (Memory.type memory = Memory.type m)) as [Heq|Hne].
    - rewrite Heq, lookup_insert_eq. rewrite <- Heq, Hids in Hin. cbn in *.
      apply elem_of_app. by left.
    - by rewrite lookup_insert_ne. }
  intros k m [[= -> ->]|Hin]%elem_of_set; [|by apply Hold].
  rewrite lookup_insert_eq. cbn. apply elem_of_app. right. left.
Qed.

Lemma remove_indexed memory_id self r removed self' r' :
  MemoryManager.wf self →
  MemoryManager.indexed self →
  MemoryManager.remove memory_id self r = (inr (removed, self'), r') →
  MemoryManager.indexed self'.
Proof.
  intros Hwf Hidx Hrun.
  destruct (remove_run memory_id self r Hwf) as (s & Hrun' & Hmems & _ & Hlisted).
  rewrite Hrun in Hrun'. injection Hrun' as _ <- _.
  apply indexed_unfold. intros k m Hin. rewrite Hmems in Hin.
  apply Hlisted.
  - intros ->. pose proof Hwf as (_ & _ & Hnd)%wf_unfold.
    apply get_of_elem in Hin.
    + by rewrite get_del_eq in Hin.
    + rewrite <- Hmems. destruct (remove_ok memory_id self r Hwf)
        as (b & s' & Hrun'' & Hwf' & _).
      rewrite Hrun in Hrun''. injection Hrun'' as _ <-.
      by apply wf_unfold in Hwf' as (_ & _ & ?).
  - apply (proj1 (indexed_unfold self) Hidx). by eapply elem_of_del.
Qed.

Lemma get_indexed memory_id self r found self' r' :
  MemoryManager.indexed self →
  MemoryManager.get memory_id self r = (inr (found, self'), r') →
  MemoryManager.indexed self'.
Proof.
  intros Hidx Hrun. unfold MemoryManager.get in Hrun.
  destruct (PyDict.get memory_id (MemoryManager._memories self)) as [m|] eqn:Hget.
  - cbn in Hrun. injection Hrun as _ <- _. apply indexed_unfold.
    intros k m' [[= -> ->]|Hin]%elem_of_set.
    + apply get_elem_of in Hget. by apply (proj1 (indexed_unfold self) Hidx) in Hget.
    + by apply (proj1 (indexed_unfold self) Hidx) in Hin.
  - by injection Hrun as _ <- _.
Qed.

Lemma score_and_access_types qk min_score (entries : list (string * Memory.t)) r
    scored entries' r' :
  MemoryManager.score_and_access qk min_score entries r = (inr (scored, entries'), r') →
  ∀ k m', (k, m') ∈ entries' →
          ∃ m, (k, m) ∈ entries ∧ Memory.type m' = Memory.type m.
Proof.
  revert r scored entries' r'.
  induction entries as [|[k0 m0] entries IH]; intros r scored entries' r' Hrun.
  - cbn in Hrun. injection Hrun as _ <- _. by intros k m' Hin%elem_of_nil.
  - cbn [MemoryManager.score_and_access] in Hrun.
    unfold bind at 1 in Hrun. rewrite get_retrieval_score_run in Hrun.
    cbv beta iota in Hrun.
    destruct (Qle_bool min_score
                (Memory.retrieval_score_at (now_at (clock_reads r)) m0 (Some qk))).
    + unfold bind at 1 in Hrun. rewrite access_run in Hrun. cbv beta iota in Hrun.
      unfold bind at 1 in Hrun.
      destruct (MemoryManager.score_and_access qk min_score entries _)
        as [[e|[sc en]] r2] eqn:Hrest; [done|].
      cbn in Hrun. injection Hrun as _ <- _.
      intros k m' [[= -> ->]|Hin]%elem_of_cons.
      * exists m0. split; [left|done].
      * destruct (IH _ _ _ _ Hrest k m' Hin) as (m & Hm & Hty).
        exists m. split; [by right|done].
    + unfold bind at 1 in Hrun.
      destruct (MemoryManager.score_and_access qk min_score entries _)
        as [[e|[sc en]] r2] eqn:Hrest; [done|].
      cbn in Hrun. injection Hrun as _ <- _.
      intros k m' [[= -> ->]|Hin]%elem_of_cons.
      * exists m0. split; [left|done].
      * destruct (IH _ _ _ _ Hrest k m' Hin) as (m & Hm & Hty).
        exists m. split; [by right|done].
Qed.

Lemma retrieve_relevant_indexed query limit min_score self r result self' r' :
  MemoryManager.indexed self →
  MemoryManager.retrieve_relevant query limit min_score self r
  = (inr (result, self'), r') →
  MemoryManager.indexed self'.
Proof.
  intros Hidx Hrun. unfold MemoryManager.retrieve_relevant in Hrun.
  unfold bind at 1 in Hrun.
  destruct (MemoryManager.score_and_access _ min_score (MemoryManager._memories self) r)
    as [[e|[sc en]] r2] eqn:Hrest; [done|].
  cbn in Hrun. injection Hrun as _ <- _.
  apply indexed_unfold. intros k m' Hin.
  destruct (score_and_access_types _ _ _ _ _ _ _ Hrest k m' Hin) as (m & Hm & Hty).
  rewrite Hty. by apply (proj1 (indexed_unfold self) Hidx) in Hm.
Qed.

End IndexFacts.

Lemma reachable_indexed `{Host} self : reachable self → MemoryManager.indexed self.
Proof.
  induction 1 as [| self memory r memory_id self' r' Hreach IH Hrun
                  | self content memory_type importance related_agents location
                      emotion game_time r memory self' r' Hreach IH Hrun
                  | self memory_id r removed self' r' Hreach IH Hrun
                  | self memory_id r found self' r' Hreach IH Hrun
                  | self query limit min_score r result self' r' Hreach IH Hrun
                  | self r old self' r' Hreach IH Hrun
                  | self Hreach IH].
  - reflexivity.
  - apply (runs_as_returns _ _ _ _ _ (add_runs_as memory self)) in Hrun.
    eapply (add_indexed (H := in_range_host)); eauto using reachable_wf.
  - apply (runs_as_returns _ _ _ _ _
             (create_and_add_runs_as content memory_type importance related_agents
                location emotion game_time self)) in Hrun.
    unfold MemoryManager.create_and_add in Hrun.
    destruct (create_ok (H := in_range_host) memory_type content importance
                related_agents location emotion game_time r) as (m & r1 & Hcreate & _).
    rewrite (bind_inr _ _ _ _ _ Hcreate) in Hrun. unfold bind in Hrun.
    destruct (@MemoryManager.add in_range_host m self r1) as [[e|[mid s]] r2] eqn:Hadd;
      [done|].
    cbn in Hrun. injection Hrun as _ <- _.
    eapply (add_indexed (H := in_range_host)); eauto using reachable_wf.
  - eapply remove_indexed; eauto using reachable_wf.
  - eapply get_indexed; eauto.
  - apply (runs_as_returns _ _ _ _ _
             (retrieve_relevant_runs_as query limit min_score self)) in Hrun.
    eapply (retrieve_relevant_indexed (H := in_range_host)); eauto.
  - unfold MemoryManager.reset_accumulated_importance, bind in Hrun.
    cbn in Hrun. injection Hrun as _ <- _.
    apply indexed_unfold. intros k m Hin.
    by apply (proj1 (indexed_unfold self) IH) in Hin.
  - reflexivity.
Qed.

(** X7.  A store that its own methods built lists every stored memory under
    its type.  On such a store [retrieve_by_type] changes nothing and
    returns memories in descending order of importance; a stored memory of
    the type asked for is in the result when [limit] is at least the length
    of the list of that type, and if [limit] cut it off then no returned
    memory is less important than it. *)
Theorem retrieve_by_type_finds_stored_memories `{Host} :
  (∀ self, reachable self → MemoryManager.indexed self)
  ∧ (∀ self memory_type limit,
       MemoryManager.indexed self →
       let result := MemoryManager.retrieve_by_type memory_type limit self in
       descending Qltb Memory.importance result
       ∧ (∀ m, m ∈ result → m ∈ PyDict.values (MemoryManager._memories self))
       ∧ (∀ k m,
            PyDict.get k (MemoryManager._memories self) = Some m →
            Memory.type m = memory_type →
            ((Z.of_nat (length (MemoryManager.listed self memory_type)) ≤ limit)%Z →
             m ∈ result)
            ∧ (m ∉ result →
               ∀ m', m' ∈ result → (Memory.importance m <= Memory.importance m')%Q))).
Proof.
  split; [apply @reachable_indexed|].
  intros self memory_type limit Hidx result. subst result.
  unfold MemoryManager.retrieve_by_type. fold (MemoryManager.listed self memory_type).
  set (candidates := omap _ _).
  pose proof (sorted_desc_sorted Qltb Memory.importance Qltb_asym Qgeb_trans candidates)
    as Hs.
  pose proof (sorted_desc_perm Qltb Memory.importance candidates) as Hperm.
  assert (∀ k m, PyDict.get k (MemoryManager._memories self) = Some m →
            Memory.type m = memory_type → m ∈ candidates) as Hcand.
  { intros k m Hget <-. subst candidates. apply list_elem_of_omap. exists k.
    split; [|done]. apply (proj1 (indexed_unfold self) Hidx). by apply get_elem_of. }
  split_and!.
  - by apply slice_to_descending.
  - intros m Hm%slice_to_elem_of. rewrite Hperm in Hm. subst candidates.
    apply list_elem_of_omap in Hm as (k & _ & Hget).
    apply get_elem_of in Hget. unfold PyDict.values.
    apply list_elem_of_fmap. by exists (k, m).
  - intros k m Hget Hty. split.
    + intros Hlimit. rewrite slice_to_all.
      * rewrite Hperm. by eapply Hcand.
      * rewrite (Permutation_length Hperm). subst candidates.
        pose proof (omap_length_le (λ mid, PyDict.get mid (MemoryManager._memories self))
                      (MemoryManager.listed self memory_type)). lia.
    + intros Hout m' Hm'. apply Qltb_false.
      eapply slice_to_best; [exact Hs|exact Hm'| |exact Hout].
      rewrite Hperm. by eapply Hcand.
Qed.

Lemma retrieve_by_type_finds_stored_memories_witness :
  @reachable Sample.offline (MemoryManager.init 200 20 3)
  ∧ MemoryManager.indexed (MemoryManager.init 200 20 3)
  ∧ MemoryManager.indexed Sample.store2
  ∧ PyDict.get "a1" (MemoryManager._memories Sample.store2)
    = Some (Sample.memory "a1" "在公园 散步" 5)
  ∧ (Z.of_nat (length (MemoryManager.listed Sample.store2 EVENT)) ≤ 20)%Z
  ∧ Sample.memory "a1" "在公园 散步" 5 ∈ MemoryManager.retrieve_by_type EVENT 20 Sample.store2.
Proof.
  split; [apply reachable_init|].
  split; [apply (proj1 (@retrieve_by_type_finds_stored_memories Sample.offline)),
            reachable_init|].
  split; [reflexivity|]. split; [reflexivity|].
  split; [vm_compute; discriminate|].
  apply (proj2 (@retrieve_by_type_finds_stored_memories Sample.offline)
           Sample.store2 EVENT 20%Z eq_refl) with (k := "a1"%string);
    [reflexivity|reflexivity|vm_compute; discriminate].
Defined.

(** ** Reflection *)

Section ReflectionFacts.
Context `{Host} `{!InRange}.
Implicit Types (self : MemoryManager.t) (r : Runtime) (agent : Agent.t).










End ReflectionFacts.





(** ** Computations that leave the runtime alone *)

Lemma PyOps_get_snd k default v r : (PyOps.get k default v r).2 = r.
Proof. by destruct v. Qed.






Section ReactionFacts.
Context `{Host} `{!InRange}.
Implicit Types (r : Runtime) (agent : Agent.t).


(** An inference call inside [try], followed by steps that take nothing
    from the runtime, with a handler that returns a value. *)
Lemma try_llm_run {A} req (k : string → M A) (a0 : A) r :
  (∀ content r, (k content r).2 = r) →
  let r' := mkRuntime (clock_reads r) (uuid_draws r) (S (llm_calls r)) in
  ∃ a, try_except (content <- llm_generate req ;; k content) (ret a0) r = (inr a, r')
       ∧ (a = a0 ∨ ∃ content, llm_at (llm_calls r) req = Some content
                              ∧ k content r' = (inr a, r')).
Proof.
  intros Hk r'. unfold try_except, bind, llm_generate. fold r'.
  destruct (llm_at (llm_calls r) req) as [content|]; [|by exists a0; auto].
  pose proof (Hk content r') as Hsnd.
  destruct (k content r') as [[e|a] r1] eqn:Hrun; cbn in Hsnd; subst r1.
  - exists a0. auto.
  - exists a. split; [done|]. right. eauto.
Qed.



Lemma only_memory_and_plan_memory agent self' :
  only_memory_and_plan agent (Agent.with_memory agent self').
Proof. by destruct agent. Qed.

Lemma only_memory_and_plan_trans agent1 agent2 agent3 :
  only_memory_and_plan agent1 agent2 → only_memory_and_plan agent2 agent3 →
  only_memory_and_plan agent1 agent3.
Proof.
  unfold only_memory_and_plan. intros H12 H23. rewrite H23, H12.
  by destruct agent1.
Qed.

Lemma only_memory_and_plan_plan agent daily_plan :
  only_memory_and_plan agent (Agent.with_daily_plan agent daily_plan).
Proof. by destruct agent. Qed.

End ReactionFacts.

(** ** Reaction *)

(** X10.  Called without a plan or with a plan block, [should_react] always
    returns a decision: it draws no id, reads the clock at most once and
    makes at most one inference call.  For a perception that is not empty
    and addresses nobody it makes exactly one call, and when that call
    fails or nothing can be parsed from its reply the decision is the
    default one: do not react, continue. *)
Theorem should_react_falls_back_to_continue `{Host} agent perception current_plan r :
  (∀ c text, current_plan ≠ Description (String c text)) →
  ∃ decision r',
    should_react agent perception current_plan r = (inr decision, r')
    ∧ uuid_draws r' = uuid_draws r
    ∧ (clock_reads r ≤ clock_reads r' ≤ S (clock_reads r))%nat
    ∧ (llm_calls r ≤ llm_calls r' ≤ S (llm_calls r))%nat
    ∧ (Perception.is_empty perception = false →
       Perception.being_addressed perception = false →
       llm_calls r' = S (llm_calls r)
       ∧ (reply_unusable (llm_calls r) →
          decision = ReactionDecision.mk (PyBool false) CONTINUE PyNone
                       (PyStr "决策过程出错，默认继续"))).
Proof.
  intros Hplan. unfold should_react.
  destruct (Perception.is_empty perception).
  { eexists _, r. split; [done|]. split_and!; try done; lia. }
  destruct (Perception.being_addressed perception).
  { eexists _, r. split; [done|]. split_and!; try done; lia. }
  cbv zeta.
  match goal with
  | |- ∃ decision r', bind ?head ?K r = _ ∧ _ =>
      assert (∀ text r1,
                ∃ decision,
                  K text r1
                  = (inr decision,
                     mkRuntime (clock_reads r1) (uuid_draws r1) (S (llm_calls r1)))
                  ∧ (reply_unusable (llm_calls r1) →
                     decision = ReactionDecision.mk (PyBool false) CONTINUE PyNone
                                  (PyStr "决策过程出错，默认继续"))) as HK;
      [|assert (∃ text r1, head r = (inr text, r1)
                  ∧ uuid_draws r1 = uuid_draws r ∧ llm_calls r1 = llm_calls r
                  ∧ (clock_reads r ≤ clock_reads r1 ≤ S (clock_reads r))%nat)
          as (text & r1 & Htext & Huuid1 & Hllm1 & Hclock1)]
  end.
  - intros text r1. cbv beta.
    match goal with
    | |- context [try_except (bind (llm_generate ?req) ?k) (ret ?a0)] =>
        destruct (try_llm_run req k a0 r1) as (decision & Hrun & Hcase)
    end.
    { intros content r2. cbv beta.
      destruct (Py.truthy (_extract_json_from_response content)); [|done].
      apply bind_snd; [apply PyOps_get_snd|]. intros ? ?.
      apply bind_snd; [apply PyOps_get_snd|]. intros v ?.
      apply bind_snd; [by destruct v|]. intros ? ?.
      apply bind_snd; [apply PyOps_get_snd|]. intros ? ?.
      apply bind_snd; [apply PyOps_get_snd|]. done. }
    exists decision. split; [exact Hrun|]. intros Hbad.
    destruct Hcase as [->|(content & Hcontent & Hk)]; [done|].
    match type of Hcontent with
    | llm_at _ ?req = _ => specialize (Hbad req)
    end.
    rewrite Hcontent in Hbad. rewrite Hbad in Hk. cbn in Hk. by injection Hk as <-.
  - assert (∀ describe : PlanBlock.t → string,
              ∃ text r1,
                match Agent.daily_plan agent with
                | Some plan =>
                    now <- datetime_now ;;
                    match DailyPlan.get_current_block plan now with
                    | Some current_block => ret (describe current_block)
                    | None => ret "无特定计划"%string
                    end
                | None => ret "无特定计划"%string
                end r = (inr text, r1)
                ∧ uuid_draws r1 = uuid_draws r ∧ llm_calls r1 = llm_calls r
                ∧ (clock_reads r ≤ clock_reads r1 ≤ S (clock_reads r))%nat) as Hdefault.
    { intros describe. destruct (Agent.daily_plan agent) as [plan|].
      - unfold bind, datetime_now.
        destruct (DailyPlan.get_current_block plan _);
          eexists _, _; (split; [reflexivity|]); cbn; split_and!; try done; lia.
      - eexists _, r. split; [reflexivity|]. split_and!; try done; lia. }
    destruct current_plan as [|b|[|c s]].
    + apply Hdefault.
    + eexists _, r. split; [reflexivity|]. split_and!; try done; lia.
    + apply Hdefault.
    + by destruct (Hplan c s).
  - rewrite (bind_inr _ _ _ _ _ Htext).
    destruct (HK text r1) as (decision & Hrun & Hbad).
    eexists decision, _. split; [exact Hrun|]. cbn.
    split_and!; try done; try lia.
    intros _ _. split; [lia|]. rewrite <- Hllm1. exact Hbad.
Qed.

Lemma should_react_falls_back_to_continue_witness :
  (∀ c text, Block (Sample.block "08:00" "12:00" "上午工作") ≠ Description (String c text))
  ∧ ∃ decision r',
      @should_react Sample.offline Sample.agent
        (Perception.mk "咖啡馆" (Some "cafe_1") ["李四"] ["agent_2"] [] false None []
           Sample.t0)
        (Block (Sample.block "08:00" "12:00" "上午工作")) Sample.r0
      = (inr decision, r')
      ∧ uuid_draws r' = 0%nat.
Proof.
  split; [discriminate|].
  destruct (@should_react_falls_back_to_continue Sample.offline Sample.agent
              (Perception.mk "咖啡馆" (Some "cafe_1") ["李四"] ["agent_2"] [] false None []
                 Sample.t0)
              (Block (Sample.block "08:00" "12:00" "上午工作")) Sample.r0
              ltac:(discriminate))
    as (decision & r' & Hrun & Huuid & _).
  exists decision, r'. split; [exact Hrun|exact Huuid].
Defined.

Lemma append_at_nonempty (a b : string) :
  ∃ c s, (a +:+ " at " +:+ b)%string = String c s.
Proof. destruct a; cbn; eauto. Qed.

(** X11.  The reaction step of [_process_agent] hands [should_react] a
    string where it expects a plan block.  So for an agent whose daily plan
    has a block that covers the clock reading, and a perception that is not
    empty and addresses nobody, the step raises [AttributeError] after that
    one clock reading and before any inference call: the agent gets no
    reaction in this round. *)
Theorem planned_agent_reaction_raises `{Host} agent perception w r plan task :
  Agent.daily_plan agent = Some plan →
  DailyPlan.get_current_block plan (now_at (clock_reads r)) = Some task →
  Perception.is_empty perception = false →
  Perception.being_addressed perception = false →
  DecisionScheduler._process_agent_reaction agent perception w r
  = (inl AttributeError,
     mkRuntime (S (clock_reads r)) (uuid_draws r) (llm_calls r)).
Proof.
  intros Hplan Htask Hempty Haddressed.
  unfold DecisionScheduler._process_agent_reaction. rewrite Hplan.
  assert (DailyPlan.get_current_task plan None r
          = (inr (Some task),
             mkRuntime (S (clock_reads r)) (uuid_draws r) (llm_calls r))) as Htask'.
  { unfold DailyPlan.get_current_task, bind, datetime_now. by rewrite Htask. }
  rewrite (bind_inr _ _ r
             (Description (format_value (PlanBlock.activity task) +:+ " at "
                           +:+ format_value (PlanBlock.location task)))
             (mkRuntime (S (clock_reads r)) (uuid_draws r) (llm_calls r)))
    by (by rewrite (bind_inr _ _ _ _ _ Htask')).
  destruct (append_at_nonempty (format_value (PlanBlock.activity task))
              (format_value (PlanBlock.location task))) as (c & s & ->).
  apply bind_inl. unfold should_react. by rewrite Hempty, Haddressed.
Qed.

Lemma planned_agent_reaction_raises_witness :
  Agent.daily_plan Sample.agent = Some Sample.plan
  ∧ DailyPlan.get_current_block Sample.plan
      (@now_at Sample.offline (clock_reads Sample.r0))
    = Some (Sample.block "08:00" "12:00" "上午工作")
  ∧ Perception.is_empty
      (Perception.mk "咖啡馆" (Some "cafe_1") ["李四"] ["agent_2"] [] false None []
         Sample.t0) = false
  ∧ @DecisionScheduler._process_agent_reaction Sample.offline Sample.agent
      (Perception.mk "咖啡馆" (Some "cafe_1") ["李四"] ["agent_2"] [] false None []
         Sample.t0)
      Sample.world Sample.r0
    = (inl AttributeError, mkRuntime 1 0 0).
Proof.
  split; [reflexivity|]. split; [reflexivity|]. split; [reflexivity|].
  apply (@planned_agent_reaction_raises Sample.offline Sample.agent _ Sample.world
           Sample.r0 Sample.plan (Sample.block "08:00" "12:00" "上午工作"));
    reflexivity.
Defined.




(** ** Executing a decision *)

Section DecisionFacts.
Context `{Host} `{!InRange}.
Implicit Types (r : Runtime) (agent : Agent.t).



End DecisionFacts.





(** ** Who gets a decision *)

Section SchedulingFacts.
Context `{Host} `{!InRange}.
Implicit Types (r : Runtime) (agent : Agent.t).




End SchedulingFacts.



(** ** Locations *)

Lemma find_elem_of {A} (f : A → bool) (l : list A) x :
  List.find f l = Some x → x ∈ l ∧ f x = true.
Proof.
  induction l as [|y l IH]; cbn; [done|].
  destruct (f y) eqn:E.
  - intros [= <-]. split; [left|done].
  - intros [Hin Hf]%IH. split; [by right|done].
Qed.

Lemma find_none_elem_of {A} (f : A → bool) (l : list A) :
  List.find f l = None ↔ ∀ x, x ∈ l → f x = false.
Proof.
  induction l as [|y l IH]; cbn.
  - split; [|done]. by intros _ x Hx%elem_of_nil.
  - destruct (f y) eqn:E.
    + split; [done|]. intros Hall. rewrite (Hall y) in E; [done|left].
    + rewrite IH. split.
      * intros Hall x [->|Hx]%elem_of_cons; auto.
      * intros Hall x Hx. apply Hall. by right.
Qed.

(** X16.  [Location.enter] admits an agent exactly when the location is not
    full, and then the agent is inside; a full location refuses even an
    agent that is inside already.  [Location.leave] always leaves the agent
    outside.  Neither changes anything but the set of agents, and a location
    that holds no more agents than its capacity keeps doing so through
    every sequence of entries and departures. *)
Theorem location_occupancy_within_capacity agent_id self :
  (Location.enter agent_id self).1 = negb (Location.is_full self)
  ∧ (if Location.is_full self then (Location.enter agent_id self).2 = self
     else agent_id ∈ Location.current_agents (Location.enter agent_id self).2)
  ∧ (agent_id ∉ Location.current_agents (Location.leave agent_id self))
  ∧ (∀ other, other ≠ agent_id →
       (other ∈ Location.current_agents (Location.enter agent_id self).2
        ↔ other ∈ Location.current_agents self)
       ∧ (other ∈ Location.current_agents (Location.leave agent_id self)
          ↔ other ∈ Location.current_agents self))
  ∧ (∀ ops,
       (Z.of_nat (size (Location.current_agents self)) ≤ Location.capacity self)%Z →
       let self' := run_location_ops ops self in
       (Z.of_nat (size (Location.current_agents self')) ≤ Location.capacity self')%Z
       ∧ Location.with_agents self' (Location.current_agents self) = self).
Proof.
  split_and!.
  - unfold Location.enter. by destruct (Location.is_full self).
  - unfold Location.enter. destruct (Location.is_full self); cbn; [done|].
    apply elem_of_union. right. by apply elem_of_singleton.
  - cbn. rewrite elem_of_difference, elem_of_singleton. tauto.
  - intros other Hne. split.
    + unfold Location.enter. destruct (Location.is_full self); cbn; [done|].
      rewrite elem_of_union, elem_of_singleton. tauto.
    + cbn. rewrite elem_of_difference, elem_of_singleton. tauto.
  - intros ops. revert self. induction ops as [|op ops IH]; intros self Hcap.
    + cbn. split; [done|by destruct self].
    + cbn [run_location_ops foldl]. fold (run_location_ops ops (run_location_op self op)).
      set (self1 := run_location_op self op).
      assert ((Z.of_nat (size (Location.current_agents self1)) ≤ Location.capacity self1)%Z
              ∧ Location.with_agents self1 (Location.current_agents self) = self)
        as [Hcap1 Hframe1].
      { subst self1. destruct op as [a|a]; cbn.
        - unfold Location.enter, Location.is_full.
          destruct (Location.capacity self <=? _)%Z eqn:E; cbn.
          + split; [done|by destruct self].
          + split; [|by destruct self]. apply Z.leb_gt in E.
            pose proof (size_union_alt (Location.current_agents self) {[a]}) as Hu.
            pose proof (subseteq_size ({[a]} ∖ Location.current_agents self) {[a]}) as Hs.
            rewrite size_singleton in Hs.
            assert (({[a]} ∖ Location.current_agents self : gset string) ⊆ {[a]}) as Hsub.
            { intros z. rewrite elem_of_difference. tauto. }
            specialize (Hs Hsub). lia.
        - split; [|by destruct self].
          pose proof (subseteq_size (Location.current_agents self ∖ {[a]})
                        (Location.current_agents self)) as Hs.
          assert ((Location.current_agents self ∖ {[a]} : gset string)
                  ⊆ Location.current_agents self) as Hsub.
          { intros z. rewrite elem_of_difference. tauto. }
          specialize (Hs Hsub). lia. }
      destruct (IH self1 Hcap1) as [Hcap' Hframe']. split; [done|].
      rewrite <- Hframe1 at 2. rewrite <- Hframe' at 2.
      by destruct (run_location_ops ops self1).
Qed.

Lemma location_occupancy_within_capacity_witness :
  (Z.of_nat (size (Location.current_agents Sample.cafe)) ≤ Location.capacity Sample.cafe)%Z
  ∧ (Z.of_nat (size (Location.current_agents
                      (run_location_ops [OpEnter "agent_1"; OpEnter "agent_3"]
                         Sample.cafe)))
     ≤ Location.capacity
         (run_location_ops [OpEnter "agent_1"; OpEnter "agent_3"] Sample.cafe))%Z.
Proof.
  split; [vm_compute; discriminate|].
  apply (proj2 (proj2 (proj2 (proj2 (location_occupancy_within_capacity "agent_1"
                                       Sample.cafe))))).
  vm_compute; discriminate.
Defined.

(** X17.  For a string, [get_by_name] returns a location of the registry
    whose name is the string, contains it or is contained in it; it returns
    [None] exactly when no location is such a match, and a location whose
    name is the string itself whenever there is one, even if a location
    registered before it matches partially. *)
Theorem get_by_name_prefers_exact_match name self :
  ∃ found,
    LocationManager.get_by_name (PyStr name) self = ret found
    ∧ (∀ loc, found = Some loc →
         loc ∈ PyDict.values (LocationManager.locations self)
         ∧ (Location.name loc = name
            ∨ PyStr.contains name (Location.name loc) = true
            ∨ PyStr.contains (Location.name loc) name = true))
    ∧ (found = None ↔
         ∀ loc, loc ∈ PyDict.values (LocationManager.locations self) →
           Location.name loc ≠ name
           ∧ PyStr.contains name (Location.name loc) = false
           ∧ PyStr.contains (Location.name loc) name = false)
    ∧ ((∃ loc, loc ∈ PyDict.values (LocationManager.locations self)
               ∧ Location.name loc = name) →
       ∃ loc, found = Some loc ∧ Location.name loc = name).
Proof.
  unfold LocationManager.get_by_name.
  set (values := PyDict.values (LocationManager.locations self)).
  destruct (List.find (λ loc, String.eqb (Location.name loc) name) values)
    as [loc|] eqn:Hexact.
  - exists (Some loc). apply find_elem_of in Hexact as [Hin Heq].
    apply eqb_true in Heq. split_and!; [done| | |by eauto].
    + intros ? [= <-]. auto.
    + split; [done|]. intros Hall. by destruct (Hall loc Hin) as [? _].
  - pose proof (proj1 (find_none_elem_of _ _) Hexact) as Hno.
    eexists. split; [done|]. split_and!.
    + intros loc [Hin Hm]%find_elem_of. split; [done|].
      apply orb_true_iff in Hm. tauto.
    + rewrite find_none_elem_of. split.
      * intros Hall loc Hin. specialize (Hall loc Hin). specialize (Hno loc Hin).
        apply orb_false_iff in Hall as [? ?]. apply eqb_false in Hno. done.
      * intros Hall loc Hin. destruct (Hall loc Hin) as (_ & -> & ->). done.
    + intros (loc & Hin & Heq). specialize (Hno loc Hin). cbn in Hno.
      apply eqb_false in Hno. done.
Qed.

Lemma get_by_name_prefers_exact_match_witness :
  (∃ loc, loc ∈ PyDict.values (LocationManager.locations (location_manager Sample.world))
          ∧ Location.name loc = "咖啡馆"%string)
  ∧ ∃ found,
      LocationManager.get_by_name (PyStr "咖啡馆") (location_manager Sample.world)
      = ret found
      ∧ ∃ loc, found = Some loc ∧ Location.name loc = "咖啡馆"%string.
Proof.
  assert (∃ loc, loc ∈ PyDict.values
                         (LocationManager.locations (location_manager Sample.world))
                 ∧ Location.name loc = "咖啡馆"%string) as Hexists.
  { exists Sample.cafe. split; [apply list_elem_of_here|reflexivity]. }
  split; [exact Hexists|].
  destruct (get_by_name_prefers_exact_match "咖啡馆" (location_manager Sample.world))
    as (found & Hrun & _ & _ & Hexact).
  exists found. split; [exact Hrun|exact (Hexact Hexists)].
Defined.

(** X18.  [get_location_at] returns a location of the registry that contains
    the point, and returns one whenever some location of the registry
    contains the point: the spatial index decides which one is found first,
    never whether one is found. *)
Theorem get_location_at_finds_a_containing_location x y self :
  (∀ loc, LocationManager.get_location_at x y self = Some loc →
     loc ∈ PyDict.values (LocationManager.locations self)
     ∧ Location.contains_point x y loc = true)
  ∧ (LocationManager.get_location_at x y self = None ↔
       ∀ loc, loc ∈ PyDict.values (LocationManager.locations self) →
              Location.contains_point x y loc = false).
Proof.
  unfold LocationManager.get_location_at. cbv zeta.
  set (candidates := omap _ _).
  destruct (List.find (Location.contains_point x y) candidates) as [loc|] eqn:Hgrid.
  - apply find_elem_of in Hgrid as [Hin Hcontains].
    assert (loc ∈ PyDict.values (LocationManager.locations self)) as Hstored.
    { subst candidates. apply list_elem_of_omap in Hin as (k & _ & Hget).
      apply get_elem_of in Hget. unfold PyDict.values.
      apply list_elem_of_fmap. by exists (k, loc). }
    split.
    + by intros ? [= <-].
    + split; [done|]. intros Hall. rewrite (Hall loc Hstored) in Hcontains. done.
  - split.
    + intros loc Hfind. by apply find_elem_of in Hfind.
    + apply find_none_elem_of.
Qed.

Lemma get_location_at_finds_a_containing_location_witness :
  LocationManager.get_location_at 11 11 (location_manager Sample.world)
  = Some Sample.cafe
  ∧ Location.contains_point 11 11 Sample.cafe = true.
Proof.
  split; [reflexivity|].
  apply (proj1 (get_location_at_finds_a_containing_location 11 11
                  (location_manager Sample.world)) Sample.cafe).
  reflexivity.
Defined.

(** ** Relationships *)

Lemma clamp_bounds v : (0 ≤ Relationship.clamp v ≤ 100)%Z.
Proof. unfold Relationship.clamp. lia. Qed.

Lemma clamp_in_range v : (0 ≤ v ≤ 100)%Z → Relationship.clamp v = v.
Proof. unfold Relationship.clamp. lia. Qed.

Section RelationshipFacts.
Context `{Host}.

Lemma update_relationship_run agent_id agent_name closeness_delta trust_delta
    (agent : Agent.t) r :
  let rel :=
    match Agent.relationships agent !! agent_id with
    | Some rel => rel
    | None => Relationship.mk agent_id agent_name 50 50 0 None
    end in
  let rel' :=
    Relationship.mk (Relationship.agent_id rel) (Relationship.agent_name rel)
      (Relationship.clamp (Relationship.closeness rel + closeness_delta))
      (Relationship.clamp (Relationship.trust rel + trust_delta))
      (Relationship.interaction_count rel + 1) (Some (now_at (clock_reads r))) in
  Agent.update_relationship agent_id agent_name closeness_delta trust_delta agent r
  = (inr (rel', Agent.with_relationships agent
                  (<[agent_id := rel']> (Agent.relationships agent))),
     mkRuntime (S (clock_reads r)) (uuid_draws r) (llm_calls r)).
Proof. reflexivity. Qed.

Lemma update_relationship_each_run agent_id agent_name deltas (agent : Agent.t) r :
  ∃ agent',
    update_relationship_each agent_id agent_name deltas agent r
    = (inr agent',
       mkRuntime (clock_reads r + length deltas) (uuid_draws r) (llm_calls r))
    ∧ agent' = Agent.with_relationships agent (Agent.relationships agent')
    ∧ (∀ other, other ≠ agent_id →
         Agent.relationships agent' !! other = Agent.relationships agent !! other)
    ∧ match deltas with
      | [] => agent' = agent
      | _ =>
          ∃ rel',
            Agent.relationships agent' !! agent_id = Some rel'
            ∧ (0 ≤ Relationship.closeness rel' ≤ 100)%Z
            ∧ (0 ≤ Relationship.trust rel' ≤ 100)%Z
            ∧ Relationship.interaction_count rel'
              = (match Agent.relationships agent !! agent_id with
                 | Some rel => Relationship.interaction_count rel
                 | None => 0
                 end + Z.of_nat (length deltas))%Z
            ∧ Relationship.agent_name rel'
              = match Agent.relationships agent !! agent_id with
                | Some rel => Relationship.agent_name rel
                | None => agent_name
                end
      end.
Proof.
  revert agent r. induction deltas as [|d deltas IH]; intros agent r.
  - exists agent. cbn. rewrite Nat.add_0_r. split_and!; try done; by destruct agent, r.
  - unfold update_relationship_each. cbn [foldM].
    rewrite (bind_inr _ _ _ _ _
               (bind_inr _ _ _ _ _ (update_relationship_run _ _ _ _ _ _))).
    cbn [ret snd].
    match goal with
    | |- context [foldM _ ?a _ ?rr] =>
        set (agent1 := a); destruct (IH agent1 rr) as (agent' & Hrun & Hframe & Hother & Hcase)
    end.
    unfold update_relationship_each in Hrun. cbn in Hrun.
    exists agent'. split_and!.
    + rewrite Hrun. cbn. do 2 f_equal. lia.
    + rewrite Hframe. subst agent1. by destruct agent.
    + intros other Hne. rewrite (Hother other Hne). subst agent1. cbn.
      by rewrite lookup_insert_ne.
    + assert (Agent.relationships agent1 !! agent_id
              = Some (Relationship.mk
                        (Relationship.agent_id
                           match Agent.relationships agent !! agent_id with
                           | Some rel => rel
                           | None => Relationship.mk agent_id agent_name 50 50 0 None
                           end)
                        (Relationship.agent_name
                           match Agent.relationships agent !! agent_id with
                           | Some rel => rel
                           | None => Relationship.mk agent_id agent_name 50 50 0 None
                           end)
                        (Relationship.clamp
                           (Relationship.closeness
                              match Agent.relationships agent !! agent_id with
                              | Some rel => rel
                              | None => Relationship.mk agent_id agent_name 50 50 0 None
                              end + d.1))
                        (Relationship.clamp
                           (Relationship.trust
                              match Agent.relationships agent !! agent_id with
                              | Some rel => rel
                              | None => Relationship.mk agent_id agent_name 50 50 0 None
                              end + d.2))
                        (Relationship.interaction_count
                           match Agent.relationships agent !! agent_id with
                           | Some rel => rel
                           | None => Relationship.mk agent_id agent_name 50 50 0 None
                           end + 1)
                        (Some (now_at (clock_reads r))))) as H1.
      { subst agent1. cbn. by rewrite lookup_insert_eq. }
      destruct deltas as [|d' deltas].
      * subst agent'. eexists. split; [exact H1|]. cbn.
        split_and!; try apply clamp_bounds; by destruct (Agent.relationships agent !! agent_id).
      * destruct Hcase as (rel' & Hrel' & Hc & Ht & Hcount & Hname).
        exists rel'. rewrite H1 in Hcount, Hname. cbn in Hcount, Hname.
        split_and!; try done; try lia.
        -- rewrite Hcount. cbn [length].
           destruct (Agent.relationships agent !! agent_id); cbn; lia.
        -- rewrite Hname. by destruct (Agent.relationships agent !! agent_id).
Qed.

End RelationshipFacts.

(** X19.  [update_relationship] never raises and changes the relationships
    of the agent only, and only the one with the agent named.  Whatever the
    changes asked for, and whatever the values were before, closeness and
    trust are between 0 and 100 after every call of a sequence; the
    interaction count grows by one per call, starting from 0 for an agent
    met for the first time (whose closeness and trust start from 50); and
    the name recorded at the first meeting is kept, whatever name later
    calls pass. *)
Theorem update_relationship_keeps_scores_in_range `{Host} agent_id agent_name deltas
    agent r :
  deltas ≠ [] →
  ∃ agent' rel',
    update_relationship_each agent_id agent_name deltas agent r
    = (inr agent',
       mkRuntime (clock_reads r + length deltas) (uuid_draws r) (llm_calls r))
    ∧ agent' = Agent.with_relationships agent (Agent.relationships agent')
    ∧ (∀ other, other ≠ agent_id →
         Agent.relationships agent' !! other = Agent.relationships agent !! other)
    ∧ Agent.relationships agent' !! agent_id = Some rel'
    ∧ (0 ≤ Relationship.closeness rel' ≤ 100)%Z
    ∧ (0 ≤ Relationship.trust rel' ≤ 100)%Z
    ∧ Relationship.interaction_count rel'
      = (match Agent.relationships agent !! agent_id with
         | Some rel => Relationship.interaction_count rel
         | None => 0
         end + Z.of_nat (length deltas))%Z
    ∧ Relationship.agent_name rel'
      = match Agent.relationships agent !! agent_id with
        | Some rel => Relationship.agent_name rel
        | None => agent_name
        end
    ∧ (∀ closeness_delta trust_delta,
         deltas = [(closeness_delta, trust_delta)] →
         Agent.relationships agent !! agent_id = None →
         (-50 ≤ closeness_delta ≤ 50)%Z → (-50 ≤ trust_delta ≤ 50)%Z →
         Relationship.closeness rel' = (50 + closeness_delta)%Z
         ∧ Relationship.trust rel' = (50 + trust_delta)%Z).
Proof.
  intros Hne.
  destruct (update_relationship_each_run agent_id agent_name deltas agent r)
    as (agent' & Hrun & Hframe & Hother & Hcase).
  destruct deltas as [|d deltas]; [done|].
  destruct Hcase as (rel' & Hrel' & Hc & Ht & Hcount & Hname).
  exists agent', rel'. split_and!; try done; try lia.
  intros cd td [= -> ->] Hnew Hcd Htd.
  unfold update_relationship_each in Hrun. cbn [foldM] in Hrun.
  rewrite (bind_inr _ _ _ _ _
             (bind_inr _ _ _ _ _ (update_relationship_run _ _ _ _ _ _))) in Hrun.
  cbn in Hrun. injection Hrun as <-. rewrite Hnew in Hrel'. cbn in Hrel'.
  rewrite lookup_insert_eq in Hrel'. injection Hrel' as <-. cbn.
  split; apply clamp_in_range; lia.
Qed.

Lemma update_relationship_keeps_scores_in_range_witness :
  [(80, -70)%Z] ≠ []
  ∧ ∃ agent' rel',
      @update_relationship_each Sample.offline "agent_2" "李四" [(80, -70)%Z]
        Sample.agent Sample.r0 = (inr agent', mkRuntime 1 0 0)
      ∧ Agent.relationships agent' !! "agent_2"%string = Some rel'
      ∧ (0 ≤ Relationship.closeness rel' ≤ 100)%Z
      ∧ (0 ≤ Relationship.trust rel' ≤ 100)%Z.
Proof.
  split; [discriminate|].
  destruct (@update_relationship_keeps_scores_in_range Sample.offline "agent_2" "李四"
              [(80, -70)%Z] Sample.agent Sample.r0 ltac:(discriminate))
    as (agent' & rel' & Hrun & _ & _ & Hrel & Hc & Ht & _).
  exists agent', rel'. split; [exact Hrun|]. split; [exact Hrel|].
  split; [exact Hc|exact Ht].
Defined.

(** ** Moving *)

Section MoveFacts.
Context `{Host} `{!InRange}.
Implicit Types (r : Runtime) (agent : Agent.t).



End MoveFacts.



(** ** Batches *)

Section BatchFacts.
Context {A : Type}.
Implicit Types (l : list A) (s m k : nat).

Lemma slice_chunk s k l :
  (k * s ≤ length l)%nat →
  slice (Z.of_nat k * Z.of_nat s) (Z.of_nat k * Z.of_nat s + Z.of_nat s) l
  = take s (drop (k * s) l).
Proof.
  intros Hk. unfold slice.
  destruct (Z.of_nat k * Z.of_nat s <? 0)%Z eqn:E1; [lia|].
  destruct (Z.of_nat k * Z.of_nat s + Z.of_nat s <? 0)%Z eqn:E2; [lia|].
  replace (Z.to_nat (Z.min (Z.of_nat k * Z.of_nat s) (Z.of_nat (length l))))
    with (k * s)%nat by lia.
  apply list_eq. intros i.
  destruct (decide (i < Z.to_nat (Z.min (Z.of_nat k * Z.of_nat s + Z.of_nat s)
                                    (Z.of_nat (length l))
                                  - Z.of_nat (k * s)%nat))%nat) as [Hi|Hi].
  - rewrite !lookup_take_lt by lia. done.
  - rewrite lookup_take_ge by lia.
    destruct (decide (i < s)%nat) as [Hs|Hs].
    + rewrite lookup_take_lt by lia. symmetry. apply lookup_ge_None.
      rewrite length_drop. lia.
    + by rewrite lookup_take_ge by lia.
Qed.

Lemma chunks_concat s m l :
  (length l ≤ m * s)%nat →
  concat ((λ k, take s (drop (k * s) l)) <$> seq 0 m) = l.
Proof.
  revert l. induction m as [|m IH]; intros l Hlen.
  - cbn. destruct l; [done|cbn in Hlen; lia].
  - cbn [seq fmap list_fmap concat]. rewrite Nat.mul_0_l, drop_0.
    rewrite <- fmap_S_seq, <- list_fmap_compose.
    transitivity (take s l ++ drop s l); [|apply take_drop]. f_equal.
    etrans; [|apply (IH (drop s l)); rewrite length_drop; lia].
    f_equal. apply list_fmap_ext. intros i k _. cbn.
    rewrite drop_drop. f_equal; f_equal; lia.
Qed.

End BatchFacts.

(** X21.  The scheduler splits the agents of a round into batches in their
    order: with a positive batch size every agent is in exactly one batch,
    there are [ceil(n / batch_size)] batches, none is empty or larger than
    the batch size and all but the last are full.  With a batch size of 0
    the loop raises [ValueError] before any agent is processed, and with a
    negative batch size it processes no agent and raises nothing. *)
Theorem batches_cover_agents_once {A} batch_size (agents : list A) r :
  agents ≠ [] →
  if (batch_size =? 0)%Z then batches batch_size agents r = (inl ValueError, r)
  else if (batch_size <? 0)%Z then batches batch_size agents r = (inr [], r)
  else
    ∃ bs,
      batches batch_size agents r = (inr bs, r)
      ∧ concat bs = agents
      ∧ length bs
        = Z.to_nat ((Z.of_nat (length agents) + batch_size - 1) / batch_size)
      ∧ Forall (λ b, (1 ≤ length b ≤ Z.to_nat batch_size)%nat) bs
      ∧ (∀ i b, bs !! i = Some b → (S i < length bs)%nat →
                length b = Z.to_nat batch_size).
Proof.
  intros Hne. unfold batches.
  destruct agents as [|a agents']; [done|]. set (agents := a :: agents') in *.
  unfold range_from_0.
  destruct (batch_size =? 0)%Z eqn:E0; [done|].
  destruct (batch_size <? 0)%Z eqn:E1.
  { unfold bind, ret.
    replace (Z.to_nat ((- Z.of_nat (length agents) + - batch_size - 1) / - batch_size))
      with 0%nat; [done|].
    assert ((- Z.of_nat (length agents) + - batch_size - 1) / - batch_size < 1)%Z;
      [|lia].
    apply Z.div_lt_upper_bound; subst agents; cbn [length]; lia. }
  apply Z.eqb_neq in E0. apply Z.ltb_ge in E1.
  set (s := Z.to_nat batch_size).
  set (n := length agents).
  set (m := Z.to_nat ((Z.of_nat n + batch_size - 1) / batch_size)).
  assert (1 ≤ s)%nat as Hs by lia.
  assert (1 ≤ n)%nat as Hn by (subst n agents; cbn; lia).
  assert (n ≤ m * s ∧ (m - 1) * s < n ∧ 1 ≤ m)%nat as (Hm1 & Hm2 & Hm3).
  { pose proof (Z.mul_div_le (Z.of_nat n + batch_size - 1) batch_size ltac:(lia)).
    pose proof (Z.mul_succ_div_gt (Z.of_nat n + batch_size - 1) batch_size ltac:(lia)).
    assert (0 ≤ (Z.of_nat n + batch_size - 1) / batch_size)%Z
      by (apply Z.div_pos; lia).
    subst m s. nia. }
  unfold bind, ret. fold n m.
  assert ((λ i : Z, slice i (i + batch_size) agents)
            <$> ((λ k : nat, (Z.of_nat k * batch_size)%Z) <$> seq 0 m)
          = (λ k, take s (drop (k * s) agents)) <$> seq 0 m) as ->.
  { rewrite <- list_fmap_compose. apply list_fmap_ext. intros i k Hk. cbn.
    apply lookup_seq in Hk as [-> Hk].
    replace batch_size with (Z.of_nat s) by lia. apply slice_chunk. fold n. nia. }
  eexists. split; [reflexivity|]. split_and!.
  - by apply chunks_concat.
  - by rewrite length_fmap, length_seq.
  - apply Forall_fmap, Forall_forall. intros k Hk%elem_of_seq. cbn.
    rewrite length_take, length_drop. fold n. nia.
  - intros i b Hb Hi. rewrite length_fmap, length_seq in Hi.
    rewrite list_lookup_fmap in Hb.
    rewrite lookup_seq_lt in Hb by lia. cbn in Hb. injection Hb as <-.
    rewrite length_take, length_drop. fold n. nia.
Qed.

Lemma batches_cover_agents_once_witness :
  ["a"; "b"; "c"] ≠ ([] : list string)
  ∧ ∃ bs,
      batches 2 ["a"; "b"; "c"]%string Sample.r0 = (inr bs, Sample.r0)
      ∧ concat bs = ["a"; "b"; "c"]%string.
Proof.
  split; [discriminate|].
  destruct (batches_cover_agents_once 2 ["a"; "b"; "c"]%string Sample.r0
              ltac:(discriminate))
    as (bs & Hrun & Hconcat & _).
  exists bs. split; [exact Hrun|exact Hconcat].
Defined.

(** ** Opening hours and plan blocks *)

(** X22.  A location is closed on every day that is not one of its opening
    days.  On an opening day, hours that end after midnight (opening hour
    above closing hour) are open exactly when the hours with the two bounds
    swapped are closed; with the default hours, 0 to 24, every hour of the
    day is open; and hours whose opening and closing hour coincide are
    never open. *)
Theorem is_open_complements_swapped_hours open_hour close_hour open_days hour weekday :
  (weekday ∉ open_days →
   OpeningHours.is_open hour weekday (OpeningHours.mk open_hour close_hour open_days)
   = false)
  ∧ (weekday ∈ open_days →
     (open_hour ≠ close_hour →
      OpeningHours.is_open hour weekday (OpeningHours.mk open_hour close_hour open_days)
      = negb (OpeningHours.is_open hour weekday
                (OpeningHours.mk close_hour open_hour open_days)))
     ∧ (open_hour = close_hour →
        OpeningHours.is_open hour weekday
          (OpeningHours.mk open_hour close_hour open_days) = false)
     ∧ ((0 ≤ hour < 24)%Z →
        OpeningHours.is_open hour weekday (OpeningHours.mk 0 24 open_days) = true)).
Proof.
  unfold OpeningHours.is_open. cbn [OpeningHours.open_days OpeningHours.open_hour
                                    OpeningHours.close_hour].
  split.
  - intros Hday. by rewrite (bool_decide_eq_false_2 _ Hday).
  - intros Hday. rewrite (bool_decide_eq_true_2 _ Hday). cbn [negb]. split_and!.
    + intros Hne.
      destruct (open_hour <=? close_hour)%Z eqn:E1, (close_hour <=? open_hour)%Z eqn:E2;
        destruct (open_hour <=? hour)%Z eqn:E3, (hour <? close_hour)%Z eqn:E4,
                 (close_hour <=? hour)%Z eqn:E5, (hour <? open_hour)%Z eqn:E6;
        cbn; try reflexivity; lia.
    + intros ->. rewrite Z.leb_refl.
      destruct (close_hour <=? hour)%Z eqn:E3, (hour <? close_hour)%Z eqn:E4;
        cbn; try reflexivity; lia.
    + intros Hhour. cbn.
      destruct (0 <=? hour)%Z eqn:E3, (hour <? 24)%Z eqn:E4; cbn; try reflexivity; lia.
Qed.

Lemma is_open_complements_swapped_hours_witness :
  (1%Z ∈ ({[ 1%Z ]} : gset Z))
  ∧ (22 ≠ 4)%Z
  ∧ OpeningHours.is_open 23 1 (OpeningHours.mk 22 4 {[ 1%Z ]})
    = negb (OpeningHours.is_open 23 1 (OpeningHours.mk 4 22 {[ 1%Z ]})).
Proof.
  split; [vm_compute; reflexivity|]. split; [discriminate|].
  apply (proj2 (is_open_complements_swapped_hours 22 4 {[ 1%Z ]} 23 1)).
  - vm_compute; reflexivity.
  - discriminate.
Defined.

(** X23.  A plan block survives the round trip through its dictionary:
    [from_dict(block.to_dict())] is the block, and so is the block that
    [replan_from_now] builds from that dictionary.  Missing keys are filled
    with [00:00] and the empty string.  A [start] or [end] that is present
    but not a string makes the constructor raise [TypeError], and data that
    is not a dictionary raises [AttributeError]. *)
Theorem plan_block_round_trip `{Host} block r :
  PlanBlock_from_dict (PlanBlock_to_dict block) r = (inr block, r)
  ∧ block_of_item (PlanBlock_to_dict block) r = (inr block, r)
  ∧ PlanBlock_from_dict (PyDict []) r
    = (inr (PlanBlock.mk "00:00" "00:00" (PyStr "") (PyStr "")), r)
  ∧ (∀ d v,
       Py.assoc "start" d = Some v ∨ Py.assoc "end" d = Some v →
       (∀ s, v ≠ PyStr s) →
       PlanBlock_from_dict (PyDict d) r = (inl TypeError, r))
  ∧ (∀ data, (∀ d, data ≠ PyDict d) →
       PlanBlock_from_dict data r = (inl AttributeError, r)).
Proof.
  split_and!.
  - by destruct block.
  - by destruct block.
  - reflexivity.
  - intros d v Hkey Hv. unfold PlanBlock_from_dict, PyOps.get, bind, ret.
    destruct Hkey as [Hkey|Hkey]; rewrite Hkey.
    + destruct v; try done. by destruct (Hv s).
    + destruct v; try (by destruct (Py.assoc "start" d) as [[]|]).
      by destruct (Hv s).
  - intros data Hdata. destruct data; try done. by destruct (Hdata d).
Qed.

Lemma plan_block_round_trip_witness :
  (Py.assoc "start" [("start"%string, PyInt 8)] = Some (PyInt 8)
   ∨ Py.assoc "end" [("start"%string, PyInt 8)] = Some (PyInt 8))
  ∧ (∀ s, PyInt 8 ≠ PyStr s)
  ∧ @PlanBlock_from_dict (PyDict [("start"%string, PyInt 8)]) Sample.r0
    = (inl TypeError, Sample.r0).
Proof.
  split; [left; reflexivity|]. split; [discriminate|].
  apply (proj1 (proj2 (proj2 (proj2 (@plan_block_round_trip Sample.offline
                                       (Sample.block "08:00" "09:00" "早饭")
                                       Sample.r0))))
           [("start"%string, PyInt 8)] (PyInt 8)).
  - left; reflexivity.
  - discriminate.
Defined.

(** ** Events that reach the bus *)




(** ** The index by agent *)








(** ** Conversations and relationships *)

(** X26.  [update_after_conversation] reads the clock once and returns a
    relationship with the same agent, one more interaction, the clock
    reading as the last interaction, and closeness and trust within 0..100
    whatever the quality.  Trust moves by the quality halved and rounded
    down: where nothing is clamped, a conversation of quality [q] followed
    by one of quality [-q] restores closeness, and restores trust for an
    even [q] but leaves it one lower for an odd [q]. *)
Theorem conversation_quality_rounds_trust_down `{Host} quality self r :
  (∃ self',
     Relationship.update_after_conversation quality self r
     = (inr self', mkRuntime (S (clock_reads r)) (uuid_draws r) (llm_calls r))
     ∧ Relationship.agent_id self' = Relationship.agent_id self
     ∧ Relationship.agent_name self' = Relationship.agent_name self
     ∧ (0 ≤ Relationship.closeness self' ≤ 100)%Z
     ∧ (0 ≤ Relationship.trust self' ≤ 100)%Z
     ∧ Relationship.interaction_count self'
       = (Relationship.interaction_count self + 1)%Z
     ∧ Relationship.last_interaction self' = Some (now_at (clock_reads r)))
  ∧ ((0 ≤ quality)%Z →
     (0 ≤ Relationship.closeness self)%Z →
     (Relationship.closeness self + quality ≤ 100)%Z →
     (1 ≤ Relationship.trust self)%Z →
     (Relationship.trust self + quality ≤ 100)%Z →
     ∃ self1 r1 self2 r2,
       Relationship.update_after_conversation quality self r = (inr self1, r1)
       ∧ Relationship.update_after_conversation (- quality) self1 r1 = (inr self2, r2)
       ∧ Relationship.closeness self2 = Relationship.closeness self
       ∧ Relationship.trust self2
         = (Relationship.trust self - quality mod 2)%Z).
Proof.
  split.
  - eexists. split; [reflexivity|]. cbn.
    split_and!; try done; apply clamp_bounds.
  - intros Hq Hc0 Hc1 Ht0 Ht1.
    eexists _, _, _, _. split; [reflexivity|]. split; [reflexivity|]. cbn.
    pose proof (Z.div_mod quality 2 ltac:(lia)) as Hdm.
    pose proof (Z.mod_pos_bound quality 2 ltac:(lia)) as Hmod.
    pose proof (Z.div_mod (- quality) 2 ltac:(lia)) as Hdm'.
    pose proof (Z.mod_pos_bound (- quality) 2 ltac:(lia)) as Hmod'.
    unfold Relationship.clamp. split; lia.
Qed.

Lemma conversation_quality_rounds_trust_down_witness :
  (0 ≤ 3)%Z
  ∧ ∃ self1 r1 self2 r2,
      @Relationship.update_after_conversation Sample.offline 3
        (Relationship.mk "agent_2" "李四" 50 50 0 None) Sample.r0 = (inr self1, r1)
      ∧ @Relationship.update_after_conversation Sample.offline (- 3) self1 r1
        = (inr self2, r2)
      ∧ Relationship.closeness self2 = 50%Z
      ∧ Relationship.trust self2 = 49%Z.
Proof.
  split; [lia|].
  destruct (proj2 (@conversation_quality_rounds_trust_down Sample.offline 3
                     (Relationship.mk "agent_2" "李四" 50 50 0 None) Sample.r0))
    as (self1 & r1 & self2 & r2 & H1 & H2 & Hc & Ht); cbn; try lia.
  exists self1, r1, self2, r2. split; [exact H1|]. split; [exact H2|].
  split; [exact Hc|exact Ht].
Defined.
